(** * Amazon pre-order monitor: scheduler, session classifier, availability
    classifier, secret handling and the monitoring loop, embedded from
    the Python sources under [src/amazon_monitor].

  Conventions of the embedding.
  - Python [int] is [Z]; counters and intervals are unbounded.
  - A Python call that may raise returns a [result]; [try/except] is a
    [match] on it.
  - [random.randint] and [secrets.token_bytes] read an entropy value that
    is an explicit argument, so "for every random draw" is a universal
    quantification over that argument.
  - Page text (URLs, page source, element text) is a [string] of code
    points below 256, on which [str.lower], [str.strip] and [str.split]
    act as Python does on these code points; the secret handled by
    [SecureString] is a sequence of Unicode code points, because its code
    mixes [len(str)] with the length of the UTF-8 encoding. *)

From stdpp Require Import base strings gmap list.
From Stdlib Require Import ZArith NArith Lia Ascii.
From Stdlib Require Strings.Byte.

Local Open Scope string_scope.
Local Open Scope Z_scope.

(** ** Python results and exceptions *)

Module Py.

Inductive exn : Type :=
| NameError (name : string)
| UnboundLocalError (name : string)
| UnicodeEncodeError
| UnicodeDecodeError
| NoSuchElementException
| TimeoutException
| WebDriverException
| KeyringError
| CheckoutError
| OtherError (msg : string).

Inductive result (A : Type) : Type :=
| Ok (a : A)
| Raise (e : exn).
Arguments Ok {A} a.
Arguments Raise {A} e.

Definition bind {A B} (r : result A) (k : A -> result B) : result B :=
  match r with
  | Ok a => k a
  | Raise e => Raise e
  end.

(** [try: r  except Exception: h] *)
Definition try_except {A} (r : result A) (h : exn -> A) : A :=
  match r with
  | Ok a => a
  | Raise e => h e
  end.

(** [logging] levels. *)
Inductive Level : Type := DEBUG | INFO | WARNING | ERROR.

(** [random.randint(a, b)]: an integer of the closed range [a..b], read
    from the entropy value [raw] (used with [a <= b]). *)
Definition randint (a b : Z) (raw : N) : Z :=
  a + Z.of_N raw mod (b - a + 1).

(** The longest [time.sleep] of CPython: it keeps the length as a signed
    64-bit count of nanoseconds. *)
Definition sleep_max : Z := 9223372036.

(** [time.sleep(seconds)] for an [int]: the conversion to nanoseconds
    raises [OverflowError] beyond [sleep_max] seconds in either direction,
    and a negative length is then rejected with [ValueError]. *)
Definition sleep (seconds : Z) : result unit :=
  if (seconds <? - sleep_max) || (sleep_max <? seconds)
  then Raise (OtherError "OverflowError: timestamp too large to convert to C _PyTime_t")
  else if seconds <? 0
  then Raise (OtherError "ValueError: sleep length must be non-negative")
  else Ok tt.

End Py.

Notation "'let*' x ':=' r 'in' k" := (Py.bind r (fun x => k))
  (at level 10, x name, r at level 100, k at level 200).

(** ** core/monitor.py: the cadence scheduler of [PreorderMonitor] *)

Module Scheduler.
Import Py.

(** The fields of [PreorderMonitor] that the loop reads and writes. *)
Record Monitor : Type := mkMonitor {
  is_running : bool;
  session_check_counter : Z;
  check_count : Z
}.

(** [PreorderMonitor.__init__] *)
Definition init_monitor : Monitor :=
  {| is_running := false; session_check_counter := 0; check_count := 0 |}.

Definition set_session_check_counter (c : Z) (m : Monitor) : Monitor :=
  {| is_running := is_running m;
     session_check_counter := c;
     check_count := check_count m |}.

Definition set_check_count (c : Z) (m : Monitor) : Monitor :=
  {| is_running := is_running m;
     session_check_counter := session_check_counter m;
     check_count := c |}.

Definition set_is_running (b : bool) (m : Monitor) : Monitor :=
  {| is_running := b;
     session_check_counter := session_check_counter m;
     check_count := check_count m |}.

(** [_calculate_interval]: the draw is made only when the configured
    interval exceeds 20. *)
Definition _calculate_interval (refresh_interval : Z) (raw : N) : Z :=
  if 20 <? refresh_interval
  then refresh_interval + randint (-10) 10 raw
  else refresh_interval.

(** [_should_check_session] *)
Definition _should_check_session (raw : N) (m : Monitor) : bool * Monitor :=
  let m1 := set_session_check_counter (session_check_counter m + 1) m in
  if randint 5 10 raw <=? session_check_counter m1
  then (true, set_session_check_counter 0 m1)
  else (false, m1).

(** [_should_do_random_browsing] *)
Definition _should_do_random_browsing (raw : N) (m : Monitor) : bool * Monitor :=
  let m1 := set_check_count (check_count m + 1) m in
  (check_count m1 mod randint 8 12 raw =? 0, m1).

(** Successive calls of [_should_check_session], one entropy value per
    call: the result of each call with the state it leaves. *)
Fixpoint session_trace (raws : list N) (m : Monitor) : list (bool * Monitor) :=
  match raws with
  | [] => []
  | raw :: rest =>
      let r := _should_check_session raw m in
      r :: session_trace rest (snd r)
  end.

(** Lengths of the runs of calls that end with a firing: [acc] calls
    have been made since the last firing. *)
Fixpoint periods (acc : Z) (fired : list bool) : list Z :=
  match fired with
  | [] => []
  | true :: rest => (acc + 1) :: periods 0 rest
  | false :: rest => periods (acc + 1) rest
  end.

End Scheduler.

(** ** Python string operations on text of code points below 256 *)

Module Text.

(** The characters that [str.lower] changes: A to Z, and the accented
    capitals 192 to 222 without the multiplication sign 215. *)
Definition is_upper (c : ascii) : bool :=
  let n := nat_of_ascii c in
  ((65 <=? n)%nat && (n <=? 90)%nat)
  || ((192 <=? n)%nat && (n <=? 222)%nat && negb (n =? 215)%nat).

(** [str.lower] *)
Definition lower_char (c : ascii) : ascii :=
  if is_upper c then ascii_of_nat (nat_of_ascii c + 32) else c.

Fixpoint lower (s : string) : string :=
  match s with
  | EmptyString => EmptyString
  | String c rest => String (lower_char c) (lower rest)
  end.

(** [sub in s] *)
Fixpoint contains (sub s : string) : bool :=
  if String.prefix sub s then true
  else match s with
       | EmptyString => false
       | String _ rest => contains sub rest
       end.

(** [str.isspace] on one character: tab to carriage return, the
    separators 28..31, the space, the next-line control 133 and the
    no-break space 160. *)
Definition is_space (c : ascii) : bool :=
  let n := nat_of_ascii c in
  ((9 <=? n)%nat && (n <=? 13)%nat) || ((28 <=? n)%nat && (n <=? 32)%nat)
  || (n =? 133)%nat || (n =? 160)%nat.

Fixpoint lstrip (s : string) : string :=
  match s with
  | EmptyString => EmptyString
  | String c rest => if is_space c then lstrip rest else s
  end.

(** Drops the trailing white space: a character is kept when it is not
    white space or when something is kept after it. *)
Fixpoint rstrip (s : string) : string :=
  match s with
  | EmptyString => EmptyString
  | String c rest =>
      match rstrip rest with
      | EmptyString => if is_space c then EmptyString else String c EmptyString
      | kept => String c kept
      end
  end.

(** [str.strip()] *)
Definition strip (s : string) : string := rstrip (lstrip s).

(** [len(s.split())]: the number of maximal runs without white space;
    [in_word] tells whether the previous character was inside a run. *)
Fixpoint count_words (in_word : bool) (s : string) : Z :=
  match s with
  | EmptyString => 0
  | String c rest =>
      if is_space c then count_words false rest
      else (if in_word then 0 else 1) + count_words true rest
  end.

End Text.

(** ** The browser as the code reads it *)

Module Browser.
Import Py.

(** [selenium.webdriver.common.by.By] *)
Inductive By : Type := ID | XPATH | CSS_SELECTOR | NAME.

Definition Locator : Type := By * string.

(** A [WebElement]: an opaque handle, and what reading [element.text]
    gives: a call to the browser, which returns the text shown or raises
    (a stale element, a lost session). *)
Record WebElement : Type := mkElement {
  handle : nat;
  text : result string
}.

(** The page the driver is on: [driver.current_url], [driver.page_source]
    and [driver.find_elements(by, selector)], which may raise. *)
Record Page : Type := mkPage {
  current_url : string;
  page_source : string;
  find_elements : Locator -> result (list WebElement)
}.

(** [driver.find_element]: the first match, or [NoSuchElementException]. *)
Definition find_element (p : Page) (loc : Locator) : result WebElement :=
  let* elements := find_elements p loc in
  match elements with
  | e :: _ => Ok e
  | [] => Raise NoSuchElementException
  end.

(** A selector matches when its lookup returns at least one element. *)
Definition matches (p : Page) (selector : Locator) : Prop :=
  exists e rest, find_elements p selector = Ok (e :: rest).

(** The settings of the driver session that the code changes. *)
Record Driver : Type := mkDriver {
  page_load_timeout : Z
}.

Definition set_page_load_timeout (seconds : Z) (d : Driver) : Driver :=
  {| page_load_timeout := seconds |}.

(** Evaluating the elements of a list display in order; the first raise
    aborts the display. *)
Fixpoint eval_all {A} (rs : list (result A)) : result (list A) :=
  match rs with
  | [] => Ok []
  | r :: rest =>
      let* a := r in
      let* others := eval_all rest in
      Ok (a :: others)
  end.

End Browser.

(** ** amazon/auth.py: [AmazonAuth.is_session_valid] *)

Module Auth.
Import Py Text Browser.

Definition positive_indicators : list Locator :=
  [ (XPATH, "//span[contains(text(), 'Hello,')]");
    (XPATH, "//a[contains(@id, 'nav-link-accountList')]//span[contains(text(), 'Account')]");
    (ID, "nav-link-accountList-nav-line-1");
    (XPATH, "//a[contains(@href, '/gp/css/homepage')]");
    (XPATH, "//span[contains(text(), 'Account & Lists')]");
    (XPATH, "//a[contains(@href, '/gp/css/order-history')]") ].

Definition sign_in_indicators : list string :=
  [ "Hello, sign in"; "Sign in"; "Sign in to your account" ].

(** The test made on each element of a positive group: its text is
    read, which may raise, and stripped;
    [text and text.lower() != "hello, sign in"]. *)
Definition shows_logged_in (e : WebElement) : result bool :=
  let* text := text e in
  let text := strip text in
  Ok (negb (String.eqb text "") && negb (String.eqb (lower text) "hello, sign in")).

(** The inner loop over the elements of one group: the first element that
    passes the test ends the search; a text that raises ends it too. *)
Fixpoint first_logged_in (elements : list WebElement) : result bool :=
  match elements with
  | [] => Ok false
  | element :: rest =>
      let* found := shows_logged_in element in
      if found then Ok true else first_logged_in rest
  end.

(** The outer loop over the groups. *)
Fixpoint any_logged_in (groups : list (list WebElement)) : result bool :=
  match groups with
  | [] => Ok false
  | elements :: rest =>
      let* found := first_logged_in elements in
      if found then Ok true else any_logged_in rest
  end.

(** [is_session_valid]. [load] is the outcome of the first statements of
    the [try] block: [driver.get("https://www.amazon.com")] and the reads
    of [driver.current_url], [driver.title] and [driver.page_source]; one
    of them raises, or the driver is on a page. The six lookups of
    [positive_indicators] are all made before the loop; any raise lands in
    the handler, which returns [False]. Every path after the loop returns
    [False], whatever the second read of [driver.page_source] gives. *)
Definition is_session_valid (load : result Page) : bool :=
  try_except
    (let* p := load in
     let page_source_lower := lower (page_source p) in
     if contains "captcha" page_source_lower then Ok false
     else if contains "unusual traffic" page_source_lower then Ok false
     else
       let* groups := eval_all (map (find_elements p) positive_indicators) in
       let* found := any_logged_in groups in
       if found
       then Ok true
       else
         let page_source := lower (page_source p) in
         if existsb (fun indicator => contains (lower indicator) page_source)
                    sign_in_indicators
         then Ok false
         else Ok false)
    (fun _ => false).

End Auth.

(** ** core/monitor.py: session handling of [PreorderMonitor] *)

Module Session.
Import Py Text Browser.

(** The names bound at module level in core/monitor.py: its imports and
    its two classes. *)
Definition monitor_module_names : list string :=
  [ "logging"; "os"; "random"; "time"; "webdriver"; "Service";
    "AmazonAuth"; "CheckoutHandler"; "ProductChecker"; "Config";
    "WebDriverError"; "PreorderMonitor"; "BrowserManager" ].

(** Reading a global name that no local binds. *)
Definition resolve (names : list string) (name : string) : result unit :=
  if existsb (String.eqb name) names then Ok tt else Raise (NameError name).

Definition bot_detection_indicators : list string :=
  [ "unusual traffic"; "captcha"; "enter the characters";
    "prove you're not a robot"; "validatecaptcha"; "robot_check";
    "sorry, something went wrong" ].

Definition sign_in_prompts : list string :=
  [ "hello, sign in"; "sign in to your account"; "/ap/signin" ].

(** The inner [try] block of [_quick_session_check]: [Ok true] is its
    [return True]; [Ok false] falls out of the block. The argument
    [By.ID] is evaluated before the call, so the name [By] is read first. *)
Definition positive_login_branch (names : list string) (p : Page) : result bool :=
  let* _by := resolve names "By" in
  let* account_element := find_element p (ID, "nav-link-accountList") in
  let* account_text := text account_element in
  let account_text := strip account_text in
  Ok (negb (String.eqb account_text "")
      && negb (contains "sign in" (lower account_text))
      && (contains "hello" (lower account_text)
          || (1 <? count_words false account_text))).

(** What the browser answers during [_quick_session_check]: the call
    [driver.set_page_load_timeout(15)]; the load of the home page with the
    reads of [driver.current_url] and [driver.page_source]; the call
    [driver.set_page_load_timeout(30)] of the [finally] clause. *)
Record Visit : Type := mkVisit {
  shorten : result unit;
  load : result Page;
  restore : result unit
}.

(** A visit during which the browser answers both timeout calls. *)
Definition visit (load : result Page) : Visit :=
  {| shorten := Ok tt; load := load; restore := Ok tt |}.

(** [_quick_session_check], with the module's global names as a
    parameter. A raise inside the [try] block lands in the handler, which
    answers [False]. The [finally] clause runs on every path: when its call
    returns, the timeout is 30 and the answer stands; when it raises, its
    exception replaces the answer and leaves the function. *)
Definition quick_session_check_in (names : list string)
    (v : Visit) (d : Driver) : result bool * Driver :=
  let '(answer, d) :=
    match shorten v with
    | Raise _ => (false, d)
    | Ok _ =>
        (try_except
           (let* p := load v in
            let current_url := lower (current_url p) in
            let page_source_lower := lower (page_source p) in
            if existsb (fun indicator => contains indicator page_source_lower
                                         || contains indicator current_url)
                       bot_detection_indicators
            then Ok false
            else if existsb (fun indicator => contains indicator page_source_lower)
                            sign_in_prompts
            then Ok false
            else
              match positive_login_branch names p with
              | Ok true => Ok true
              | Ok false => Ok false
              | Raise _ => Ok false
              end)
           (fun _ => false),
         set_page_load_timeout 15 d)
    end in
  match restore v with
  | Ok _ => (Ok answer, set_page_load_timeout 30 d)
  | Raise e => (Raise e, d)
  end.

Definition _quick_session_check : Visit -> Driver -> result bool * Driver :=
  quick_session_check_in monitor_module_names.

End Session.

(** ** amazon/product.py: [ProductChecker.check_availability] *)

Module Product.
Import Py Text Browser.

Definition direct_selectors : list Locator :=
  [ (ID, "preorder-button");
    (ID, "submit.preorder");
    (ID, "submit.preorder-now");
    (ID, "buy-now-button");
    (ID, "add-to-cart-button");
    (XPATH, "//input[contains(@value, 'Pre-order')]");
    (XPATH, "//span[contains(text(), 'Pre-order')]");
    (XPATH, "//a[contains(text(), 'Pre-order')]") ].

Definition buying_options_selectors : list Locator :=
  [ (ID, "buybox-see-all-buying-choices");
    (ID, "buybox-see-all-buying-choices-announce");
    (XPATH, "//span[contains(text(), 'See All Buying Options')]");
    (XPATH, "//a[contains(text(), 'See All Buying Options')]") ].

Definition unavailable_texts : list string :=
  [ "Currently unavailable";
    "Out of Stock";
    "Sign up to be notified when this item becomes available";
    "Temporarily out of stock" ].

(** [(available, button_element, button_type)] *)
Definition Verdict : Type := bool * option WebElement * option string.

Definition not_available : Verdict := (false, None, None).

(** The loop shared by the two button checks: the selectors are tried in
    order, a lookup that raises is logged and skipped, and the first
    non-empty group gives its first element. *)
Fixpoint first_match (p : Page) (selectors : list Locator) : option WebElement :=
  match selectors with
  | [] => None
  | selector :: rest =>
      match find_elements p selector with
      | Ok (e :: _) => Some e
      | Ok [] => first_match p rest
      | Raise _ => first_match p rest
      end
  end.

Definition _check_direct_preorder_buttons (p : Page) : Verdict :=
  match first_match p direct_selectors with
  | Some e => (true, Some e, Some "direct")
  | None => not_available
  end.

Definition _check_buying_options_buttons (p : Page) : Verdict :=
  match first_match p buying_options_selectors with
  | Some e => (true, Some e, Some "buying_options")
  | None => not_available
  end.

Definition _check_unavailability_messages (p : Page) : bool :=
  existsb (fun text => contains text (page_source p)) unavailable_texts.

(** [check_availability]. [arrival] is the outcome of the steps made
    before the checks (simulated browsing, navigation to the product,
    simulated browsing again): they raise, or leave the driver on a page. *)
Definition check_availability (arrival : result Page) : Verdict :=
  try_except
    (let* p := arrival in
     let '(available, button, button_type) := _check_direct_preorder_buttons p in
     if available then Ok (available, button, button_type)
     else
       let '(available, button, button_type) := _check_buying_options_buttons p in
       if available then Ok (available, button, button_type)
       else if _check_unavailability_messages p then Ok not_available
       else Ok not_available)
    (fun _ => not_available).

End Product.

(** ** amazon/checkout.py: [CheckoutHandler.attempt_purchase] *)

Module Checkout.
Import Py Browser.

(** What the two purchase flows do when they are run. *)
Record Flows : Type := mkFlows {
  _handle_buying_options_flow : result bool;
  _handle_direct_purchase_flow : result bool
}.

(** [attempt_purchase]: the guard [not button or not button_type] rejects
    a missing button and a missing or empty type. *)
Definition attempt_purchase (button : option WebElement)
    (button_type : option string) (flows : Flows) : bool :=
  match button, button_type with
  | Some _, Some button_type =>
      if String.eqb button_type "" then false
      else
        try_except
          (if String.eqb button_type "buying_options"
           then _handle_buying_options_flow flows
           else _handle_direct_purchase_flow flows)
          (fun _ => false)
  | _, _ => false
  end.

End Checkout.

(** ** core/monitor.py: [PreorderMonitor._monitoring_loop] *)

Module Monitor.
Import Py Browser Scheduler.

(** What a run does that can be observed from outside. *)
Inductive Event : Type :=
| Log (level : Level) (msg : string)
| QuickSessionCheck (valid : bool)
| SessionValidityCheck (valid : bool)
| Login (success : bool)
| RandomBrowsing
| AvailabilityProbe (available : bool)
| PurchaseAttempt (success : bool)
| Sleep (seconds : Z).

(** What the world answers during one iteration of the loop: the entropy
    of the three draws, the outcome of the load and reads that open
    [is_session_valid], what [AmazonAuth.login] returns (it catches every
    exception), the arrivals of
    the two availability probes, the purchase flows, and whether [stop] is
    called from outside while the iteration runs. *)
Record Tick : Type := mkTick {
  interval_entropy : N;
  session_entropy : N;
  browsing_entropy : N;
  session_page : result Page;
  login_result : bool;
  first_probe : result Page;
  second_probe : result Page;
  flows : Checkout.Flows;
  stop_called : bool
}.

(** How an iteration ends: the loop goes on, the function returns, or an
    exception leaves it. *)
Inductive Flow : Type :=
| Next
| Return (purchased : bool)
| Raising (e : exn).

(** [_initialize_session]: an exception of the quick check lands in the
    handler, which logs it and returns [False]; [login] catches its own. *)
Definition _initialize_session (v : Session.Visit) (login_result : bool)
    (d : Driver) : bool * Driver * list Event :=
  match Session._quick_session_check v d with
  | (Ok true, d) =>
      (true, d, [QuickSessionCheck true; Log INFO "Existing session is valid"])
  | (Ok false, d) =>
      (login_result, d,
       [ QuickSessionCheck false;
         Log INFO "Session invalid or uncertain, performing fresh login...";
         Login login_result;
         if login_result then Log INFO "Successfully logged into Amazon"
         else Log ERROR "Login failed" ])
  | (Raise e, d) =>
      (false, d, [Log ERROR "Session initialization failed: {e}"])
  end.

(** [_handle_session_check] *)
Definition _handle_session_check (load : result Page) (login_result : bool)
    : bool * list Event :=
  if Auth.is_session_valid load
  then (true, [Log INFO "Performing session validity check...";
               SessionValidityCheck true])
  else (login_result,
        [ Log INFO "Performing session validity check...";
          SessionValidityCheck false;
          Log WARNING "Session invalid, attempting to re-establish...";
          Login login_result ]).

(** [_check_availability] *)
Definition _check_availability (arrival : result Page) : bool * list Event :=
  let '(available, _, button_type) := Product.check_availability arrival in
  (available, [AvailabilityProbe available]).

(** [_attempt_purchase]: the page is probed a second time. *)
Definition _attempt_purchase (arrival : result Page) (flows : Checkout.Flows)
    : bool * list Event :=
  let '(available, button, button_type) := Product.check_availability arrival in
  if available
  then
    let success := Checkout.attempt_purchase button button_type flows in
    (success, [AvailabilityProbe true; PurchaseAttempt success])
  else (false, [AvailabilityProbe false]).

(** The end of an iteration that did not return: the log line, the call
    [time.sleep(interval)], whose exception leaves the loop, and the effect
    of an outside call of [stop] on [is_running]. *)
Definition wait_for_next (interval : Z) (t : Tick) (m : Monitor)
    (events : list Event) : Flow * Monitor * list Event :=
  (match sleep interval with
   | Ok _ => Next
   | Raise e => Raising e
   end,
   if stop_called t then set_is_running false m else m,
   (events ++ [ Log INFO "Item not available, checking again in {interval} seconds...";
                Sleep interval ])%list).

(** The body of the [while self.is_running] loop. *)
Definition loop_body (refresh_interval : Z) (t : Tick) (m : Monitor)
    : Flow * Monitor * list Event :=
  let interval := _calculate_interval refresh_interval (interval_entropy t) in
  let '(check, m) := _should_check_session (session_entropy t) m in
  let '(session_ok, ev_session) :=
    if check then _handle_session_check (session_page t) (login_result t)
    else (true, []) in
  if negb session_ok
  then (Return false, m,
        (ev_session ++ [Log ERROR "Session check failed, stopping monitor"])%list)
  else
    let '(browse, m) := _should_do_random_browsing (browsing_entropy t) m in
    let ev_browse := if browse then [RandomBrowsing] else [] in
    let '(available, ev_probe) := _check_availability (first_probe t) in
    let before := (ev_session ++ ev_browse ++ ev_probe)%list in
    if available
    then
      let '(purchased, ev_purchase) := _attempt_purchase (second_probe t) (flows t) in
      if purchased
      then (Return true, m,
            (before ++ ev_purchase ++ [Log INFO "Successfully purchased item!"])%list)
      else
        wait_for_next interval t m
          (before ++ ev_purchase
           ++ [Log WARNING "Purchase attempt failed, continuing monitoring..."])%list
    else wait_for_next interval t m before.

(** The [while] loop over the iterations the world supplies: the value
    returned or the exception raised, or [None] when the iterations are
    used up with the loop still running. *)
Fixpoint monitoring_while (refresh_interval : Z) (ticks : list Tick) (m : Monitor)
    : option (result bool) * Monitor * list Event :=
  if is_running m then
    match ticks with
    | [] => (None, m, [])
    | t :: rest =>
        match loop_body refresh_interval t m with
        | (Return purchased, m, events) => (Some (Ok purchased), m, events)
        | (Raising e, m, events) => (Some (Raise e), m, events)
        | (Next, m, events) =>
            let '(answer, m, later) := monitoring_while refresh_interval rest m in
            (answer, m, (events ++ later)%list)
        end
    end
  else (Some (Ok false), m, []).

(** [_monitoring_loop] *)
Definition _monitoring_loop (refresh_interval : Z) (v : Session.Visit)
    (login_result : bool) (ticks : list Tick) (m : Monitor) (d : Driver)
    : option (result bool) * Monitor * list Event :=
  let '(ok, d, ev_init) := _initialize_session v login_result d in
  if negb ok
  then (Some (Ok false), m,
        (ev_init ++ [Log ERROR "Failed to initialize session"])%list)
  else
    let '(answer, m, events) := monitoring_while refresh_interval ticks m in
    (answer, m, (ev_init ++ events)%list).

End Monitor.

(** ** Concrete pages and iterations used as test inputs *)

Module Examples.
Import Py Browser.

(** A page on which exactly one selector finds elements. *)
Definition page_with (url source : string) (found : By) (selector : string)
    (elements : list WebElement) : Page :=
  {| current_url := url;
     page_source := source;
     find_elements := fun loc =>
       match loc, found with
       | (ID, s), ID | (XPATH, s), XPATH
       | (CSS_SELECTOR, s), CSS_SELECTOR | (NAME, s), NAME =>
           if String.eqb s selector then Ok elements else Ok []
       | _, _ => Ok []
       end |}.

(** A robot-check interstitial that still shows the account greeting. *)
Definition robot_check_page : Page :=
  page_with "https://www.amazon.com/"
            "<html>robot_check <span>Hello, John</span></html>"
            XPATH "//span[contains(text(), 'Hello,')]"
            [mkElement 1 (Ok "Hello, John")].

(** The home page of a signed-in account. *)
Definition signed_in_page : Page :=
  page_with "https://www.amazon.com/"
            "<html><a id='nav-link-accountList'>Hello, John</a></html>"
            ID "nav-link-accountList"
            [mkElement 2 (Ok "Hello, John")].

(** A CAPTCHA page that also shows the account greeting. *)
Definition captcha_page : Page :=
  page_with "https://www.amazon.com/errors/validateCaptcha"
            "<html>Type the CAPTCHA <span>Hello, John</span></html>"
            XPATH "//span[contains(text(), 'Hello,')]"
            [mkElement 3 (Ok "Hello, John")].

(** A product page with a live buy-now button next to a stale banner. *)
Definition restocked_page : Page :=
  page_with "https://www.amazon.com/dp/B123456789"
            "<html>Currently unavailable <input id='buy-now-button'></html>"
            ID "buy-now-button"
            [mkElement 7 (Ok "Buy Now"); mkElement 8 (Ok "Buy Now")].

(** A quick check of a signed-in home page during which the browser
    session is lost: the call that restores the timeout raises. *)
Definition lost_session_visit : Session.Visit :=
  {| Session.shorten := Ok tt;
     Session.load := Ok signed_in_page;
     Session.restore := Raise WebDriverException |}.

(** An iteration in which the session check is due and the home page does
    not load, [login] succeeds, and the product is not on sale. *)
Definition relogin_tick : Monitor.Tick :=
  {| Monitor.interval_entropy := 0%N;
     Monitor.session_entropy := 0%N;
     Monitor.browsing_entropy := 0%N;
     Monitor.session_page := Raise TimeoutException;
     Monitor.login_result := true;
     Monitor.first_probe := Raise TimeoutException;
     Monitor.second_probe := Raise TimeoutException;
     Monitor.flows := Checkout.mkFlows (Ok false) (Ok false);
     Monitor.stop_called := false |}.

(** An iteration in which no session check is due, the product is on sale
    and the purchase flow raises [CheckoutError]. *)
Definition failed_purchase_tick : Monitor.Tick :=
  {| Monitor.interval_entropy := 3%N;
     Monitor.session_entropy := 5%N;
     Monitor.browsing_entropy := 0%N;
     Monitor.session_page := Raise TimeoutException;
     Monitor.login_result := false;
     Monitor.first_probe := Ok restocked_page;
     Monitor.second_probe := Ok restocked_page;
     Monitor.flows := Checkout.mkFlows (Raise CheckoutError) (Raise CheckoutError);
     Monitor.stop_called := false |}.

End Examples.

(** ** security/secure_string.py: [SecureString] *)

Module SecureString.
Import Py.

Local Open Scope N_scope.

(** A Python [str]: its code points. *)
Definition pystr : Type := list N.

Definition byte : Type := Byte.byte.

(** The byte of a number below 256. *)
Definition byte_of (n : N) : byte :=
  match Byte.of_N n with
  | Some b => b
  | None => Byte.x00
  end.

(** [str.encode()] on one code point: UTF-8, surrogates refused. *)
Definition encode_char (c : N) : result (list byte) :=
  if c <? 0x80 then Ok [byte_of c]
  else if c <? 0x800 then
    Ok [byte_of (0xC0 + c / 64); byte_of (0x80 + c mod 64)]
  else if (0xD800 <=? c) && (c <=? 0xDFFF) then Raise UnicodeEncodeError
  else if c <? 0x10000 then
    Ok [byte_of (0xE0 + c / 4096); byte_of (0x80 + (c / 64) mod 64);
        byte_of (0x80 + c mod 64)]
  else if c <? 0x110000 then
    Ok [byte_of (0xF0 + c / 262144); byte_of (0x80 + (c / 4096) mod 64);
        byte_of (0x80 + (c / 64) mod 64); byte_of (0x80 + c mod 64)]
  else Raise UnicodeEncodeError.

Fixpoint encode (s : pystr) : result (list byte) :=
  match s with
  | [] => Ok []
  | c :: rest =>
      let* head := encode_char c in
      let* tail := encode rest in
      Ok (head ++ tail)%list
  end.

Definition between (lo n hi : N) : bool := (lo <=? n) && (n <=? hi).

(** [bytes.decode()]: strict UTF-8; a truncated, overlong or surrogate
    sequence raises [UnicodeDecodeError]. *)
Fixpoint decode (data : list byte) : result pystr :=
  match data with
  | [] => Ok []
  | b0 :: r0 =>
      let n0 := Byte.to_N b0 in
      if n0 <? 0x80 then
        let* s := decode r0 in Ok (n0 :: s)
      else if between 0xC2 n0 0xDF then
        match r0 with
        | b1 :: r1 =>
            let n1 := Byte.to_N b1 in
            if between 0x80 n1 0xBF then
              let* s := decode r1 in
              Ok (((n0 - 0xC0) * 64 + (n1 - 0x80)) :: s)
            else Raise UnicodeDecodeError
        | _ => Raise UnicodeDecodeError
        end
      else if between 0xE0 n0 0xEF then
        match r0 with
        | b1 :: b2 :: r2 =>
            let n1 := Byte.to_N b1 in
            let n2 := Byte.to_N b2 in
            if between (if n0 =? 0xE0 then 0xA0 else 0x80) n1
                       (if n0 =? 0xED then 0x9F else 0xBF)
               && between 0x80 n2 0xBF
            then
              let* s := decode r2 in
              Ok (((n0 - 0xE0) * 4096 + (n1 - 0x80) * 64 + (n2 - 0x80)) :: s)
            else Raise UnicodeDecodeError
        | _ => Raise UnicodeDecodeError
        end
      else if between 0xF0 n0 0xF4 then
        match r0 with
        | b1 :: b2 :: b3 :: r3 =>
            let n1 := Byte.to_N b1 in
            let n2 := Byte.to_N b2 in
            let n3 := Byte.to_N b3 in
            if between (if n0 =? 0xF0 then 0x90 else 0x80) n1
                       (if n0 =? 0xF4 then 0x8F else 0xBF)
               && between 0x80 n2 0xBF && between 0x80 n3 0xBF
            then
              let* s := decode r3 in
              Ok (((n0 - 0xF0) * 262144 + (n1 - 0x80) * 4096
                   + (n2 - 0x80) * 64 + (n3 - 0x80)) :: s)
            else Raise UnicodeDecodeError
        | _ => Raise UnicodeDecodeError
        end
      else Raise UnicodeDecodeError
  end.

(** The object: [_length] is [len(secret)], a count of code points;
    [_buffer] is the ctypes buffer, the encoded secret and a final NUL. *)
Record SecureString : Type := mkSecureString {
  _length : nat;
  _buffer : list byte
}.

(** [__init__]; the memory lock and the core-dump limit do not touch the
    two fields. An object whose [__init__] raised has no [_buffer], and
    [_secure_wipe] skips it. *)
Definition __init__ (secret : pystr) : result SecureString :=
  let* data := encode secret in
  Ok {| _length := length secret; _buffer := (data ++ [Byte.x00])%list |}.

(** [secrets.token_bytes(n)], read from the entropy source. *)
Definition token_bytes (entropy : nat -> byte) (n : nat) : list byte :=
  map entropy (seq 0 n).

(** [ctypes.memmove(dst, src, n)] and [ctypes.memset(dst, v, n)], for
    [n] within both buffers. *)
Definition memmove (dst src : list byte) (n : nat) : list byte :=
  (firstn n src ++ skipn n dst)%list.

Definition memset (dst : list byte) (v : byte) (n : nat) : list byte :=
  (repeat v n ++ skipn n dst)%list.

(** The first statement pair of [_secure_wipe]: random bytes over the
    first [_length] bytes. *)
Definition scramble (entropy : nat -> byte) (s : SecureString) : SecureString :=
  let random_bytes := token_bytes entropy (_length s) in
  {| _length := _length s;
     _buffer := memmove (_buffer s) random_bytes (_length s) |}.

(** [_secure_wipe] *)
Definition _secure_wipe (entropy : nat -> byte) (s : SecureString) : SecureString :=
  let s := scramble entropy s in
  {| _length := _length s;
     _buffer := memset (_buffer s) Byte.x00 (_length s) |}.

(** [__del__] *)
Definition __del__ (entropy : nat -> byte) (s : SecureString) : SecureString :=
  _secure_wipe entropy s.

(** What a call of [use_secret] leaves: the return value or exception,
    the object, and the arguments [func] was called with. *)
Record Used (A : Type) : Type := mkUsed {
  outcome : result A;
  after : SecureString;
  calls : list pystr
}.
Arguments mkUsed {A} outcome after calls.
Arguments outcome {A} u.
Arguments after {A} u.
Arguments calls {A} u.

(** [use_secret]. When the slice does not decode, [temp] is never bound
    and the [del temp] of the [finally] clause raises in place of the
    decoding error; otherwise the [finally] clause only unbinds [temp]. *)
Definition use_secret {A} (func : pystr -> result A) (s : SecureString) : Used A :=
  match decode (firstn (_length s) (_buffer s)) with
  | Ok temp => mkUsed (func temp) s [temp]
  | Raise _ => mkUsed (Raise (UnboundLocalError "temp")) s []
  end.

End SecureString.

(** ** security/encryption.py: [Encryption._load_key] *)

Module Encryption.
Import Py.

Definition SERVICE_ID : string := "amazon_monitor".
Definition KEY_USERNAME : string := "encryption_key".

(** The system keyring: passwords by service and user name, and whether
    the backend raises on a read or on a write. *)
Record Keyring : Type := mkKeyring {
  entries : gmap (string * string) string;
  get_raises : bool;
  set_raises : bool
}.

(** [keyring.get_password] *)
Definition get_password (kr : Keyring) (service username : string)
    : result (option string) :=
  if get_raises kr then Raise KeyringError
  else Ok (entries kr !! (service, username)).

(** [keyring.set_password] *)
Definition set_password (kr : Keyring) (service username password : string)
    : result Keyring :=
  if set_raises kr then Raise KeyringError
  else Ok {| entries := <[(service, username) := password]> (entries kr);
             get_raises := get_raises kr;
             set_raises := set_raises kr |}.

(** What a call of [_load_key] leaves: the key or the exception, the
    keyring, and the log records. *)
Record Loaded : Type := mkLoaded {
  key : result string;
  keyring : Keyring;
  logged : list (Level * string)
}.

Section LoadKey.

(** Whether [Fernet(key)] accepts a key: the constructor of the
    cryptography package, which the repository does not contain. *)
Variable fernet_accepts : string -> bool.

(** The key [_generate_key] returns when it is called. *)
Variable generated : string.

(** The two places of [_load_key] that generate a key and store it; a
    raise of the keyring reaches the outer handler, which logs and
    re-raises. *)
Definition generate_and_store (kr : Keyring) (note : Level * string) : Loaded :=
  match set_password kr SERVICE_ID KEY_USERNAME generated with
  | Ok kr' => mkLoaded (Ok generated) kr' [note]
  | Raise e =>
      mkLoaded (Raise e) kr [note; (ERROR, "Failed to load encryption key: {e}")]
  end.

(** [_load_key] *)
Definition _load_key (kr : Keyring) : Loaded :=
  match get_password kr SERVICE_ID KEY_USERNAME with
  | Raise e => mkLoaded (Raise e) kr [(ERROR, "Failed to load encryption key: {e}")]
  | Ok None =>
      generate_and_store kr
        (INFO, "No existing encryption key found, generating new key")
  | Ok (Some key_str) =>
      if fernet_accepts key_str then mkLoaded (Ok key_str) kr []
      else
        generate_and_store kr
          (WARNING, "Stored key is invalid, generating new one")
  end.

End LoadKey.

(** A stand-in for the validation of [Fernet]: the URL-safe base64 text
    of 32 bytes has 44 characters. *)
Definition has_key_length (key : string) : bool :=
  (String.length key =? 44)%nat.

(** A keyring whose stored key is damaged. *)
Definition damaged_keyring : Keyring :=
  {| entries := {[ (SERVICE_ID, KEY_USERNAME) := "not-a-fernet-key" ]};
     get_raises := false;
     set_raises := false |}.

Definition fresh_key : string := "3q2-7wAAAAAAAAAAAAAAAAAAAAAAAAAAAAAAAAAAAAA=".

End Encryption.

(** ** config/settings.py: [Config] *)

Module Settings.

Record Config : Type := mkConfig {
  email : string;
  password_encrypted : string;
  product_url : string;
  refresh_interval : Z;
  headless : bool;
  cookie_file : string;
  enable_anti_detection : bool;
  randomize_user_agent : bool;
  randomize_window_size : bool;
  random_delays : bool;
  stealth_mode : bool
}.

(** [Config.__post_init__]: [None] when the configuration is accepted,
    otherwise the message of the [ConfigurationError] it raises. *)
Definition __post_init__ (c : Config) : option string :=
  if String.eqb (email c) "" then Some "Email is required"
  else if String.eqb (password_encrypted c) "" then
    Some "Encrypted password is required"
  else if String.eqb (product_url c) "" then Some "Product URL is required"
  else if negb (String.prefix "https://www.amazon.com" (product_url c)) then
    Some "Invalid product URL - must be Amazon product page"
  else if refresh_interval c <? 10 then
    Some "Refresh interval must be at least 10 seconds"
  else None.

End Settings.

(** ** core/monitor.py: [BrowserManager], [PreorderMonitor.start] and
       [PreorderMonitor.stop] *)

Module Lifecycle.
Import Py Browser Scheduler.

(** [BrowserManager]: the driver it holds, if any. *)
Record BrowserManager : Type := mkBrowserManager {
  driver : option Driver
}.

Inductive Event : Type :=
| DriverCreated
| DriverQuit (raised : bool)
| Logged (level : Level) (msg : string)
| Ran (e : Monitor.Event).

(** [get_driver]; [create] is what [_create_driver] does if it is called. *)
Definition get_driver (create : result Driver) (bm : BrowserManager)
    : result Driver * BrowserManager * list Event :=
  match driver bm with
  | Some d => (Ok d, bm, [])
  | None =>
      match create with
      | Ok d => (Ok d, {| driver := Some d |}, [DriverCreated])
      | Raise e => (Raise e, bm, [])
      end
  end.

(** [cleanup]; [quit_raises] tells whether [driver.quit()] raises. The
    [finally] clause forgets the driver on both paths. *)
Definition cleanup (quit_raises : bool) (bm : BrowserManager)
    : BrowserManager * list Event :=
  match driver bm with
  | Some _ =>
      ({| driver := None |},
       if quit_raises
       then [DriverQuit true; Logged WARNING "Error closing browser: {e}"]
       else [DriverQuit false; Logged INFO "Browser closed"])
  | None => (bm, [])
  end.

(** [stop]; the monitor may have been built without a browser manager. *)
Definition stop (quit_raises : bool) (m : Monitor) (bm : option BrowserManager)
    : Monitor * option BrowserManager * list Event :=
  let m := set_is_running false m in
  match bm with
  | Some bm =>
      let '(bm, events) := cleanup quit_raises bm in
      (m, Some bm, (Logged INFO "Stopping monitor..." :: events))
  | None => (m, None, [Logged INFO "Stopping monitor..."])
  end.

(** What the world answers during a call of [start]: the creation of the
    driver, the quick check of the home page and the first login, the
    iterations of the loop, and the behaviour of [quit]. When the
    iterations are used up with the loop still running, the user interrupts
    the program. *)
Record Run : Type := mkRun {
  create : result Driver;
  home_page : Session.Visit;
  first_login : bool;
  ticks : list Monitor.Tick;
  quit_raises : bool
}.

(** [start]: the [try] block runs [_monitoring_loop], whose first statement
    asks the browser manager for the driver; both handlers log; the
    [finally] clause calls [stop]. *)
Definition start (refresh_interval : Z) (w : Run) (m : Monitor)
    (bm : option BrowserManager)
    : Monitor * option BrowserManager * list Event :=
  let m := set_is_running true m in
  let '(m, bm, events) :=
    match bm with
    | None =>
        (m, None,
         [Logged ERROR "Monitor error: 'NoneType' object has no attribute 'get_driver'"])
    | Some bm =>
        match get_driver (create w) bm with
        | (Raise e, bm, ev) =>
            (m, Some bm, (ev ++ [Logged ERROR "Monitor error: {e}"])%list)
        | (Ok d, bm, ev) =>
            let '(answer, m, ran) :=
              Monitor._monitoring_loop refresh_interval (home_page w)
                (first_login w) (ticks w) m d in
            (m, Some bm,
             (ev ++ map Ran ran
                 ++ match answer with
                    | Some (Ok _) => []
                    | Some (Raise e) => [Logged ERROR "Monitor error: {e}"]
                    | None => [Logged INFO "Monitor interrupted by user"]
                    end)%list)
        end
    end in
  let '(m, bm, stopped) := stop (quit_raises w) m bm in
  (m, bm,
   (Logged INFO "Starting Amazon pre-order monitor..." :: events ++ stopped)%list).

(** The number of calls of [driver.quit()] in a trace. *)
Fixpoint quits (events : list Event) : nat :=
  match events with
  | [] => 0
  | DriverQuit _ :: rest => S (quits rest)
  | _ :: rest => quits rest
  end.

End Lifecycle.

(** ** Reading the trace of a run *)

Module Trace.
Import Monitor.

(** Every [Sleep] of the trace lasts between [lo] and [hi] seconds. *)
Definition sleeps_within (lo hi : Z) (e : Event) : Prop :=
  match e with
  | Sleep seconds => lo <= seconds <= hi
  | _ => True
  end.

Definition is_login (e : Event) : bool :=
  match e with
  | Login _ => true
  | _ => false
  end.

Definition is_failed_check (e : Event) : bool :=
  match e with
  | SessionValidityCheck false => true
  | _ => false
  end.

Definition is_purchase_attempt (e : Event) : bool :=
  match e with
  | PurchaseAttempt _ => true
  | _ => false
  end.

Definition is_probe (e : Event) : bool :=
  match e with
  | AvailabilityProbe _ => true
  | _ => false
  end.

Fixpoint count (p : Event -> bool) (events : list Event) : nat :=
  match events with
  | [] => 0
  | e :: rest => (if p e then 1 else 0) + count p rest
  end.

End Trace.


(** ** amazon/product.py: [ProductChecker._extract_product_name_from_url] *)

Module ProductSearch.
Import Text.

(** [s.split(sep)] for a separator of one character: the parts between
    the separators, empty parts included. *)
Fixpoint split (sep : ascii) (s : string) : list string :=
  match s with
  | EmptyString => [EmptyString]
  | String c rest =>
      if Ascii.eqb c sep then EmptyString :: split sep rest
      else
        match split sep rest with
        | part :: parts => String c part :: parts
        | [] => [String c EmptyString]
        end
  end.

(** [s.replace(old, new)] for single characters. *)
Fixpoint replace (old new : ascii) (s : string) : string :=
  match s with
  | EmptyString => EmptyString
  | String c rest =>
      String (if Ascii.eqb c old then new else c) (replace old new rest)
  end.

(** The loop of [_extract_product_name_from_url] over the parts. *)
Fixpoint first_searchable (product_parts : list string) : option string :=
  match product_parts with
  | [] => None
  | part :: rest =>
      if (5 <? String.length part)%nat && contains "-" part
      then Some (replace "-" " " part)
      else first_searchable rest
  end.

Definition _extract_product_name_from_url (product_url : string) : string :=
  match first_searchable (split "/" product_url) with
  | Some name => name
  | None => "new products"
  end.

End ProductSearch.

(** ** security/encryption.py: [is_encrypted], [get_password], the cached
       [fernet] property, [_store_key] and [rotate_key] *)

Module Vault.
Import Py Encryption.

(** The character class [A-Za-z0-9_-] of [ENCRYPTED_PATTERN]. *)
Definition is_token_char (c : ascii) : bool :=
  let n := nat_of_ascii c in
  ((65 <=? n) && (n <=? 90) || (97 <=? n) && (n <=? 122)
   || (48 <=? n) && (n <=? 57) || (n =? 95) || (n =? 45))%nat.

(** The longest prefix made of token characters, and what follows it. *)
Fixpoint span_token (s : string) : string * string :=
  match s with
  | EmptyString => (EmptyString, EmptyString)
  | String c rest =>
      if is_token_char c
      then let '(run, after) := span_token rest in (String c run, after)
      else (EmptyString, s)
  end.

Definition newline : string := String "010"%char EmptyString.

(** [is_encrypted]: [re.match] of [^[A-Za-z0-9_-]{20,}={0,2}$]. Neither
    [=] nor a line feed is a token character, so a match takes the whole
    run of token characters, which must have 20 characters or more, then
    at most two [=]; [$] stands at the end of the text or before a line
    feed that ends it. *)
Definition is_encrypted (data : string) : bool :=
  let '(run, after) := span_token data in
  (20 <=? String.length run)%nat
  && existsb (String.eqb after)
       [ ""; "="; "=="; newline; "=" ++ newline; "==" ++ newline ]%string.

(** The [Encryption] object: the key of the [Fernet] instance it caches. *)
Record Encryption : Type := mkEncryption {
  _fernet : option string
}.

(** What a method leaves: its answer, the object and the keyring. *)
Record Step (A : Type) : Type := mkStep {
  answer : result A;
  self : Encryption;
  keyring : Keyring
}.
Arguments mkStep {A} answer self keyring.
Arguments answer {A} s.
Arguments self {A} s.
Arguments keyring {A} s.

(** [ValueError], raised by [Fernet(key)] on a key it rejects. *)
Definition ValueError : exn :=
  OtherError "ValueError: Fernet key must be 32 url-safe base64-encoded bytes.".

Section Methods.

Variable fernet_accepts : string -> bool.

(** [Encryption.decrypt], whose work is done by the cryptography package. *)
Variable decrypt : string -> result string.

(** [get_password]; its handler logs and re-raises. *)
Definition get_password (password_input : string) : result string :=
  if is_encrypted password_input then decrypt password_input
  else Ok password_input.

(** The [fernet] property; [generated] is the key [_generate_key] would
    return. The answer is the key of the [Fernet] instance. *)
Definition fernet (generated : string) (e : Encryption) (kr : Keyring)
    : Step string :=
  match _fernet e with
  | Some key => mkStep (Ok key) e kr
  | None =>
      let loaded := _load_key fernet_accepts generated kr in
      match Encryption.key loaded with
      | Raise err => mkStep (Raise err) e (Encryption.keyring loaded)
      | Ok key =>
          if fernet_accepts key
          then mkStep (Ok key) {| _fernet := Some key |} (Encryption.keyring loaded)
          else mkStep (Raise ValueError) e (Encryption.keyring loaded)
      end
  end.

(** [_store_key]: the key is checked before it is stored; the handler
    logs and re-raises. *)
Definition _store_key (key : string) (e : Encryption) (kr : Keyring)
    : Step unit :=
  if fernet_accepts key
  then
    match set_password kr SERVICE_ID KEY_USERNAME key with
    | Ok kr' => mkStep (Ok tt) {| _fernet := Some key |} kr'
    | Raise err => mkStep (Raise err) e kr
    end
  else mkStep (Raise ValueError) e kr.

(** [rotate_key]; [generated] is the key [_generate_key] returns. *)
Definition rotate_key (generated : string) (e : Encryption) (kr : Keyring)
    : Step unit :=
  _store_key generated e kr.

End Methods.

End Vault.

(** ** amazon/checkout.py: the purchase flows of [CheckoutHandler] *)

Module Purchase.
Import Py Text Browser.

Definition modal_selectors : list Locator :=
  [ (XPATH, "//input[contains(@name, 'submit.preOrder')]");
    (XPATH, "//span[contains(text(), 'Pre-order')]");
    (XPATH, "//input[contains(@name, 'submit.addToCart')]");
    (XPATH, "//span[contains(text(), 'Add to Cart')]");
    (XPATH, "//input[contains(@value, 'Buy now')]") ].

Definition proceed_selectors : list Locator :=
  [ (ID, "sc-buy-box-ptc-button");
    (XPATH, "//input[@name='proceedToRetailCheckout']");
    (XPATH, "//span[contains(text(), 'Proceed to checkout')]");
    (XPATH, "//a[contains(text(), 'Proceed to checkout')]") ].

(** [_find_purchase_buttons_in_modal]: the whole first non-empty group; a
    lookup that raises is skipped. *)
Fixpoint first_group (p : Page) (selectors : list Locator) : list WebElement :=
  match selectors with
  | [] => []
  | selector :: rest =>
      match find_elements p selector with
      | Ok (e :: others) => e :: others
      | Ok [] => first_group p rest
      | Raise _ => first_group p rest
      end
  end.

Definition _find_purchase_buttons_in_modal (p : Page) : list WebElement :=
  first_group p modal_selectors.

(** [_find_proceed_to_checkout_button]: the same loop as the button checks
    of the product page. *)
Definition _find_proceed_to_checkout_button (p : Page) : option WebElement :=
  Product.first_match p proceed_selectors.

(** [_is_in_cart_flow]: the URL is read as it is, the source lower-cased. *)
Definition _is_in_cart_flow (p : Page) : bool :=
  existsb (fun indicator => indicator)
    [ contains "cart" (current_url p);
      contains "proceed-to-checkout" (lower (page_source p));
      contains "shopping cart" (lower (page_source p));
      contains "checkout" (current_url p) ].

(** [_verify_order_success] *)
Definition _verify_order_success (p : Page) : bool :=
  existsb (fun indicator => indicator)
    [ contains "order placed" (lower (page_source p));
      contains "thank you" (lower (page_source p));
      contains "order confirmation" (lower (page_source p));
      contains "your order" (lower (page_source p));
      contains "/gp/css/order-history" (current_url p) ].

(** The clicks a purchase attempt makes. Screenshots and log lines, which
    never raise, are left out. *)
Inductive Action : Type :=
| ClickButton (h : nat)
| ClickModalButton (h : nat)
| ClickProceed (h : nat)
| ClickPlaceOrder.

(** What the browser answers during a purchase attempt: the outcome of
    each click ([_click_element] raises when the plain click and the
    JavaScript click both fail), of each bounded wait, and the pages the
    code reads. *)
Record World : Type := mkWorld {
  click_button : result unit;
  modal : result Page;
  click_modal_button : result unit;
  place_order_direct : result unit;
  click_place_order_direct : result unit;
  after_direct : Page;
  cart : Page;
  click_proceed : result unit;
  place_order_cart : result unit;
  click_place_order_cart : result unit;
  after_cart : Page
}.

(** [_attempt_direct_checkout]: a timeout of the wait and any other
    exception both give [False]. *)
Definition _attempt_direct_checkout (w : World) : bool * list Action :=
  match place_order_direct w with
  | Raise _ => (false, [])
  | Ok _ =>
      match click_place_order_direct w with
      | Raise _ => (false, [])
      | Ok _ => (_verify_order_success (after_direct w), [ClickPlaceOrder])
      end
  end.

(** [_handle_cart_checkout_flow] *)
Definition _handle_cart_checkout_flow (w : World) : bool * list Action :=
  if negb (_is_in_cart_flow (cart w)) then (false, [])
  else
    match _find_proceed_to_checkout_button (cart w) with
    | None => (false, [])
    | Some proceed_button =>
        match click_proceed w with
        | Raise _ => (false, [])
        | Ok _ =>
            match place_order_cart w with
            | Raise _ => (false, [ClickProceed (handle proceed_button)])
            | Ok _ =>
                match click_place_order_cart w with
                | Raise _ => (false, [ClickProceed (handle proceed_button)])
                | Ok _ =>
                    (_verify_order_success (after_cart w),
                     [ClickProceed (handle proceed_button); ClickPlaceOrder])
                end
            end
        end
    end.

(** [_complete_checkout_process] *)
Definition _complete_checkout_process (w : World) : bool * list Action :=
  let '(placed, direct) := _attempt_direct_checkout w in
  if placed then (true, direct)
  else
    let '(placed, through_cart) := _handle_cart_checkout_flow w in
    (placed, (direct ++ through_cart)%list).

(** [_handle_direct_purchase_flow] *)
Definition _handle_direct_purchase_flow (button : WebElement) (w : World)
    : bool * list Action :=
  match click_button w with
  | Raise _ => (false, [])
  | Ok _ =>
      let '(placed, actions) := _complete_checkout_process w in
      (placed, ClickButton (handle button) :: actions)
  end.

(** [_handle_buying_options_flow] *)
Definition _handle_buying_options_flow (button : WebElement) (w : World)
    : bool * list Action :=
  match click_button w with
  | Raise _ => (false, [])
  | Ok _ =>
      match modal w with
      | Raise _ => (false, [ClickButton (handle button)])
      | Ok offers =>
          match _find_purchase_buttons_in_modal offers with
          | [] => (false, [ClickButton (handle button)])
          | first :: _ =>
              match click_modal_button w with
              | Raise _ => (false, [ClickButton (handle button)])
              | Ok _ =>
                  let '(placed, actions) := _complete_checkout_process w in
                  (placed,
                   ClickButton (handle button)
                     :: ClickModalButton (handle first) :: actions)
              end
          end
      end
  end.

(** [attempt_purchase] with the flows spelled out. *)
Definition attempt_purchase (button : option WebElement)
    (button_type : option string) (w : World) : bool * list Action :=
  match button, button_type with
  | Some button, Some button_type =>
      if String.eqb button_type "" then (false, [])
      else if String.eqb button_type "buying_options"
      then _handle_buying_options_flow button w
      else _handle_direct_purchase_flow button w
  | _, _ => (false, [])
  end.

(** The outcomes of the two flows, as [Checkout.attempt_purchase] takes
    them. *)
Definition flows_of (button : WebElement) (w : World) : Checkout.Flows :=
  Checkout.mkFlows (Ok (fst (_handle_buying_options_flow button w)))
                   (Ok (fst (_handle_direct_purchase_flow button w))).

Fixpoint orders_placed (actions : list Action) : nat :=
  match actions with
  | [] => 0
  | ClickPlaceOrder :: rest => S (orders_placed rest)
  | _ :: rest => orders_placed rest
  end.

End Purchase.

(** ** amazon/auth.py: [AmazonAuth.login] and
       security/password_manager.py: [PasswordManager.decrypt_password] *)

Module Login.
Import Py Text Browser.

(** What a login does to the browser and asks of the user. *)
Inductive Action : Type :=
| Open (url : string)
| ClickLink (h : nat)
| TypeEmail (email : string)
| ClickContinue
| TypePassword (password : SecureString.pystr)
| ClickSignIn
| AskUser (prompt : string).

(** A step: what it returns or raises, and what it did before that. *)
Definition Act (A : Type) : Type := result A * list Action.

Definition and_then {A B} (step : Act A) (next : A -> Act B) : Act B :=
  match step with
  | (Ok a, done) => let '(r, more) := next a in (r, (done ++ more)%list)
  | (Raise e, done) => (Raise e, done)
  end.

(** A browser call that does [action] when it does not raise. *)
Definition doing (call : result unit) (action : Action) : Act unit :=
  match call with
  | Ok _ => (Ok tt, [action])
  | Raise e => (Raise e, [])
  end.

Definition quietly {A} (call : result A) : Act A := (call, []).

Definition ElementNotFoundError (what : string) : exn :=
  OtherError ("ElementNotFoundError: " ++ what).

(** What the browser, the keyring and the user answer during a login. The
    sign-in button is looked for twice, by [fill_password] and by the
    last step of [_enter_credentials]; each look tries the selectors in
    order, and a selector succeeds when its wait and its click both do. *)
Record World : Type := mkWorld {
  home : result Page;
  click_link : result unit;
  open_sign_in_page : result unit;
  email_wait : Locator -> result unit;
  type_email : result unit;
  click_continue : result unit;
  decrypted : result SecureString.pystr;
  password_wait : result unit;
  type_password : result unit;
  sign_in_in_callback : Locator -> result unit;
  sign_in_afterwards : Locator -> result unit;
  security_page : Page;
  account_link : result unit;
  open_account_page : result unit
}.

Definition sign_in_link_selectors : list Locator :=
  [ (ID, "nav-link-accountList");
    (XPATH, "//a[contains(text(), 'Hello, sign in')]");
    (XPATH, "//span[contains(text(), 'Account & Lists')]") ].

(** [_find_element_by_selectors]: a lookup that raises is not caught. *)
Fixpoint _find_element_by_selectors (p : Page) (selectors : list Locator)
    : result (option WebElement) :=
  match selectors with
  | [] => Ok None
  | selector :: rest =>
      let* elements := find_elements p selector in
      match elements with
      | e :: _ => Ok (Some e)
      | [] => _find_element_by_selectors p rest
      end
  end.

(** [_navigate_to_login] *)
Definition _navigate_to_login (w : World) : Act unit :=
  match home w with
  | Raise e => (Raise e, [])
  | Ok p =>
      and_then (quietly (_find_element_by_selectors p sign_in_link_selectors))
        (fun sign_in_element =>
           match sign_in_element with
           | Some e => doing (click_link w) (ClickLink (handle e))
           | None =>
               doing (open_sign_in_page w)
                     (Open "https://www.amazon.com/gp/sign-in.html")
           end)
  end.

Definition quick_selectors : list Locator :=
  [ (ID, "ap_email");
    (CSS_SELECTOR, "input[type='email']");
    (CSS_SELECTOR, "input[type='text']:not([type='hidden'])") ].

Definition comprehensive_selectors : list Locator :=
  [ (NAME, "email");
    (XPATH, "//input[contains(@placeholder, 'email') or contains(@placeholder, 'mobile')]");
    (CSS_SELECTOR, "input[autocomplete*='email']") ].

(** [_try_selectors]: only [TimeoutException] moves on to the next
    selector; the answer is the selector that found the field. *)
Fixpoint _try_selectors (wait : Locator -> result unit)
    (selectors : list Locator) : result (option Locator) :=
  match selectors with
  | [] => Ok None
  | selector :: rest =>
      match wait selector with
      | Ok _ => Ok (Some selector)
      | Raise TimeoutException => _try_selectors wait rest
      | Raise e => Raise e
      end
  end.

(** [_find_email_field] *)
Definition _find_email_field (w : World) : result Locator :=
  let* field := _try_selectors (email_wait w) quick_selectors in
  match field with
  | Some found => Ok found
  | None =>
      let* field := _try_selectors (email_wait w) comprehensive_selectors in
      match field with
      | Some found => Ok found
      | None => Raise (ElementNotFoundError "Email field not found")
      end
  end.

Definition sign_in_selectors : list Locator :=
  [ (ID, "signInSubmit");
    (NAME, "signInSubmit");
    (CSS_SELECTOR, "[type='submit']");
    (XPATH, "//input[@type='submit']");
    (XPATH, "//span[contains(text(), 'Sign-In')]");
    (XPATH, "//input[contains(@value, 'Sign-In')]");
    (XPATH, "//button[contains(text(), 'Sign-In')]") ].

Definition succeeded (r : result unit) : bool :=
  match r with
  | Ok _ => true
  | Raise _ => false
  end.

(** [_click_signin_button]: every exception moves on to the next
    selector; with none left it raises. *)
Definition _click_signin_button (attempt : Locator -> result unit) : Act unit :=
  if existsb (fun selector => succeeded (attempt selector)) sign_in_selectors
  then (Ok tt, [ClickSignIn])
  else (Raise (ElementNotFoundError "Sign-in button not found"), []).

(** The callback [fill_password] of [_enter_credentials]. *)
Definition fill_password (w : World) (password : SecureString.pystr) : Act unit :=
  and_then (quietly (password_wait w)) (fun _ =>
  and_then (doing (type_password w) (TypePassword password)) (fun _ =>
  _click_signin_button (sign_in_in_callback w))).

(** [PasswordManager.decrypt_password] *)
Definition decrypt_password (w : World) : result SecureString.SecureString :=
  let* plain := decrypted w in
  SecureString.__init__ plain.

(** [_enter_credentials]; its handler logs and re-raises. The callback
    hands its own outcome and actions through [use_secret]. *)
Definition _enter_credentials (w : World) (email : string) : Act unit :=
  and_then (quietly (_find_email_field w)) (fun _ =>
  and_then (doing (type_email w) (TypeEmail email)) (fun _ =>
  and_then (doing (click_continue w) ClickContinue) (fun _ =>
  and_then (quietly (decrypt_password w)) (fun secure_password =>
  and_then
    (match SecureString.outcome
             (SecureString.use_secret (fun password => Ok (fill_password w password))
                secure_password) with
     | Ok filled => filled
     | Raise e => (Raise e, [])
     end) (fun _ =>
  _click_signin_button (sign_in_afterwards w)))))).

Definition captcha_indicators : list string :=
  [ "captcha";
    "enter the characters you see below";
    "enter the characters you see above";
    "type the characters you see in this image";
    "bot check";
    "sorry, we just need to make sure you're not a robot";
    "verify your identity";
    "enter the text you see above";
    "unusual activity" ].

(** [_handle_security_checks] *)
Definition _handle_security_checks (w : World) : Act unit :=
  let page_source_lower := lower (page_source (security_page w)) in
  (Ok tt,
   ((if existsb (fun indicator => contains indicator page_source_lower)
                captcha_indicators
     then [AskUser "CAPTCHA detected - solve it in the browser window"]
     else [])
    ++
    (if contains "additional security verification" page_source_lower
        || contains "we need to verify your identity" page_source_lower
     then [AskUser "Security verification required - complete it in the browser"]
     else []))%list).

(** [_verify_login]: only the timeout of the wait gives [False]. *)
Definition _verify_login (w : World) : Act bool :=
  match account_link w with
  | Raise TimeoutException => (Ok false, [])
  | Raise e => (Raise e, [])
  | Ok _ =>
      and_then
        (doing (open_account_page w)
               (Open "https://www.amazon.com/gp/css/homepage.html"))
        (fun _ => (Ok true, []))
  end.

(** [login] *)
Definition login (w : World) (email : string) : bool * list Action :=
  match
    and_then (_navigate_to_login w) (fun _ =>
    and_then (_enter_credentials w email) (fun _ =>
    and_then (_handle_security_checks w) (fun _ =>
    _verify_login w)))
  with
  | (Ok logged_in, actions) => (logged_in, actions)
  | (Raise _, actions) => (false, actions)
  end.

(** The texts sent to the password field, and the clicks on the sign-in
    button. *)
Fixpoint typed_passwords (actions : list Action) : list SecureString.pystr :=
  match actions with
  | [] => []
  | TypePassword password :: rest => password :: typed_passwords rest
  | _ :: rest => typed_passwords rest
  end.

Fixpoint sign_in_clicks (actions : list Action) : nat :=
  match actions with
  | [] => 0
  | ClickSignIn :: rest => S (sign_in_clicks rest)
  | _ :: rest => sign_in_clicks rest
  end.

End Login.

(** ** utils/cookies.py: [CookieManager] *)

Module Cookies.
Import Py.

(** What the loop of [load_cookies] meets when it iterates the loaded
    value: a cookie (a dict, which has [get]) or anything else (a key of
    an object, a character of a string, a number of an array). *)
Record Item : Type := mkItem {
  name : string;
  is_dict : bool
}.

(** What [json.load] makes of the cookie file: it raises
    [JSONDecodeError], or returns a value that can be iterated and
    measured ([Some items]: an array, an object, a string) or cannot
    ([None]: a number, a boolean, null). *)
Inductive Content : Type :=
| Unparsable
| Parsed (items : option (list Item)).

(** The cookie file: absent or present with a content; whether creating
    the directory or opening the file for writing raises; whether opening
    it for reading raises; whether deleting it raises. *)
Record Files : Type := mkFiles {
  file : option Content;
  write_raises : bool;
  read_raises : bool;
  unlink_raises : bool
}.

Definition with_file (f : option Content) (fs : Files) : Files :=
  {| file := f;
     write_raises := write_raises fs;
     read_raises := read_raises fs;
     unlink_raises := unlink_raises fs |}.

(** A cookie of the browser, as [driver.get_cookies()] returns it. *)
Definition cookie (cookie_name : string) : Item :=
  {| name := cookie_name; is_dict := true |}.

(** [save_cookies]: the directory is made, the cookies are read from the
    driver, and only then is the file opened, which empties it. *)
Definition save_cookies (get_cookies : result (list string)) (fs : Files)
    : bool * Files :=
  if write_raises fs then (false, fs)
  else
    match get_cookies with
    | Raise _ => (false, fs)
    | Ok cookies => (true, with_file (Some (Parsed (Some (map cookie cookies)))) fs)
    end.

(** The loop of [load_cookies]: [accepts] tells whether
    [driver.add_cookie] returns; [jar] holds the cookies of the browser.
    The handler of a refused item reads [cookie.get], which raises when
    the item is not a dict. *)
Fixpoint add_all (accepts : Item -> bool) (cookies : list Item)
    (loaded_count : nat) (jar : list Item) : result nat * list Item :=
  match cookies with
  | [] => (Ok loaded_count, jar)
  | item :: rest =>
      if accepts item
      then add_all accepts rest (S loaded_count) (jar ++ [item])%list
      else if is_dict item then add_all accepts rest loaded_count jar
      else (Raise (OtherError "AttributeError: no attribute 'get'"), jar)
  end.

(** [load_cookies] *)
Definition load_cookies (accepts : Item -> bool) (fs : Files) (jar : list Item)
    : bool * list Item :=
  match file fs with
  | None => (false, jar)
  | Some content =>
      if read_raises fs then (false, jar)
      else
        match content with
        | Unparsable => (false, jar)
        | Parsed None => (false, jar)
        | Parsed (Some cookies) =>
            match add_all accepts cookies 0 jar with
            | (Ok loaded_count, jar) => ((0 <? loaded_count)%nat, jar)
            | (Raise _, jar) => (false, jar)
            end
        end
  end.

(** [clear_cookies] *)
Definition clear_cookies (fs : Files) : bool * Files :=
  match file fs with
  | Some _ =>
      if unlink_raises fs then (false, fs) else (true, with_file None fs)
  | None => (true, fs)
  end.

(** [get_cookie_count] *)
Definition get_cookie_count (fs : Files) : nat :=
  match file fs with
  | None => 0
  | Some content =>
      if read_raises fs then 0
      else
        match content with
        | Parsed (Some cookies) => length cookies
        | _ => 0
        end
  end.

(** [has_valid_cookies] *)
Definition has_valid_cookies (fs : Files) : bool :=
  (0 <? get_cookie_count fs)%nat.

End Cookies.

(** ** config/settings.py: [create_config_from_env] and
       main.py: [create_config_from_args] *)

Module Main.
Import Settings.

(** What building a configuration gives: the object, or the exception
    raised. *)
Inductive Outcome : Type :=
| Built (c : Config)
| ConfigurationError (msg : string)
| ValueError.

(** The constructor of the dataclass: the fields, then [__post_init__]. *)
Definition construct (c : Config) : Outcome :=
  match __post_init__ c with
  | None => Built c
  | Some msg => ConfigurationError msg
  end.

(** Python truth value of an optional string. *)
Definition truthy (s : option string) : bool :=
  match s with
  | Some s => negb (String.eqb s "")
  | None => false
  end.

(** [os.getenv(name, default)] *)
Definition getenv (env : gmap string string) (name default : string) : string :=
  match env !! name with
  | Some value => value
  | None => default
  end.

Definition flag (env : gmap string string) (name : string) : bool :=
  String.eqb (Text.lower (getenv env name "false")) "true".

Section FromEnv.

(** [int(text)]: [None] when it raises [ValueError]. *)
Variable parse_int : string -> option Z.

(** [create_config_from_env], on the environment as [load_dotenv] leaves
    it. *)
Definition create_config_from_env (env : gmap string string) : Outcome :=
  if negb (truthy (env !! "AMAZON_EMAIL")) || negb (truthy (env !! "PRODUCT_URL"))
  then ConfigurationError
         "Missing required environment variables. Required: AMAZON_EMAIL, AMAZON_PASSWORD_ENCRYPTED, PRODUCT_URL"
  else
    match parse_int (getenv env "REFRESH_INTERVAL" "60") with
    | None => ValueError
    | Some interval =>
        construct
          {| email := getenv env "AMAZON_EMAIL" "";
             password_encrypted := getenv env "AMAZON_PASSWORD_ENCRYPTED" "";
             product_url := getenv env "PRODUCT_URL" "";
             refresh_interval := interval;
             headless := flag env "HEADLESS";
             cookie_file := getenv env "COOKIE_FILE" "amazon_cookies.json";
             enable_anti_detection := flag env "ENABLE_ANTI_DETECTION";
             randomize_user_agent := flag env "RANDOMIZE_USER_AGENT";
             randomize_window_size := flag env "RANDOMIZE_WINDOW_SIZE";
             random_delays := flag env "RANDOM_DELAYS";
             stealth_mode := flag env "STEALTH_MODE" |}
    end.

(** The namespace [parser.parse_args()] returns. *)
Record Args : Type := mkArgs {
  arg_email : option string;
  arg_password_encrypted : option string;
  arg_url : option string;
  arg_interval : Z;
  arg_headless : bool;
  arg_cookie_file : string;
  arg_enable_anti_detection : bool;
  arg_randomize_user_agent : bool;
  arg_randomize_window_size : bool;
  arg_random_delays : bool;
  arg_stealth_mode : bool
}.

(** [args.x or ""] *)
Definition or_empty (s : option string) : string :=
  match s with
  | Some s => s
  | None => ""
  end.

(** The assignments made after the configuration is built: a field is
    overwritten when the argument is truthy. *)
Definition override (args : Args) (c : Config) : Config :=
  {| email := if truthy (arg_email args) then or_empty (arg_email args) else email c;
     password_encrypted :=
       if truthy (arg_password_encrypted args)
       then or_empty (arg_password_encrypted args) else password_encrypted c;
     product_url :=
       if truthy (arg_url args) then or_empty (arg_url args) else product_url c;
     refresh_interval :=
       if arg_interval args =? 0 then refresh_interval c else arg_interval args;
     headless := if arg_headless args then true else headless c;
     cookie_file :=
       if String.eqb (arg_cookie_file args) "" then cookie_file c
       else arg_cookie_file args;
     enable_anti_detection :=
       if arg_enable_anti_detection args then true else enable_anti_detection c;
     randomize_user_agent :=
       if arg_randomize_user_agent args then true else randomize_user_agent c;
     randomize_window_size :=
       if arg_randomize_window_size args then true else randomize_window_size c;
     random_delays := if arg_random_delays args then true else random_delays c;
     stealth_mode := if arg_stealth_mode args then true else stealth_mode c |}.

(** [create_config_from_args]: the configuration of the environment, or,
    when that raises, one built from the arguments with the defaults of
    the dataclass; then the overrides. *)
Definition create_config_from_args (args : Args) (env : gmap string string)
    : Outcome :=
  let base :=
    match create_config_from_env env with
    | Built c => Built c
    | _ =>
        construct
          {| email := or_empty (arg_email args);
             password_encrypted := or_empty (arg_password_encrypted args);
             product_url := or_empty (arg_url args);
             refresh_interval := 60;
             headless := false;
             cookie_file := "amazon_cookies.json";
             enable_anti_detection := false;
             randomize_user_agent := false;
             randomize_window_size := false;
             random_delays := false;
             stealth_mode := false |}
    end in
  match base with
  | Built c => Built (override args c)
  | failed => failed
  end.

End FromEnv.

(** The arguments of a run started without any option. *)
Definition no_options : Args :=
  {| arg_email := None;
     arg_password_encrypted := None;
     arg_url := None;
     arg_interval := 60;
     arg_headless := false;
     arg_cookie_file := "amazon_cookies.json";
     arg_enable_anti_detection := false;
     arg_randomize_user_agent := false;
     arg_randomize_window_size := false;
     arg_random_delays := false;
     arg_stealth_mode := false |}.

(** A run started with [--interval -5] and no other option. *)
Definition negative_interval : Args :=
  {| arg_email := None;
     arg_password_encrypted := None;
     arg_url := None;
     arg_interval := -5;
     arg_headless := false;
     arg_cookie_file := "amazon_cookies.json";
     arg_enable_anti_detection := false;
     arg_randomize_user_agent := false;
     arg_randomize_window_size := false;
     arg_random_delays := false;
     arg_stealth_mode := false |}.

(** A stand-in for [int] on the texts used below. *)
Definition parse_sample (text : string) : option Z :=
  if String.eqb text "60" then Some 60
  else if String.eqb text "300" then Some 300
  else None.

(** An environment that asks for a check every 300 seconds. *)
Definition sample_env : gmap string string :=
  <["AMAZON_EMAIL" := "test@example.com"]>
  (<["AMAZON_PASSWORD_ENCRYPTED" := "Z0FBQUFBQm5fdGVzdF9wYXNzd29yZA=="]>
  (<["PRODUCT_URL" := "https://www.amazon.com/dp/B123456789"]>
  (<["REFRESH_INTERVAL" := "300"]> ∅))).

End Main.

(** ** Further concrete inputs *)

Module Inputs.

(** The configuration of the test suite. *)
Definition test_config : Settings.Config :=
  {| Settings.email := "test@example.com";
     Settings.password_encrypted := "Z0FBQUFBQm5fdGVzdF9wYXNzd29yZA==";
     Settings.product_url := "https://www.amazon.com/dp/B123456789";
     Settings.refresh_interval := 60;
     Settings.headless := true;
     Settings.cookie_file := "test_cookies.json";
     Settings.enable_anti_detection := false;
     Settings.randomize_user_agent := false;
     Settings.randomize_window_size := false;
     Settings.random_delays := false;
     Settings.stealth_mode := false |}.

(** An iteration in which the product is on sale and the direct purchase
    flow succeeds. *)
Definition purchase_tick : Monitor.Tick :=
  {| Monitor.interval_entropy := 3%N;
     Monitor.session_entropy := 5%N;
     Monitor.browsing_entropy := 0%N;
     Monitor.session_page := Py.Raise Py.TimeoutException;
     Monitor.login_result := false;
     Monitor.first_probe := Py.Ok Examples.restocked_page;
     Monitor.second_probe := Py.Ok Examples.restocked_page;
     Monitor.flows := Checkout.mkFlows (Py.Ok false) (Py.Ok true);
     Monitor.stop_called := false |}.

(** An iteration in which the session check is due, the home page does
    not load and the login fails. *)
Definition failed_relogin_tick : Monitor.Tick :=
  {| Monitor.interval_entropy := 0%N;
     Monitor.session_entropy := 0%N;
     Monitor.browsing_entropy := 0%N;
     Monitor.session_page := Py.Raise Py.TimeoutException;
     Monitor.login_result := false;
     Monitor.first_probe := Py.Raise Py.TimeoutException;
     Monitor.second_probe := Py.Raise Py.TimeoutException;
     Monitor.flows := Checkout.mkFlows (Py.Ok false) (Py.Ok false);
     Monitor.stop_called := false |}.

(** A product page sold by other sellers only: the direct lookup of the
    pre-order button raises, and the buying-options button is there. *)
Definition buying_options_page : Browser.Page :=
  {| Browser.current_url := "https://www.amazon.com/dp/B123456789";
     Browser.page_source := "<html>See All Buying Options</html>";
     Browser.find_elements := fun loc =>
       match loc with
       | (Browser.ID, s) =>
           if String.eqb s "preorder-button" then Py.Raise Py.WebDriverException
           else if String.eqb s "buybox-see-all-buying-choices"
           then Py.Ok [Browser.mkElement 11 (Py.Ok "See All Buying Options")]
           else Py.Ok []
       | _ => Py.Ok []
       end |}.

(** A purchase in which every click and wait succeeds, the page shown
    after the direct checkout carries none of the success signals, and the
    cart page and the page after the checkout through the cart do. *)
Definition unrecognised_confirmation : Purchase.World :=
  {| Purchase.click_button := Py.Ok tt;
     Purchase.modal := Py.Raise Py.TimeoutException;
     Purchase.click_modal_button := Py.Ok tt;
     Purchase.place_order_direct := Py.Ok tt;
     Purchase.click_place_order_direct := Py.Ok tt;
     Purchase.after_direct :=
       Examples.page_with "https://www.amazon.com/gp/buy/spc/handlers/display.html"
         "<html>Processing...</html>" Browser.ID "none" [];
     Purchase.cart :=
       Examples.page_with "https://www.amazon.com/gp/cart/view.html"
         "<html>Shopping Cart</html>" Browser.ID "sc-buy-box-ptc-button"
         [Browser.mkElement 21 (Py.Ok "Proceed to checkout")];
     Purchase.click_proceed := Py.Ok tt;
     Purchase.place_order_cart := Py.Ok tt;
     Purchase.click_place_order_cart := Py.Ok tt;
     Purchase.after_cart :=
       Examples.page_with "https://www.amazon.com/gp/buy/thankyou"
         "<html>Thank you, your order has been placed</html>"
         Browser.ID "none" [] |}.

(** A login in which the browser answers every call, the sign-in link is
    on the home page and the password is "pw". *)
Definition smooth_login : Login.World :=
  {| Login.home := Py.Ok Examples.signed_in_page;
     Login.click_link := Py.Ok tt;
     Login.open_sign_in_page := Py.Ok tt;
     Login.email_wait := fun _ => Py.Ok tt;
     Login.type_email := Py.Ok tt;
     Login.click_continue := Py.Ok tt;
     Login.decrypted := Py.Ok [112%N; 119%N];
     Login.password_wait := Py.Ok tt;
     Login.type_password := Py.Ok tt;
     Login.sign_in_in_callback := fun _ => Py.Ok tt;
     Login.sign_in_afterwards := fun _ => Py.Ok tt;
     Login.security_page := Examples.signed_in_page;
     Login.account_link := Py.Ok tt;
     Login.open_account_page := Py.Ok tt |}.

(** A machine on which no cookie file was saved yet. *)
Definition no_cookie_file : Cookies.Files :=
  {| Cookies.file := None;
     Cookies.write_raises := false;
     Cookies.read_raises := false;
     Cookies.unlink_raises := false |}.

End Inputs.

(** * Theorems *)

Import Py Scheduler.

(** ** The cadence scheduler *)

Lemma randint_range (a b : Z) (raw : N) :
  a <= b -> a <= randint a b raw <= b.
Proof.
  intros Hab. unfold randint.
  assert (0 <= Z.of_N raw mod (b - a + 1) < b - a + 1)
    by (apply Z.mod_pos_bound; lia).
  lia.
Qed.

(** Every value of the range is drawn for some entropy value. *)
Lemma randint_onto (a b d : Z) :
  a <= d <= b -> exists raw, randint a b raw = d.
Proof.
  intros Hd. exists (Z.to_N (d - a)). unfold randint.
  rewrite Z2N.id by lia. rewrite Z.mod_small by lia. lia.
Qed.

(** The threshold is drawn on every call: four draws of 10 do not delay a
    firing at the fifth call, whose draw is 5. *)
Example threshold_is_drawn_on_every_call :
  map (randint 5 10) [5%N; 5%N; 5%N; 5%N; 0%N] = [10; 10; 10; 10; 5] /\
  map fst (session_trace [5%N; 5%N; 5%N; 5%N; 0%N] init_monitor)
    = [false; false; false; false; true].
Proof. split; reflexivity. Qed.

(** C9. [_calculate_interval] returns the base interval unchanged when it is
    at most 20, and otherwise the base plus a draw of [-10..10] (every
    offset of that range occurs); so base 15 always gives 15 and base 60
    always gives a value of [50..70]. *)
Theorem calculate_interval_jitter :
  forall (base : Z) (raw : N),
    (base <= 20 -> _calculate_interval base raw = base) /\
    (20 < base ->
       _calculate_interval base raw = base + randint (-10) 10 raw /\
       -10 <= randint (-10) 10 raw <= 10) /\
    (forall d, -10 <= d <= 10 ->
       exists raw', _calculate_interval 60 raw' = 60 + d) /\
    _calculate_interval 15 raw = 15 /\
    50 <= _calculate_interval 60 raw <= 70.
Proof.
  intros base raw.
  pose proof (randint_range (-10) 10 raw ltac:(lia)) as Hr.
  repeat split.
  - intros Hb. unfold _calculate_interval.
    destruct (Z.ltb_spec 20 base); [lia | reflexivity].
  - unfold _calculate_interval.
    destruct (Z.ltb_spec 20 base); [reflexivity | lia].
  - lia.
  - lia.
  - intros d Hd. destruct (randint_onto (-10) 10 d Hd) as [raw' Hraw'].
    exists raw'. unfold _calculate_interval. simpl (20 <? 60).
    cbv iota. now rewrite Hraw'.
  - unfold _calculate_interval. change (20 <? 60) with true. cbv iota. lia.
  - unfold _calculate_interval. change (20 <? 60) with true. cbv iota. lia.
Qed.

(** One call of [_should_check_session] from a counter of [0..9]: it fires
    only when the incremented counter is in [5..10], and leaves a counter
    of [0..9]. *)
Lemma should_check_session_step (raw : N) (m : Monitor) :
  0 <= session_check_counter m <= 9 ->
  (fst (_should_check_session raw m) = true /\
   5 <= session_check_counter m + 1 <= 10 /\
   session_check_counter (snd (_should_check_session raw m)) = 0) \/
  (fst (_should_check_session raw m) = false /\
   session_check_counter (snd (_should_check_session raw m))
     = session_check_counter m + 1 /\
   session_check_counter m + 1 <= 9).
Proof.
  intros Hc. unfold _should_check_session. cbn [session_check_counter set_session_check_counter].
  pose proof (randint_range 5 10 raw ltac:(lia)) as Hr.
  destruct (Z.leb_spec (randint 5 10 raw) (session_check_counter m + 1)); cbn.
  - left. lia.
  - right. lia.
Qed.

Lemma session_trace_invariant (raws : list N) :
  forall m : Monitor,
    0 <= session_check_counter m <= 9 ->
    Forall (fun g => 5 <= g <= 10)
           (periods (session_check_counter m) (map fst (session_trace raws m))) /\
    Forall (fun r => 0 <= session_check_counter (snd r) <= 9)
           (session_trace raws m).
Proof.
  induction raws as [|raw rest IH]; intros m Hc; cbn [session_trace map periods].
  - split; constructor.
  - destruct (should_check_session_step raw m Hc) as [(Hf & Hp & H0) | (Hf & Hs & Hb)].
    + destruct (IH (snd (_should_check_session raw m)) ltac:(lia)) as [IH1 IH2].
      rewrite Hf. cbn [periods]. rewrite H0 in IH1. split.
      * constructor; [lia | exact IH1].
      * constructor; [lia | exact IH2].
    + destruct (IH (snd (_should_check_session raw m)) ltac:(lia)) as [IH1 IH2].
      rewrite Hf. cbn [periods]. rewrite Hs in IH1. split.
      * exact IH1.
      * constructor; [lia | exact IH2].
Qed.

Lemma session_trace_fires (raws : list N) :
  forall m : Monitor,
    0 <= session_check_counter m <= 9 ->
    10 - session_check_counter m <= Z.of_nat (length raws) ->
    exists n : nat,
      5 <= session_check_counter m + Z.of_nat n <= 10 /\ (1 <= n)%nat /\
      map fst (firstn n (session_trace raws m)) = (repeat false (n - 1) ++ [true])%list.
Proof.
  induction raws as [|raw rest IH]; intros m Hc Hlen.
  - cbn in Hlen. lia.
  - cbn [session_trace].
    destruct (should_check_session_step raw m Hc) as [(Hf & Hp & H0) | (Hf & Hs & Hb)].
    + exists 1%nat. repeat split; try lia. cbn. now rewrite Hf.
    + destruct (IH (snd (_should_check_session raw m))) as (n & Hn & Hn1 & Heq).
      * lia.
      * cbn [length] in Hlen. lia.
      * exists (S n). repeat split; try lia.
        cbn [firstn map]. rewrite Hf, Heq.
        replace (S n - 1)%nat with (S (n - 1)) by lia. reflexivity.
Qed.

(** C8. Starting from a counter of 0 (a fresh monitor, or the state left by
    a firing), and for every sequence of draws: each firing resets the
    counter to 0, every run of calls that ends with a firing has a length of
    [5..10], the counter left by a call is in [0..9] (so the incremented
    counter never exceeds 10), and given ten draws the first firing comes
    at call number [n] for some [n] of [5..10], after [n - 1] calls that do
    not fire. *)
Theorem should_check_session_period :
  forall (raws : list N) (m : Monitor),
    session_check_counter m = 0 ->
    let tr := session_trace raws m in
    Forall (fun r : bool * Monitor => if fst r then session_check_counter (snd r) = 0
                     else 1 <= session_check_counter (snd r) <= 9) tr /\
    Forall (fun g => 5 <= g <= 10) (periods 0 (map fst tr)) /\
    ((10 <= length raws)%nat ->
     exists n : nat,
       (5 <= n <= 10)%nat /\
       map fst (firstn n tr) = (repeat false (n - 1) ++ [true])%list).
Proof.
  intros raws m H0 tr. subst tr. repeat split.
  - assert (Hc : 0 <= session_check_counter m <= 9) by lia. clear H0.
    revert m Hc. induction raws as [|raw rest IH]; intros m Hc; cbn [session_trace].
    + constructor.
    + destruct (should_check_session_step raw m Hc) as [(Hf & Hp & Hz) | (Hf & Hs & Hb)].
      * constructor; [rewrite Hf; exact Hz | apply IH; lia].
      * constructor; [rewrite Hf; lia | apply IH; lia].
  - rewrite <- H0. apply session_trace_invariant. lia.
  - intros Hlen.
    destruct (session_trace_fires raws m ltac:(lia) ltac:(lia)) as (n & Hn & Hn1 & Heq).
    exists n. split; [lia | exact Heq].
Qed.

Lemma should_check_session_period_witness :
  let raws := [9%N; 9%N; 9%N; 9%N; 9%N; 1%N; 0%N; 0%N; 0%N; 0%N; 0%N] in
  map fst (session_trace raws init_monitor)
    = [false; false; false; false; false; true; false; false; false; false; true] /\
  Forall (fun g => 5 <= g <= 10)
         (periods 0 (map fst (session_trace raws init_monitor))).
Proof.
  split; [reflexivity |].
  exact (proj1 (proj2 (should_check_session_period
    [9%N; 9%N; 9%N; 9%N; 9%N; 1%N; 0%N; 0%N; 0%N; 0%N; 0%N] init_monitor eq_refl))).
Defined.

(** C7 as stated fails for [check_count]: with [check_count = 7] and a draw
    of 8 the filler trigger fires and the counter is left at 8, not 0. *)
Lemma random_browsing_fires_without_reset :
  randint 8 12 0%N = 8 /\
  _should_do_random_browsing 0%N (mkMonitor true 0 7) = (true, mkMonitor true 0 8) /\
  check_count (snd (_should_do_random_browsing 0%N (mkMonitor true 0 7))) <> 0.
Proof. repeat split. cbn. discriminate. Qed.

(** C7 (amended). [session_check_counter] is set to 0 when
    [_should_check_session] fires and is incremented by exactly 1 when it
    does not; [check_count] is incremented by exactly 1 on every call of
    [_should_do_random_browsing], whether or not the trigger fires, and is
    never reset or decreased; neither function touches the other counter. *)
Theorem loop_counters_update :
  forall (raw : N) (m : Monitor),
    (fst (_should_check_session raw m) = true ->
       session_check_counter (snd (_should_check_session raw m)) = 0) /\
    (fst (_should_check_session raw m) = false ->
       session_check_counter (snd (_should_check_session raw m))
         = session_check_counter m + 1) /\
    check_count (snd (_should_check_session raw m)) = check_count m /\
    check_count (snd (_should_do_random_browsing raw m)) = check_count m + 1 /\
    session_check_counter (snd (_should_do_random_browsing raw m))
      = session_check_counter m.
Proof.
  intros raw m. unfold _should_check_session, _should_do_random_browsing.
  cbn [session_check_counter set_session_check_counter set_check_count check_count].
  destruct (randint 5 10 raw <=? session_check_counter m + 1); cbn;
    repeat split; intros; try reflexivity; try discriminate.
Qed.

(** ** The session classifier *)

Import Text Browser.

Example text_operations :
  lower "Type the CAPTCHA" = "type the captcha" /\
  contains "captcha" "type the captcha" = true /\
  contains "captcha" "capt cha" = false /\
  contains "" "" = true /\
  strip "  Hello, John  " = "Hello, John" /\
  count_words false "Hello,  John" = 2 /\
  count_words false "Returns" = 1.
Proof. repeat split. Qed.

(** Scenario A of the specification: a page that shows "Hello, John" and
    no sign-in text is a valid session for the full check. *)
Example full_check_accepts_greeting :
  Auth.is_session_valid
    (Ok (Examples.page_with "https://www.amazon.com/" "<html>Hello, John</html>"
           XPATH "//span[contains(text(), 'Hello,')]" [mkElement 1 (Ok "Hello, John")]))
  = true /\
  Auth.is_session_valid (Raise TimeoutException) = false.
Proof. split; reflexivity. Qed.

Lemma existsb_intro {A} (f : A -> bool) (l : list A) (x : A) :
  In x l -> f x = true -> existsb f l = true.
Proof. intros Hin Hf. apply existsb_exists. exists x. split; assumption. Qed.

(** C4 as stated fails for [is_session_valid]: the robot-check page
    carries one of the quick check's blocking signals, the quick check
    rejects it, and the full check accepts it on the account greeting. *)
Lemma full_check_accepts_robot_check_page :
  In "robot_check" Session.bot_detection_indicators /\
  contains "robot_check" (lower (page_source Examples.robot_check_page)) = true /\
  fst (Session._quick_session_check (Session.visit (Ok Examples.robot_check_page))
         (mkDriver 30)) = Ok false /\
  Auth.is_session_valid (Ok Examples.robot_check_page) = true.
Proof. repeat split; try reflexivity. cbn. tauto. Qed.

(** C4 (amended). The quick check, whatever names its module binds,
    returns [False] on every page whose lower-cased source or URL contains
    one of its seven indicators (its answer is [False] on such a page, and
    only an exception of the call that restores the timeout can take the
    place of the answer); the full check returns [False] on every
    page whose lower-cased source contains "captcha" or "unusual traffic",
    the only two signals it tests; both hold whatever elements the page
    shows. *)
Theorem blocking_signals_invalidate :
  forall (names : list string) (p : Page) (d : Driver) (v : Session.Visit),
    (Session.load v = Ok p ->
     (exists indicator,
        In indicator Session.bot_detection_indicators /\
        (contains indicator (lower (page_source p)) = true \/
         contains indicator (lower (current_url p)) = true)) ->
     fst (Session.quick_session_check_in names v d)
       = match Session.restore v with
         | Ok _ => Ok false
         | Raise e => Raise e
         end /\
     fst (Session._quick_session_check v d)
       = match Session.restore v with
         | Ok _ => Ok false
         | Raise e => Raise e
         end) /\
    (contains "captcha" (lower (page_source p)) = true \/
     contains "unusual traffic" (lower (page_source p)) = true ->
     Auth.is_session_valid (Ok p) = false).
Proof.
  intros names p d v. split.
  - intros Hload (indicator & Hin & Hhit).
    assert (Hex : existsb (fun indicator =>
                     contains indicator (lower (page_source p))
                     || contains indicator (lower (current_url p)))
                   Session.bot_detection_indicators = true).
    { apply (existsb_intro _ _ indicator Hin).
      destruct Hhit as [-> | ->]; [reflexivity | apply orb_true_r]. }
    unfold Session._quick_session_check, Session.quick_session_check_in.
    rewrite Hload. cbn [bind try_except]. rewrite Hex. cbn [try_except].
    destruct (Session.shorten v), (Session.restore v); split; reflexivity.
  - intros Hhit. unfold Auth.is_session_valid. cbn [bind try_except].
    destruct Hhit as [-> | ->]; [reflexivity |].
    destruct (contains "captcha" (lower (page_source p))); reflexivity.
Qed.

Lemma blocking_signals_invalidate_witness :
  fst (Session._quick_session_check (Session.visit (Ok Examples.captcha_page))
         (mkDriver 30)) = Ok false /\
  Auth.is_session_valid (Ok Examples.captcha_page) = false.
Proof.
  pose proof (blocking_signals_invalidate Session.monitor_module_names
                Examples.captcha_page (mkDriver 30)
                (Session.visit (Ok Examples.captcha_page))) as [Hquick Hfull].
  split.
  - apply Hquick; [reflexivity |].
    exists "captcha". split; [cbn; tauto | left; reflexivity].
  - apply Hfull. left. reflexivity.
Defined.

Lemma By_is_unbound_in_monitor :
  Session.resolve Session.monitor_module_names "By" = Raise (NameError "By").
Proof. reflexivity. Qed.

(** With [By] bound in the module, the same code accepts the home page of
    a signed-in account: the rejection below is owed to the missing name
    alone. *)
Example quick_check_accepts_when_By_is_bound :
  fst (Session.quick_session_check_in ("By" :: Session.monitor_module_names)
         (Session.visit (Ok Examples.signed_in_page)) (mkDriver 30)) = Ok true /\
  fst (Session._quick_session_check (Session.visit (Ok Examples.signed_in_page))
         (mkDriver 30)) = Ok false.
Proof. split; reflexivity. Qed.

(** The quick check gives no positive answer: [By] is not bound, so its
    answer is [False], which stands when the call of the [finally] clause
    returns and is replaced by that call's exception when it raises. *)
Lemma quick_session_check_outcome (v : Session.Visit) (d : Driver) :
  fst (Session._quick_session_check v d)
  = match Session.restore v with
    | Ok _ => Ok false
    | Raise e => Raise e
    end /\
  (forall u, Session.restore v = Ok u ->
             page_load_timeout (snd (Session._quick_session_check v d)) = 30).
Proof.
  unfold Session._quick_session_check, Session.quick_session_check_in.
  assert (Hanswer : forall load,
             try_except
               (let* p := load in
                let current_url := lower (current_url p) in
                let page_source_lower := lower (page_source p) in
                if existsb (fun indicator => contains indicator page_source_lower
                                             || contains indicator current_url)
                           Session.bot_detection_indicators
                then Ok false
                else if existsb (fun indicator => contains indicator page_source_lower)
                                Session.sign_in_prompts
                then Ok false
                else
                  match Session.positive_login_branch Session.monitor_module_names p with
                  | Ok true => Ok true
                  | Ok false => Ok false
                  | Raise _ => Ok false
                  end)
               (fun _ => false) = false).
  { intros [p | e]; cbn [bind try_except]; [| reflexivity].
    unfold Session.positive_login_branch. rewrite By_is_unbound_in_monitor.
    cbn [bind].
    destruct (existsb _ Session.bot_detection_indicators); [reflexivity |].
    destruct (existsb _ Session.sign_in_prompts); reflexivity. }
  rewrite Hanswer.
  destruct (Session.shorten v), (Session.restore v); split; try reflexivity;
    intros u' Hu; discriminate Hu.
Qed.

(** C5 as stated fails: when the browser session is lost during the quick
    check, the call of the [finally] clause raises, the check returns
    nothing, and [_initialize_session] returns [False] from its handler
    without calling [login], which would have succeeded. *)
Lemma lost_session_skips_login :
  fst (Session._quick_session_check Examples.lost_session_visit (mkDriver 30))
    = Raise WebDriverException /\
  Monitor._initialize_session Examples.lost_session_visit true (mkDriver 30)
    = (false, mkDriver 15,
       [Monitor.Log ERROR "Session initialization failed: {e}"]).
Proof. split; reflexivity. Qed.

(** C5 (amended). [By] is not bound in core/monitor.py, so the
    positive-login branch of [_quick_session_check] raises [NameError] on
    every page, the handler swallows it, and no path of the check returns
    [True]: whether the page loads or not, the check returns [False] when
    the call of its [finally] clause returns (the timeout is then 30), and
    leaves with that call's exception when it raises. Consequently
    [_initialize_session] never takes an existing session as valid: when
    the check returns it calls [login] and returns what [login] returns;
    when the check raises it returns [False] and calls no [login]. *)
Theorem quick_session_check_never_valid :
  forall (v : Session.Visit) (d : Driver) (login_result : bool),
    (forall p, Session.positive_login_branch Session.monitor_module_names p
               = Raise (NameError "By")) /\
    fst (Session._quick_session_check v d) <> Ok true /\
    ~ In (Monitor.QuickSessionCheck true)
         (snd (Monitor._initialize_session v login_result d)) /\
    (forall u, Session.restore v = Ok u ->
       Session._quick_session_check v d = (Ok false, mkDriver 30) /\
       fst (fst (Monitor._initialize_session v login_result d)) = login_result /\
       In (Monitor.Login login_result)
          (snd (Monitor._initialize_session v login_result d))) /\
    (forall e, Session.restore v = Raise e ->
       fst (Session._quick_session_check v d) = Raise e /\
       fst (fst (Monitor._initialize_session v login_result d)) = false /\
       forall success,
         ~ In (Monitor.Login success)
              (snd (Monitor._initialize_session v login_result d))).
Proof.
  intros v d login_result.
  assert (Hbranch : forall p,
             Session.positive_login_branch Session.monitor_module_names p
             = Raise (NameError "By")).
  { intros p. unfold Session.positive_login_branch.
    rewrite By_is_unbound_in_monitor. reflexivity. }
  pose proof (quick_session_check_outcome v d) as [Hquick Htimeout].
  split; [exact Hbranch |]. split; [| split; [| split]].
  - rewrite Hquick. destruct (Session.restore v); discriminate.
  - unfold Monitor._initialize_session.
    destruct (Session._quick_session_check v d) as [[[] | e] d'];
      cbn [fst snd] in *.
    + destruct (Session.restore v); discriminate Hquick.
    + cbn. intros [H | [H | [H | [H | []]]]]; try discriminate H.
      destruct login_result; discriminate H.
    + cbn. intros [H | []]. discriminate H.
  - intros u Hu. specialize (Htimeout u Hu). rewrite Hu in Hquick.
    unfold Monitor._initialize_session.
    destruct (Session._quick_session_check v d) as [answer [timeout]].
    cbn [fst snd page_load_timeout] in *. subst answer timeout.
    repeat split. cbn. tauto.
  - intros e He. rewrite He in Hquick.
    unfold Monitor._initialize_session.
    destruct (Session._quick_session_check v d) as [answer d'].
    cbn [fst] in Hquick. subst answer. cbn [fst snd].
    repeat split. intros success [H | []]. discriminate H.
Qed.

(** ** The availability classifier *)

Lemma first_match_finds (p : Page) (selectors : list Locator) :
  (exists selector, In selector selectors /\ matches p selector) ->
  exists before selector after e rest,
    selectors = (before ++ selector :: after)%list /\
    Forall (fun s => ~ matches p s) before /\
    find_elements p selector = Ok (e :: rest) /\
    Product.first_match p selectors = Some e.
Proof.
  induction selectors as [|s ss IH]; intros (selector & Hin & Hm).
  - destruct Hin.
  - cbn [Product.first_match].
    destruct (find_elements p s) as [[|e rest] | err] eqn:Hs.
    + destruct Hin as [-> | Hin].
      { destruct Hm as (e & rest & He). congruence. }
      destruct IH as (before & s0 & after & e & rest & -> & Hb & Hf & Hfm);
        [exists selector; auto |].
      exists (s :: before), s0, after, e, rest. repeat split; auto.
      constructor; [| exact Hb]. intros (e' & rest' & He'). congruence.
    + exists [], s, ss, e, rest. repeat split; auto.
    + destruct Hin as [-> | Hin].
      { destruct Hm as (e & rest & He). congruence. }
      destruct IH as (before & s0 & after & e & rest & -> & Hb & Hf & Hfm);
        [exists selector; auto |].
      exists (s :: before), s0, after, e, rest. repeat split; auto.
      constructor; [| exact Hb]. intros (e' & rest' & He'). congruence.
Qed.

(** C6. On every page where some direct-purchase selector matches and an
    unavailability phrase is present, [check_availability] answers
    [(True, e, "direct")], where [e] is the first element of the first
    direct selector, in list order, that matches: the phrases are not
    consulted. *)
Theorem direct_purchase_outranks_unavailable :
  forall (p : Page),
    (exists selector, In selector Product.direct_selectors /\ matches p selector) ->
    Product._check_unavailability_messages p = true ->
    exists before selector after e rest,
      Product.direct_selectors = (before ++ selector :: after)%list /\
      Forall (fun s => ~ matches p s) before /\
      find_elements p selector = Ok (e :: rest) /\
      Product.check_availability (Ok p) = (true, Some e, Some "direct").
Proof.
  intros p Hdirect _.
  destruct (first_match_finds p Product.direct_selectors Hdirect)
    as (before & selector & after & e & rest & Hsplit & Hb & Hf & Hfm).
  exists before, selector, after, e, rest. repeat split; auto.
  unfold Product.check_availability, Product._check_direct_preorder_buttons.
  cbn [bind try_except]. rewrite Hfm. reflexivity.
Qed.

Lemma direct_purchase_outranks_unavailable_witness :
  Product._check_unavailability_messages Examples.restocked_page = true /\
  exists before selector after e rest,
    Product.direct_selectors = (before ++ selector :: after)%list /\
    Forall (fun s => ~ matches Examples.restocked_page s) before /\
    find_elements Examples.restocked_page selector = Ok (e :: rest) /\
    Product.check_availability (Ok Examples.restocked_page)
      = (true, Some e, Some "direct").
Proof.
  split; [reflexivity |].
  apply (direct_purchase_outranks_unavailable Examples.restocked_page).
  - exists (ID, "buy-now-button"). split; [cbn; tauto |].
    exists (mkElement 7 (Ok "Buy Now")), [mkElement 8 (Ok "Buy Now")]. reflexivity.
  - reflexivity.
Defined.

(** ** The monitoring loop *)

Import Monitor.

(** C2 as stated fails: with the session check due and the home page not
    loading, [is_session_valid] answers [False], [login] is called, and
    since it succeeds the iteration goes on to the availability probe and
    the loop continues. *)
Lemma periodic_check_invalid_relogin_continues :
  fst (_should_check_session (session_entropy Examples.relogin_tick)
         (mkMonitor true 9 0)) = true /\
  Auth.is_session_valid (session_page Examples.relogin_tick) = false /\
  loop_body 60 Examples.relogin_tick (mkMonitor true 9 0)
    = (Next, mkMonitor true 0 1,
       [ Log INFO "Performing session validity check...";
         SessionValidityCheck false;
         Log WARNING "Session invalid, attempting to re-establish...";
         Login true;
         AvailabilityProbe false;
         Log INFO "Item not available, checking again in {interval} seconds...";
         Sleep 50 ]).
Proof. repeat split. Qed.

(** C2 (amended). When the periodic session check is due and
    [is_session_valid] answers [False], the iteration calls [login]; the
    loop returns [False] exactly when that login fails, and after a
    successful login the iteration goes on to the availability probe. *)
Theorem periodic_check_invalid_triggers_login :
  forall (refresh_interval : Z) (t : Tick) (rest : list Tick) (m : Monitor),
    fst (_should_check_session (session_entropy t) m) = true ->
    Auth.is_session_valid (session_page t) = false ->
    In (Login (login_result t)) (snd (loop_body refresh_interval t m)) /\
    (login_result t = false ->
       fst (fst (loop_body refresh_interval t m)) = Return false /\
       (is_running m = true ->
        fst (fst (monitoring_while refresh_interval (t :: rest) m))
          = Some (Ok false))) /\
    (login_result t = true ->
       fst (fst (loop_body refresh_interval t m)) <> Return false /\
       exists available,
         In (AvailabilityProbe available) (snd (loop_body refresh_interval t m))).
Proof.
  intros refresh_interval t rest m Hdue Hinvalid.
  assert (Hbody : forall ri, loop_body ri t m =
    let m1 := snd (_should_check_session (session_entropy t) m) in
    let ev := [ Log INFO "Performing session validity check...";
                SessionValidityCheck false;
                Log WARNING "Session invalid, attempting to re-establish...";
                Login (login_result t) ] in
    if negb (login_result t)
    then (Return false, m1,
          (ev ++ [Log ERROR "Session check failed, stopping monitor"])%list)
    else
      let '(browse, m2) := _should_do_random_browsing (browsing_entropy t) m1 in
      let ev_browse := if browse then [RandomBrowsing] else [] in
      let '(available, ev_probe) := _check_availability (first_probe t) in
      let before := (ev ++ ev_browse ++ ev_probe)%list in
      let interval := _calculate_interval ri (interval_entropy t) in
      if available
      then
        let '(purchased, ev_purchase) := _attempt_purchase (second_probe t) (flows t) in
        if purchased
        then (Return true, m2,
              (before ++ ev_purchase ++ [Log INFO "Successfully purchased item!"])%list)
        else
          wait_for_next interval t m2
            (before ++ ev_purchase
             ++ [Log WARNING "Purchase attempt failed, continuing monitoring..."])%list
      else wait_for_next interval t m2 before).
  { intros ri. unfold loop_body, _handle_session_check.
    destruct (_should_check_session (session_entropy t) m) as [check m1].
    cbn [fst snd] in *. subst check. rewrite Hinvalid. reflexivity. }
  split; [| split].
  - rewrite Hbody. cbv zeta.
    destruct (login_result t); cbn [negb].
    + destruct (_should_do_random_browsing _ _) as [browse m2].
      unfold _check_availability.
      destruct (Product.check_availability (first_probe t)) as [[available button] ty].
      destruct available.
      * unfold _attempt_purchase.
        destruct (Product.check_availability (second_probe t)) as [[av2 b2] ty2].
        destruct av2; [destruct (Checkout.attempt_purchase _ _ _) |];
          cbn; tauto.
      * cbn; tauto.
    + cbn; tauto.
  - intros Hfail. split.
    + rewrite Hbody, Hfail. reflexivity.
    + intros Hrun. cbn [monitoring_while]. rewrite Hrun, Hbody, Hfail. reflexivity.
  - intros Hok. split.
    + intros Hret. rewrite Hbody, Hok in Hret. cbv zeta in Hret. cbn [negb] in Hret.
      destruct (_should_do_random_browsing _ _) as [browse m2].
      destruct (_check_availability (first_probe t)) as [available ev_probe].
      unfold wait_for_next in Hret.
      destruct available; [| destruct (sleep _); discriminate].
      destruct (_attempt_purchase _ _) as [purchased ev_purchase].
      destruct purchased; [| destruct (sleep _)]; discriminate.
    + rewrite Hbody, Hok. cbv zeta. cbn [negb].
      destruct (_should_do_random_browsing _ _) as [browse m2].
      unfold _check_availability.
      destruct (Product.check_availability (first_probe t)) as [[available button] ty].
      exists available. destruct available.
      * unfold _attempt_purchase.
        destruct (Product.check_availability (second_probe t)) as [[av2 b2] ty2].
        destruct av2; [destruct (Checkout.attempt_purchase _ _ _) |];
          destruct browse; cbn; tauto.
      * destruct browse; cbn; tauto.
Qed.

Lemma periodic_check_invalid_triggers_login_witness :
  In (Login true) (snd (loop_body 60 Examples.relogin_tick (mkMonitor true 9 0))).
Proof.
  exact (proj1 (periodic_check_invalid_triggers_login 60 Examples.relogin_tick []
                  (mkMonitor true 9 0) eq_refl eq_refl)).
Defined.

(** A purchase flow that raises, [CheckoutError] included, makes the
    attempt report failure: [attempt_purchase] catches every exception. *)
Lemma raising_flow_fails_attempt (arrival : result Page) (e1 e2 : exn) :
  fst (_attempt_purchase arrival (Checkout.mkFlows (Raise e1) (Raise e2))) = false.
Proof.
  unfold _attempt_purchase.
  destruct (Product.check_availability arrival) as [[available button] ty].
  destruct available; [| reflexivity].
  unfold Checkout.attempt_purchase.
  destruct button; [| reflexivity]. destruct ty as [ty |]; [| reflexivity].
  destruct (String.eqb ty ""); [reflexivity |].
  destruct (String.eqb ty "buying_options"); reflexivity.
Qed.

(** [time.sleep] returns exactly for the lengths from 0 to [sleep_max]. *)
Lemma sleep_returns (seconds : Z) :
  sleep seconds = Ok tt <-> 0 <= seconds <= sleep_max.
Proof.
  unfold sleep, sleep_max.
  repeat match goal with
    | |- context [?a <? ?b] => destruct (Z.ltb_spec a b)
    end; cbn [orb];
    split; intros Hs; try discriminate Hs; try reflexivity; try lia;
    exfalso; lia.
Qed.

(** C10. In an iteration of a running loop that gets past the session
    check, where the availability probe reports a purchasable product and
    the purchase attempt fails, and whose computed interval is a length
    that [time.sleep] accepts (from 0 to [sleep_max] seconds), the body
    logs the failure, sleeps for the computed interval and does not return:
    the loop goes on with the remaining iterations, and [is_running] stays
    set unless [stop] was called from outside. A purchase flow that raises
    counts as such a failure. *)
Theorem failed_purchase_resumes_monitoring :
  forall (refresh_interval : Z) (t : Tick) (rest : list Tick) (m : Monitor),
    is_running m = true ->
    (fst (_should_check_session (session_entropy t) m) = true ->
     fst (_handle_session_check (session_page t) (login_result t)) = true) ->
    fst (_check_availability (first_probe t)) = true ->
    fst (_attempt_purchase (second_probe t) (flows t)) = false ->
    0 <= _calculate_interval refresh_interval (interval_entropy t) <= sleep_max ->
    exists m' events,
      loop_body refresh_interval t m = (Next, m', events) /\
      In (Log WARNING "Purchase attempt failed, continuing monitoring...") events /\
      In (Sleep (_calculate_interval refresh_interval (interval_entropy t))) events /\
      (stop_called t = false -> is_running m' = true) /\
      monitoring_while refresh_interval (t :: rest) m =
        (let '(answer, m'', later) := monitoring_while refresh_interval rest m' in
         (answer, m'', (events ++ later)%list)) /\
      (forall arrival e1 e2,
         fst (_attempt_purchase arrival (Checkout.mkFlows (Raise e1) (Raise e2)))
         = false).
Proof.
  intros refresh_interval t rest m Hrun Hsession Havailable Hfailed Hlength.
  apply sleep_returns in Hlength.
  assert (Hbody : exists m' events,
             loop_body refresh_interval t m = (Next, m', events) /\
             In (Log WARNING "Purchase attempt failed, continuing monitoring...") events /\
             In (Sleep (_calculate_interval refresh_interval (interval_entropy t))) events /\
             (stop_called t = false -> is_running m' = true)).
  { unfold loop_body.
    assert (Hkeep : is_running (snd (_should_check_session (session_entropy t) m)) = true).
    { unfold _should_check_session.
      destruct (_ <=? _); cbn; exact Hrun. }
    destruct (_should_check_session (session_entropy t) m) as [check m1].
    cbn [fst snd] in Hsession, Hkeep.
    assert (Hgo : (if check
                   then _handle_session_check (session_page t) (login_result t)
                   else (true, []))
                  = (true, snd (if check
                                then _handle_session_check (session_page t) (login_result t)
                                else (true, [])))).
    { destruct check; [| reflexivity].
      specialize (Hsession eq_refl).
      destruct (_handle_session_check _ _) as [ok ev]. cbn in *. now subst ok. }
    rewrite Hgo. cbn [negb].
    unfold _should_do_random_browsing.
    destruct (_check_availability (first_probe t)) as [available ev_probe].
    cbn [fst] in Havailable. subst available.
    destruct (_attempt_purchase (second_probe t) (flows t)) as [purchased ev_purchase].
    cbn [fst] in Hfailed. subst purchased.
    unfold wait_for_next. rewrite Hlength.
    eexists _, _. split; [reflexivity |].
    split; [| split].
    - rewrite !in_app_iff. cbn. tauto.
    - rewrite !in_app_iff. cbn. tauto.
    - intros ->. cbn. exact Hkeep. }
  destruct Hbody as (m' & events & Hb & Hlog & Hsleep & Hstay).
  exists m', events. repeat split; try assumption.
  - cbn [monitoring_while]. rewrite Hrun, Hb. reflexivity.
  - intros arrival e1 e2. apply raising_flow_fails_attempt.
Qed.

Lemma failed_purchase_resumes_monitoring_witness :
  fst (_check_availability (first_probe Examples.failed_purchase_tick)) = true /\
  fst (_attempt_purchase (second_probe Examples.failed_purchase_tick)
         (flows Examples.failed_purchase_tick)) = false /\
  exists m' events,
    loop_body 60 Examples.failed_purchase_tick (mkMonitor true 0 0)
      = (Next, m', events) /\
    In (Log WARNING "Purchase attempt failed, continuing monitoring...") events.
Proof.
  split; [reflexivity | split; [reflexivity |]].
  destruct (failed_purchase_resumes_monitoring 60 Examples.failed_purchase_tick []
              (mkMonitor true 0 0) eq_refl)
    as (m' & events & Hb & Hlog & _).
  - intros Hdue. vm_compute in Hdue. discriminate Hdue.
  - reflexivity.
  - reflexivity.
  - vm_compute. split; discriminate.
  - exists m', events. split; assumption.
Defined.

(** ** The secure string *)

Import SecureString.

Lemma byte_of_to_N (c : N) : (c < 256)%N -> Byte.to_N (byte_of c) = c.
Proof.
  intros Hc. unfold byte_of.
  destruct (Byte.of_N c) as [b|] eqn:Hb.
  - now apply Byte.to_of_N.
  - apply Byte.of_N_None_iff in Hb. lia.
Qed.

Lemma encode_ascii (s : pystr) :
  Forall (fun c => (c < 128)%N) s -> encode s = Ok (map byte_of s).
Proof.
  induction 1 as [|c rest Hc _ IH]; [reflexivity |].
  cbn [encode map]. unfold encode_char.
  destruct (N.ltb_spec c 128); [| lia].
  cbn [bind]. rewrite IH. reflexivity.
Qed.

Lemma decode_ascii (s : pystr) :
  Forall (fun c => (c < 128)%N) s -> decode (map byte_of s) = Ok s.
Proof.
  induction 1 as [|c rest Hc _ IH]; [reflexivity |].
  cbn [decode map]. rewrite byte_of_to_N by lia.
  destruct (N.ltb_spec c 128); [| lia].
  rewrite IH. reflexivity.
Qed.

Lemma firstn_exact {A} (l tail : list A) :
  firstn (length l) (l ++ tail) = l.
Proof. induction l as [|x l IH]; cbn; [now destruct tail | now rewrite IH]. Qed.

Lemma skipn_exact {A} (l tail : list A) :
  skipn (length l) (l ++ tail) = tail.
Proof. induction l as [|x l IH]; cbn; [reflexivity | exact IH]. Qed.

Lemma length_token_bytes (entropy : nat -> byte) (n : nat) :
  length (token_bytes entropy n) = n.
Proof. unfold token_bytes. now rewrite length_map, length_seq. Qed.

Lemma repeat_snoc {A} (x : A) (n : nat) :
  (repeat x n ++ [x])%list = repeat x (n + 1).
Proof. induction n as [|n IH]; cbn; [reflexivity | now rewrite IH]. Qed.

(** The encoder and the decoder on one code point of each length:
    [a], e acute, the euro sign and an emoji; a lone continuation byte
    and an encoded surrogate do not decode. *)
Example utf8_round_trip :
  encode [0x61; 0xE9; 0x20AC; 0x1F600]%N
    = Ok [Byte.x61; Byte.xc3; Byte.xa9; Byte.xe2; Byte.x82; Byte.xac;
          Byte.xf0; Byte.x9f; Byte.x98; Byte.x80] /\
  decode [Byte.x61; Byte.xc3; Byte.xa9; Byte.xe2; Byte.x82; Byte.xac;
          Byte.xf0; Byte.x9f; Byte.x98; Byte.x80]
    = Ok [0x61; 0xE9; 0x20AC; 0x1F600]%N /\
  decode [Byte.xa9] = Raise UnicodeDecodeError /\
  decode [Byte.xed; Byte.xa0; Byte.x80] = Raise UnicodeDecodeError /\
  encode [0xD800]%N = Raise UnicodeEncodeError.
Proof. repeat split. Qed.

(** C1 as stated fails: after [use_secret], whether the callback returns
    or raises, the buffer still holds the secret [abc]. *)
Lemma use_secret_leaves_secret_in_buffer :
  let abc := [97; 98; 99]%N in
  let s := mkSecureString 3 [Byte.x61; Byte.x62; Byte.x63; Byte.x00] in
  __init__ abc = Ok s /\
  use_secret (fun _ => Ok tt) s = mkUsed (Ok tt) s [abc] /\
  use_secret (fun _ => @Raise unit (OtherError "callback failed")) s
    = mkUsed (Raise (OtherError "callback failed")) s [abc] /\
  _buffer (after (use_secret (fun _ => Ok tt) s))
    = [Byte.x61; Byte.x62; Byte.x63; Byte.x00].
Proof. repeat split. Qed.

(** A secret outside ASCII: [_length] counts one code point for the two
    bytes of its encoding, the slice does not decode, the callback is never
    called, and the wipe leaves the second byte in the buffer. *)
Example use_secret_on_e_acute :
  let s := mkSecureString 1 [Byte.xc3; Byte.xa9; Byte.x00] in
  __init__ [233%N] = Ok s /\
  use_secret (fun _ => Ok tt) s = mkUsed (Raise (UnboundLocalError "temp")) s [] /\
  _buffer (__del__ (fun _ => Byte.x5a) s) = [Byte.x00; Byte.xa9; Byte.x00].
Proof. repeat split. Qed.

(** C1 (amended). For every ASCII secret and every callback, [use_secret]
    calls the callback exactly once, with the original plaintext, and
    passes on what it returns or raises; [use_secret] leaves every buffer
    as it was, on both exit paths; the overwrite is made by
    [_secure_wipe], run by [__del__] when the object is destroyed: random
    bytes over the secret, then zeros, after which every byte of the
    buffer is zero. *)
Theorem use_secret_exposes_plaintext_wipe_on_del :
  forall (secret : pystr) (A : Type) (func : pystr -> result A)
         (entropy : nat -> byte),
    Forall (fun c => (c < 128)%N) secret ->
    (forall s0 : SecureString, after (use_secret func s0) = s0) /\
    exists s,
      __init__ secret = Ok s /\
      use_secret func s = mkUsed (func secret) s [secret] /\
      _buffer (scramble entropy s)
        = (token_bytes entropy (length secret) ++ [Byte.x00])%list /\
      _buffer (__del__ entropy s) = repeat Byte.x00 (length secret + 1) /\
      length (_buffer (__del__ entropy s)) = length (_buffer s).
Proof.
  intros secret A func entropy Hascii. split.
  { intros s0. unfold use_secret. destruct (decode _); reflexivity. }
  exists (mkSecureString (length secret) (map byte_of secret ++ [Byte.x00])).
  assert (Hlen : length secret = length (map byte_of secret))
    by now rewrite length_map.
  assert (Hscr : memmove (map byte_of secret ++ [Byte.x00])
                   (token_bytes entropy (length secret)) (length secret)
                 = (token_bytes entropy (length secret) ++ [Byte.x00])%list).
  { unfold memmove. rewrite firstn_all2 by (rewrite length_token_bytes; lia).
    rewrite Hlen at 2. now rewrite skipn_exact. }
  assert (Hzero : _buffer (__del__ entropy
                    (mkSecureString (length secret)
                                    (map byte_of secret ++ [Byte.x00])))
                  = repeat Byte.x00 (length secret + 1)).
  { unfold __del__, _secure_wipe, scramble. cbn [_length _buffer].
    rewrite Hscr. unfold memset.
    rewrite <- (length_token_bytes entropy (length secret)) at 2.
    rewrite skipn_exact. apply repeat_snoc. }
  repeat split.
  - unfold __init__. rewrite (encode_ascii secret Hascii). reflexivity.
  - unfold use_secret. cbn [_length _buffer].
    rewrite Hlen, firstn_exact, (decode_ascii secret Hascii). reflexivity.
  - exact Hscr.
  - exact Hzero.
  - rewrite Hzero. cbn [_buffer].
    rewrite repeat_length, length_app, length_map. reflexivity.
Qed.

Lemma use_secret_exposes_plaintext_wipe_on_del_witness :
  exists s,
    __init__ [97; 98; 99]%N = Ok s /\
    use_secret (fun temp => Ok (length temp)) s = mkUsed (Ok 3%nat) s [[97; 98; 99]%N] /\
    _buffer (__del__ (fun _ => Byte.x5a) s) = repeat Byte.x00 4.
Proof.
  destruct (use_secret_exposes_plaintext_wipe_on_del [97; 98; 99]%N nat
              (fun temp => Ok (length temp)) (fun _ => Byte.x5a))
    as (_ & s & Hinit & Huse & _ & Hdel & _).
  - repeat constructor.
  - exists s. repeat split; assumption.
Defined.

(** ** The encryption key *)

Import Encryption.

(** C3 as stated fails: with a damaged key in the keyring, [_load_key]
    raises nothing; it returns a newly generated key and writes it over the
    stored one. *)
Lemma load_key_replaces_damaged_key :
  entries damaged_keyring !! (SERVICE_ID, KEY_USERNAME) = Some "not-a-fernet-key" /\
  has_key_length "not-a-fernet-key" = false /\
  has_key_length fresh_key = true /\
  key (_load_key has_key_length fresh_key damaged_keyring) = Ok fresh_key /\
  entries (keyring (_load_key has_key_length fresh_key damaged_keyring))
    !! (SERVICE_ID, KEY_USERNAME) = Some fresh_key.
Proof. repeat split; vm_compute; reflexivity. Qed.

(** C3 (amended). When the keyring holds a key that [Fernet] rejects,
    [_load_key] logs a warning, generates a key, stores it in place of the
    stored one and returns it, as it does (with an info record) when no key
    is stored; a stored key that [Fernet] accepts is returned with no
    write; the load raises only when the keyring raises. *)
Theorem load_key_regenerates_rejected_key :
  forall (fernet_accepts : string -> bool) (generated stored : string)
         (kr : Keyring),
    get_raises kr = false ->
    entries kr !! (SERVICE_ID, KEY_USERNAME) = Some stored ->
    (fernet_accepts stored = true ->
       _load_key fernet_accepts generated kr = mkLoaded (Ok stored) kr []) /\
    (fernet_accepts stored = false -> set_raises kr = false ->
       key (_load_key fernet_accepts generated kr) = Ok generated /\
       entries (keyring (_load_key fernet_accepts generated kr))
         = <[(SERVICE_ID, KEY_USERNAME) := generated]> (entries kr) /\
       logged (_load_key fernet_accepts generated kr)
         = [(WARNING, "Stored key is invalid, generating new one")]) /\
    (fernet_accepts stored = false -> set_raises kr = true ->
       key (_load_key fernet_accepts generated kr) = Raise KeyringError /\
       keyring (_load_key fernet_accepts generated kr) = kr) /\
    (forall kr0,
       get_raises kr0 = false -> set_raises kr0 = false ->
       entries kr0 !! (SERVICE_ID, KEY_USERNAME) = None ->
       key (_load_key fernet_accepts generated kr0) = Ok generated /\
       entries (keyring (_load_key fernet_accepts generated kr0))
         !! (SERVICE_ID, KEY_USERNAME) = Some generated).
Proof.
  intros fernet_accepts generated stored kr Hget Hstored.
  unfold _load_key, get_password. rewrite Hget, Hstored.
  split; [| split; [| split]].
  - intros ->. reflexivity.
  - intros -> Hset. unfold generate_and_store, set_password. rewrite Hset.
    cbn. repeat split.
  - intros -> Hset. unfold generate_and_store, set_password. rewrite Hset.
    cbn. split; reflexivity.
  - intros kr0 Hget0 Hset0 Hnone.
    unfold _load_key, get_password, generate_and_store, set_password.
    rewrite Hget0, Hnone, Hset0. cbn. split; [reflexivity |].
    apply lookup_insert_eq.
Qed.

Lemma load_key_regenerates_rejected_key_witness :
  key (_load_key has_key_length fresh_key damaged_keyring) = Ok fresh_key /\
  logged (_load_key has_key_length fresh_key damaged_keyring)
    = [(WARNING, "Stored key is invalid, generating new one")].
Proof.
  destruct (load_key_regenerates_rejected_key has_key_length fresh_key
              "not-a-fernet-key" damaged_keyring eq_refl)
    as (_ & Hrejected & _).
  - vm_compute. reflexivity.
  - destruct (Hrejected eq_refl eq_refl) as (Hkey & _ & Hlog).
    split; assumption.
Defined.

(** * Further properties of the code *)

(** ** The monitoring loop as a whole *)

Import Trace.

Lemma calculate_interval_bounds (base : Z) (raw : N) :
  base - 10 <= _calculate_interval base raw <= base + 10 /\
  (10 <= base -> 10 <= _calculate_interval base raw).
Proof.
  unfold _calculate_interval.
  pose proof (randint_range (-10) 10 raw ltac:(lia)) as Hr.
  destruct (Z.ltb_spec 20 base); lia.
Qed.

Lemma count_app (p : Event -> bool) (l1 l2 : list Event) :
  count p (l1 ++ l2)%list = (count p l1 + count p l2)%nat.
Proof. induction l1 as [|e l1 IH]; cbn; [reflexivity | rewrite IH; lia]. Qed.

(** The two ways [_initialize_session] goes: the quick check returns
    [False] and [login] is called, or the quick check raises and the
    handler returns [False]. *)
Lemma initialize_session_cases (v : Session.Visit) (login_result : bool)
    (d : Driver) :
  match Session.restore v with
  | Ok _ =>
      _initialize_session v login_result d
      = (login_result, mkDriver 30,
         [ QuickSessionCheck false;
           Log INFO "Session invalid or uncertain, performing fresh login...";
           Login login_result;
           if login_result then Log INFO "Successfully logged into Amazon"
           else Log ERROR "Login failed" ])
  | Raise _ =>
      fst (_initialize_session v login_result d)
      = (false, snd (Session._quick_session_check v d)) /\
      snd (_initialize_session v login_result d)
      = [Log ERROR "Session initialization failed: {e}"]
  end.
Proof.
  pose proof (quick_session_check_outcome v d) as [Hquick Htimeout].
  unfold _initialize_session.
  destruct (Session.restore v) as [u | e].
  - specialize (Htimeout u eq_refl).
    destruct (Session._quick_session_check v d) as [answer [timeout]].
    cbn [fst snd page_load_timeout] in *. subst answer timeout. reflexivity.
  - destruct (Session._quick_session_check v d) as [answer d'].
    cbn [fst snd] in *. subst answer. split; reflexivity.
Qed.

(** Case analysis of one iteration: every choice the body makes. *)
Ltac break_loop_body :=
  unfold loop_body, _handle_session_check, _check_availability,
         _attempt_purchase, wait_for_next, _should_do_random_browsing;
  repeat match goal with
    | |- context [_should_check_session ?r ?m] =>
        let check := fresh "check" in
        let m1 := fresh "m1" in
        let E := fresh "Echeck" in
        destruct (_should_check_session r m) as [check m1] eqn:E; destruct check
    | |- context [Auth.is_session_valid ?l] =>
        let E := fresh "Evalid" in destruct (Auth.is_session_valid l) eqn:E
    | |- context [Product.check_availability ?a] =>
        let E := fresh "Eprobe" in
        destruct (Product.check_availability a) as [[[] ?] ?] eqn:E
    | |- context [Checkout.attempt_purchase ?b ?ty ?f] =>
        let E := fresh "Ebuy" in destruct (Checkout.attempt_purchase b ty f) eqn:E
    | |- context [login_result ?t] =>
        let E := fresh "Elogin" in destruct (login_result t) eqn:E
    | |- context [stop_called ?t] =>
        let E := fresh "Estop" in destruct (stop_called t) eqn:E
    | |- context [sleep ?seconds] =>
        let E := fresh "Esleep" in destruct (sleep seconds) eqn:E
    | |- context [(?a mod ?b =? 0)] => destruct (a mod b =? 0)
    end;
  cbn [negb fst snd app].

Lemma loop_body_sleeps (base : Z) (t : Tick) (m : Monitor) :
  Forall (sleeps_within (base - 10) (base + 10)) (snd (loop_body base t m)) /\
  (10 <= base -> Forall (sleeps_within 10 (base + 10)) (snd (loop_body base t m))).
Proof.
  pose proof (calculate_interval_bounds base (interval_entropy t)) as [Hb Hlo].
  split; [| intros H10; specialize (Hlo H10)];
    break_loop_body; repeat constructor; cbn; lia.
Qed.

(** X1. For a configuration that passed [Config.__post_init__], every
    pause between two iterations of the loop lasts at least 10 seconds, at
    least [refresh_interval - 10] and at most [refresh_interval + 10]
    seconds, whatever the draws and whatever happens in the iterations. *)
Theorem every_sleep_is_bounded :
  forall (c : Settings.Config) (ticks : list Tick) (m : Monitor),
    Settings.__post_init__ c = None ->
    Forall (sleeps_within (Z.max 10 (Settings.refresh_interval c - 10))
                          (Settings.refresh_interval c + 10))
           (snd (monitoring_while (Settings.refresh_interval c) ticks m)).
Proof.
  intros c ticks m Hok.
  assert (Hvalid : 10 <= Settings.refresh_interval c).
  { revert Hok. unfold Settings.__post_init__.
    repeat match goal with |- context [if ?b then _ else _] => destruct b eqn:? end;
      try discriminate.
    intros _. lia. }
  assert (Hboth : forall lo hi e,
             sleeps_within lo hi e -> sleeps_within 10 hi e ->
             sleeps_within (Z.max 10 lo) hi e).
  { intros lo hi [] H1 H2; cbn in *; try exact I. lia. }
  revert m. induction ticks as [|t rest IH]; intros m; cbn [monitoring_while];
    destruct (is_running m); try (cbn; constructor).
  pose proof (loop_body_sleeps (Settings.refresh_interval c) t m) as [H1 H2].
  specialize (H2 Hvalid).
  assert (Hbody : Forall (sleeps_within (Z.max 10 (Settings.refresh_interval c - 10))
                            (Settings.refresh_interval c + 10))
                         (snd (loop_body (Settings.refresh_interval c) t m))).
  { rewrite Forall_forall in *. intros e He. apply Hboth; auto. }
  destruct (loop_body (Settings.refresh_interval c) t m) as [[[|purchased|e] m1] ev];
    cbn [snd] in *; try assumption.
  specialize (IH m1).
  destruct (monitoring_while (Settings.refresh_interval c) rest m1) as [[answer m2] later].
  cbn [snd] in *. apply Forall_app. split; assumption.
Qed.

Lemma every_sleep_is_bounded_witness :
  Forall (sleeps_within 50 70)
         (snd (monitoring_while 60
                 [Examples.failed_purchase_tick; Examples.relogin_tick]
                 (mkMonitor true 0 0))).
Proof.
  exact (every_sleep_is_bounded Inputs.test_config
           [Examples.failed_purchase_tick; Examples.relogin_tick]
           (mkMonitor true 0 0) eq_refl).
Defined.

Lemma loop_body_return_true (base : Z) (t : Tick) (m : Monitor) :
  fst (fst (loop_body base t m)) = Return true ->
  In (AvailabilityProbe true) (snd (loop_body base t m)) /\
  In (PurchaseAttempt true) (snd (loop_body base t m)).
Proof.
  break_loop_body; intros H; try discriminate H;
    rewrite ?in_app_iff; cbn; tauto.
Qed.

Lemma loop_body_return_false (base : Z) (t : Tick) (m : Monitor) :
  fst (fst (loop_body base t m)) = Return false ->
  In (SessionValidityCheck false) (snd (loop_body base t m)) /\
  In (Login false) (snd (loop_body base t m)).
Proof.
  break_loop_body; intros H; try discriminate H;
    rewrite ?in_app_iff; cbn; tauto.
Qed.

(** X2. [_monitoring_loop] returns [True] only after a successful login at
    the start and a purchase attempt that reported success, itself made
    after a probe that found the product available. *)
Theorem purchase_reported_only_after_success :
  forall (base : Z) (v : Session.Visit) (login_result : bool)
         (ticks : list Tick) (m : Monitor) (d : Driver),
    fst (fst (_monitoring_loop base v login_result ticks m d)) = Some (Ok true) ->
    In (Login true) (snd (_monitoring_loop base v login_result ticks m d)) /\
    In (AvailabilityProbe true)
       (snd (_monitoring_loop base v login_result ticks m d)) /\
    In (PurchaseAttempt true)
       (snd (_monitoring_loop base v login_result ticks m d)).
Proof.
  intros base v login_result ticks m d.
  assert (Hloop : forall ticks m,
             fst (fst (monitoring_while base ticks m)) = Some (Ok true) ->
             In (AvailabilityProbe true) (snd (monitoring_while base ticks m)) /\
             In (PurchaseAttempt true) (snd (monitoring_while base ticks m))).
  { clear. induction ticks as [|t rest IH]; intros m; cbn [monitoring_while];
      destruct (is_running m); try discriminate.
    pose proof (loop_body_return_true base t m) as Hbody.
    destruct (loop_body base t m) as [[[|purchased|e] m1] ev]; cbn [fst snd] in *.
    - specialize (IH m1).
      destruct (monitoring_while base rest m1) as [[answer m2] later].
      cbn [fst snd] in *. intros H. destruct (IH H).
      rewrite !in_app_iff. tauto.
    - intros H. apply Hbody. congruence.
    - discriminate. }
  pose proof (initialize_session_cases v login_result d) as Hinit.
  unfold _monitoring_loop.
  destruct (Session.restore v) as [u | e].
  - rewrite Hinit.
    destruct login_result; cbn [negb fst snd]; [| discriminate].
    specialize (Hloop ticks m).
    destruct (monitoring_while base ticks m) as [[answer m2] events].
    cbn [fst snd] in *. intros H. destruct (Hloop H).
    cbn. tauto.
  - destruct Hinit as [Hfst Hsnd].
    destruct (_initialize_session v login_result d) as [[ok d'] ev].
    cbn [fst snd] in *. injection Hfst as -> _. discriminate.
Qed.

Lemma purchase_reported_only_after_success_witness :
  In (PurchaseAttempt true)
     (snd (_monitoring_loop 60 (Session.visit (Raise TimeoutException)) true
             [Inputs.purchase_tick] (mkMonitor true 0 0) (mkDriver 30))).
Proof.
  exact (proj2 (proj2 (purchase_reported_only_after_success 60
           (Session.visit (Raise TimeoutException)) true [Inputs.purchase_tick]
           (mkMonitor true 0 0) (mkDriver 30) eq_refl))).
Defined.

(** X3. When [_monitoring_loop] returns [False] with [is_running] still
    set, the session could not be established. Either the quick check at
    the start raised: then no login was made and the run consists of the
    two error lines of [_initialize_session] and [_monitoring_loop]. Or a
    login has failed: the one made at the start, or the one made after a
    periodic session check found the session invalid. *)
Theorem failure_while_running_is_a_session_failure :
  forall (base : Z) (v : Session.Visit) (login_result : bool)
         (ticks : list Tick) (m : Monitor) (d : Driver),
    fst (fst (_monitoring_loop base v login_result ticks m d)) = Some (Ok false) ->
    is_running (snd (fst (_monitoring_loop base v login_result ticks m d))) = true ->
    match Session.restore v with
    | Ok _ =>
        In (Login false) (snd (_monitoring_loop base v login_result ticks m d))
    | Raise _ =>
        snd (_monitoring_loop base v login_result ticks m d)
        = [ Log ERROR "Session initialization failed: {e}";
            Log ERROR "Failed to initialize session" ]
    end.
Proof.
  intros base v login_result ticks m d.
  assert (Hloop : forall ticks m,
             fst (fst (monitoring_while base ticks m)) = Some (Ok false) ->
             is_running (snd (fst (monitoring_while base ticks m))) = true ->
             In (Login false) (snd (monitoring_while base ticks m))).
  { clear. induction ticks as [|t rest IH]; intros m; cbn [monitoring_while];
      destruct (is_running m) eqn:Hrun; cbn [fst snd]; try congruence.
    pose proof (loop_body_return_false base t m) as Hbody.
    destruct (loop_body base t m) as [[[|purchased|e] m1] ev]; cbn [fst snd] in *.
    - specialize (IH m1).
      destruct (monitoring_while base rest m1) as [[answer m2] later].
      cbn [fst snd] in *. intros H1 H2. rewrite in_app_iff. auto.
    - intros H _. apply Hbody. congruence.
    - discriminate. }
  pose proof (initialize_session_cases v login_result d) as Hinit.
  unfold _monitoring_loop.
  destruct (Session.restore v) as [u | e].
  - rewrite Hinit.
    destruct login_result; cbn [negb fst snd].
    + specialize (Hloop ticks m).
      destruct (monitoring_while base ticks m) as [[answer m2] events].
      cbn [fst snd] in *. intros H1 H2. rewrite in_app_iff. auto.
    + intros _ _. cbn. tauto.
  - destruct Hinit as [Hfst Hsnd].
    destruct (_initialize_session v login_result d) as [[ok d'] ev].
    cbn [fst snd] in *. injection Hfst as -> _. subst ev.
    intros _ _. reflexivity.
Qed.

Lemma failure_while_running_is_a_session_failure_witness :
  In (Login false)
     (snd (_monitoring_loop 60 (Session.visit (Raise TimeoutException)) true
             [Inputs.failed_relogin_tick] (mkMonitor true 9 0) (mkDriver 30))) /\
  snd (_monitoring_loop 60 Examples.lost_session_visit true
         [Inputs.failed_relogin_tick] (mkMonitor true 9 0) (mkDriver 30))
  = [ Log ERROR "Session initialization failed: {e}";
      Log ERROR "Failed to initialize session" ].
Proof.
  split.
  - exact (failure_while_running_is_a_session_failure 60
             (Session.visit (Raise TimeoutException)) true
             [Inputs.failed_relogin_tick] (mkMonitor true 9 0) (mkDriver 30)
             eq_refl eq_refl).
  - exact (failure_while_running_is_a_session_failure 60
             Examples.lost_session_visit true
             [Inputs.failed_relogin_tick] (mkMonitor true 9 0) (mkDriver 30)
             eq_refl eq_refl).
Defined.

Lemma loop_body_logins (base : Z) (t : Tick) (m : Monitor) :
  count is_login (snd (loop_body base t m))
  = count is_failed_check (snd (loop_body base t m)).
Proof. break_loop_body; rewrite ?count_app; reflexivity. Qed.

(** X4. A run of [_monitoring_loop] calls [login] exactly once at the
    start, unless the quick check raised (then it makes no login at all),
    and exactly once more for each periodic session check that found the
    session invalid: no login is retried and none is made unprompted. *)
Theorem one_login_per_failed_check :
  forall (base : Z) (v : Session.Visit) (login_result : bool)
         (ticks : list Tick) (m : Monitor) (d : Driver),
    count is_login (snd (_monitoring_loop base v login_result ticks m d))
    = (match Session.restore v with
       | Ok _ => 1
       | Raise _ => 0
       end
       + count is_failed_check
           (snd (_monitoring_loop base v login_result ticks m d)))%nat /\
    (forall e, Session.restore v = Raise e ->
       count is_failed_check
         (snd (_monitoring_loop base v login_result ticks m d)) = 0%nat).
Proof.
  intros base v login_result ticks m d.
  assert (Hloop : forall ticks m,
             count is_login (snd (monitoring_while base ticks m))
             = count is_failed_check (snd (monitoring_while base ticks m))).
  { clear. induction ticks as [|t rest IH]; intros m; cbn [monitoring_while];
      destruct (is_running m); try reflexivity.
    pose proof (loop_body_logins base t m) as Hbody.
    destruct (loop_body base t m) as [[[|purchased|e] m1] ev]; cbn [fst snd] in *;
      [| exact Hbody | exact Hbody].
    specialize (IH m1).
    destruct (monitoring_while base rest m1) as [[answer m2] later].
    cbn [fst snd] in *. rewrite !count_app. lia. }
  pose proof (initialize_session_cases v login_result d) as Hinit.
  unfold _monitoring_loop.
  destruct (Session.restore v) as [u | e].
  - split; [| discriminate]. rewrite Hinit.
    destruct login_result; cbn [negb fst snd]; [| reflexivity].
    specialize (Hloop ticks m).
    destruct (monitoring_while base ticks m) as [[answer m2] events].
    cbn [fst snd] in *. cbn. now rewrite Hloop.
  - destruct Hinit as [Hfst Hsnd].
    destruct (_initialize_session v login_result d) as [[ok d'] ev].
    cbn [fst snd] in *. injection Hfst as -> _. subst ev.
    split; [| intros _ _]; reflexivity.
Qed.

Lemma should_check_session_keeps (raw : N) (m : Monitor) :
  is_running (snd (_should_check_session raw m)) = is_running m /\
  check_count (snd (_should_check_session raw m)) = check_count m.
Proof. unfold _should_check_session. destruct (_ <=? _); split; reflexivity. Qed.

Lemma loop_body_counters (base : Z) (t : Tick) (m : Monitor) :
  0 <= session_check_counter m <= 9 ->
  0 <= session_check_counter (snd (fst (loop_body base t m))) <= 9 /\
  check_count m <= check_count (snd (fst (loop_body base t m))) <= check_count m + 1.
Proof.
  intros Hc.
  pose proof (should_check_session_step (session_entropy t) m Hc) as Hstep.
  pose proof (should_check_session_keeps (session_entropy t) m) as [_ Hcc].
  break_loop_body; cbn [fst snd] in *;
    destruct Hstep as [(Hf & ? & ?) | (Hf & ? & ?)]; try discriminate Hf;
    cbn; lia.
Qed.

(** X5. The loop keeps its counters in range: started with the session
    counter in [0..9] (it is 0 in a new monitor), a run of any length ends
    with the session counter in [0..9], and with [check_count] increased
    by at most one per iteration and never decreased. *)
Theorem loop_keeps_counters_in_range :
  forall (base : Z) (ticks : list Tick) (m : Monitor),
    0 <= session_check_counter m <= 9 ->
    0 <= session_check_counter (snd (fst (monitoring_while base ticks m))) <= 9 /\
    check_count m <= check_count (snd (fst (monitoring_while base ticks m)))
                  <= check_count m + Z.of_nat (length ticks).
Proof.
  intros base ticks. induction ticks as [|t rest IH]; intros m Hc;
    cbn [monitoring_while]; destruct (is_running m); cbn [fst snd length];
    try lia.
  pose proof (loop_body_counters base t m Hc) as [Hs Hcc].
  destruct (loop_body base t m) as [[[|purchased|e] m1] ev]; cbn [fst snd] in *;
    [| lia | lia].
  specialize (IH m1 Hs).
  destruct (monitoring_while base rest m1) as [[answer m2] later].
  cbn [fst snd] in *. lia.
Qed.

Lemma loop_keeps_counters_in_range_witness :
  monitoring_while 60 [Examples.failed_purchase_tick; Examples.relogin_tick]
    (mkMonitor true 0 0)
  = (None, mkMonitor true 2 2,
     snd (monitoring_while 60 [Examples.failed_purchase_tick; Examples.relogin_tick]
            (mkMonitor true 0 0))) /\
  0 <= session_check_counter
         (snd (fst (monitoring_while 60
                      [Examples.failed_purchase_tick; Examples.relogin_tick]
                      (mkMonitor true 0 0)))) <= 9 /\
  0 <= check_count
         (snd (fst (monitoring_while 60
                      [Examples.failed_purchase_tick; Examples.relogin_tick]
                      (mkMonitor true 0 0)))) <= 2.
Proof.
  split; [reflexivity |].
  exact (loop_keeps_counters_in_range 60
           [Examples.failed_purchase_tick; Examples.relogin_tick]
           (mkMonitor true 0 0) ltac:(cbn; lia)).
Defined.

(** X6. When the login made at the start fails, [_monitoring_loop] returns
    [False] at once: no iteration runs, the product page is never probed,
    and the counters are untouched. Exactly one login was made; the only
    other way not to get past the start, a quick check that raises, makes
    none and ends the run in the same way. *)
Theorem failed_first_login_ends_the_run :
  forall (base : Z) (v : Session.Visit) (ticks : list Tick)
         (m : Monitor) (d : Driver),
    fst (_monitoring_loop base v false ticks m d) = (Some (Ok false), m) /\
    count is_probe (snd (_monitoring_loop base v false ticks m d)) = 0%nat /\
    (forall u, Session.restore v = Ok u ->
       count is_login (snd (_monitoring_loop base v false ticks m d)) = 1%nat) /\
    In (Log ERROR "Failed to initialize session")
       (snd (_monitoring_loop base v false ticks m d)).
Proof.
  intros base v ticks m d.
  pose proof (initialize_session_cases v false d) as Hinit.
  unfold _monitoring_loop.
  destruct (Session.restore v) as [u | e].
  - rewrite Hinit. cbn. repeat split. tauto.
  - destruct Hinit as [Hfst Hsnd].
    destruct (_initialize_session v false d) as [[ok d'] ev].
    cbn [fst snd] in *. injection Hfst as -> _. subst ev.
    cbn. repeat split; [discriminate | tauto].
Qed.

(** ** Starting and stopping *)

Lemma quits_app (l1 l2 : list Lifecycle.Event) :
  Lifecycle.quits (l1 ++ l2)%list = (Lifecycle.quits l1 + Lifecycle.quits l2)%nat.
Proof.
  induction l1 as [|e l1 IH]; cbn; [reflexivity |].
  destruct e; cbn; rewrite IH; reflexivity.
Qed.

Lemma quits_Ran (events : list Event) :
  Lifecycle.quits (map Lifecycle.Ran events) = 0%nat.
Proof. induction events as [|e l IH]; cbn; [reflexivity | exact IH]. Qed.

(** X7. Whatever happens during [start] (the driver cannot be created, a
    login fails, the product is bought, the user interrupts, [quit]
    raises), it ends with [is_running] cleared and no driver held, and
    [driver.quit()] has been called exactly once if a driver was held or
    created and not at all otherwise; a later [cleanup] does nothing. *)
Theorem start_always_releases_the_browser :
  forall (base : Z) (w : Lifecycle.Run) (m : Monitor)
         (bm : option Lifecycle.BrowserManager),
    let r := Lifecycle.start base w m bm in
    is_running (fst (fst r)) = false /\
    match snd (fst r) with
    | Some after =>
        Lifecycle.driver after = None /\
        (forall raises, Lifecycle.cleanup raises after = (after, []))
    | None => bm = None
    end /\
    Lifecycle.quits (snd r)
    = match bm with
      | Some before =>
          match Lifecycle.driver before, Lifecycle.create w with
          | Some _, _ => 1%nat
          | None, Ok _ => 1%nat
          | None, Raise _ => 0%nat
          end
      | None => 0%nat
      end.
Proof.
  intros base w m [[[d0|]]|]; unfold Lifecycle.start, Lifecycle.get_driver;
    cbn [Lifecycle.driver].
  - destruct (_monitoring_loop base (Lifecycle.home_page w) (Lifecycle.first_login w)
                (Lifecycle.ticks w) (set_is_running true m) d0) as [[answer m1] ran].
    unfold Lifecycle.stop, Lifecycle.cleanup. cbn [Lifecycle.driver fst snd].
    repeat split.
    cbn [Lifecycle.quits app]. rewrite !quits_app, quits_Ran.
    destruct answer as [[|]|], (Lifecycle.quit_raises w); reflexivity.
  - destruct (Lifecycle.create w) as [d|e].
    + destruct (_monitoring_loop base (Lifecycle.home_page w) (Lifecycle.first_login w)
                  (Lifecycle.ticks w) (set_is_running true m) d) as [[answer m1] ran].
      unfold Lifecycle.stop, Lifecycle.cleanup. cbn [Lifecycle.driver fst snd].
      repeat split.
      cbn [Lifecycle.quits app]. rewrite !quits_app, quits_Ran.
      destruct answer as [[|]|], (Lifecycle.quit_raises w); reflexivity.
    + unfold Lifecycle.stop, Lifecycle.cleanup. cbn. repeat split.
  - cbn. repeat split.
Qed.

(** ** The availability classifier, continued *)

Lemma first_match_ext (p p' : Page) (selectors : list Locator) :
  (forall loc, find_elements p loc = find_elements p' loc) ->
  Product.first_match p selectors = Product.first_match p' selectors.
Proof.
  intros Hsame. induction selectors as [|s ss IH]; cbn; [reflexivity |].
  rewrite Hsame, IH. reflexivity.
Qed.

Lemma first_match_none (p : Page) (selectors : list Locator) :
  Forall (fun s => ~ matches p s) selectors ->
  Product.first_match p selectors = None.
Proof.
  induction 1 as [|s ss Hs _ IH]; cbn; [reflexivity |].
  destruct (find_elements p s) as [[|e rest] | err] eqn:E; auto.
  exfalso. apply Hs. exists e, rest. exact E.
Qed.

(** X8. The verdict of [check_availability] depends on the buttons alone:
    two pages on which every lookup gives the same elements get the same
    verdict whatever their text, and a page on which no direct and no
    buying-options selector matches is reported unavailable whether or not
    it shows an unavailability phrase; so is a page that cannot be
    reached. *)
Theorem availability_ignores_page_text :
  forall (p p' : Page) (e : exn),
    ((forall loc, find_elements p loc = find_elements p' loc) ->
     Product.check_availability (Ok p) = Product.check_availability (Ok p')) /\
    (Forall (fun s => ~ matches p s)
            (Product.direct_selectors ++ Product.buying_options_selectors) ->
     Product.check_availability (Ok p) = Product.not_available) /\
    Product.check_availability (Raise e) = Product.not_available.
Proof.
  intros p p' e. split; [| split].
  - intros Hsame.
    unfold Product.check_availability, Product._check_direct_preorder_buttons,
      Product._check_buying_options_buttons.
    cbn [bind try_except].
    rewrite (first_match_ext p p' Product.direct_selectors Hsame).
    rewrite (first_match_ext p p' Product.buying_options_selectors Hsame).
    destruct (Product.first_match p' Product.direct_selectors); [reflexivity |].
    destruct (Product.first_match p' Product.buying_options_selectors);
      [reflexivity |].
    cbv iota beta.
    destruct (Product._check_unavailability_messages p),
             (Product._check_unavailability_messages p'); reflexivity.
  - intros Hnone. apply Forall_app in Hnone as [Hd Hb].
    unfold Product.check_availability, Product._check_direct_preorder_buttons,
      Product._check_buying_options_buttons.
    cbn [bind try_except].
    rewrite (first_match_none p _ Hd), (first_match_none p _ Hb).
    cbv iota beta.
    destruct (Product._check_unavailability_messages p); reflexivity.
  - reflexivity.
Qed.

(** X9. On every page where no direct-purchase selector matches (each
    lookup is empty or raises) and some buying-options selector matches,
    [check_availability] answers [(True, e, "buying_options")] with [e]
    the first element of the first buying-options selector that matches. *)
Theorem buying_options_is_the_fallback :
  forall (p : Page),
    Forall (fun s => ~ matches p s) Product.direct_selectors ->
    (exists selector,
        In selector Product.buying_options_selectors /\ matches p selector) ->
    exists before selector after e rest,
      Product.buying_options_selectors = (before ++ selector :: after)%list /\
      Forall (fun s => ~ matches p s) before /\
      find_elements p selector = Ok (e :: rest) /\
      Product.check_availability (Ok p) = (true, Some e, Some "buying_options").
Proof.
  intros p Hdirect Hbuy.
  destruct (first_match_finds p Product.buying_options_selectors Hbuy)
    as (before & selector & after & e & rest & Hsplit & Hb & Hf & Hfm).
  exists before, selector, after, e, rest. repeat split; auto.
  unfold Product.check_availability, Product._check_direct_preorder_buttons,
    Product._check_buying_options_buttons.
  cbn [bind try_except].
  rewrite (first_match_none p _ Hdirect), Hfm. reflexivity.
Qed.

Lemma buying_options_is_the_fallback_witness :
  exists e,
    Product.check_availability (Ok Inputs.buying_options_page)
    = (true, Some e, Some "buying_options").
Proof.
  destruct (buying_options_is_the_fallback Inputs.buying_options_page)
    as (before & selector & after & e & rest & _ & _ & _ & Hverdict).
  - repeat constructor; intros (e & rest & H); discriminate H.
  - exists (ID, "buybox-see-all-buying-choices"). split; [cbn; tauto |].
    exists (mkElement 11 (Ok "See All Buying Options")), []. reflexivity.
  - exists e. exact Hverdict.
Defined.

Lemma verdict_shape (arrival : result Page) :
  Product.check_availability arrival = Product.not_available \/
  exists e,
    Product.check_availability arrival = (true, Some e, Some "direct") \/
    Product.check_availability arrival = (true, Some e, Some "buying_options").
Proof.
  unfold Product.check_availability, Product._check_direct_preorder_buttons,
    Product._check_buying_options_buttons.
  destruct arrival as [p | err]; cbn [bind try_except]; [| now left].
  destruct (Product.first_match p Product.direct_selectors) as [e |].
  { right. exists e. now left. }
  destruct (Product.first_match p Product.buying_options_selectors) as [e |].
  { right. exists e. now right. }
  cbv iota beta.
  destruct (Product._check_unavailability_messages p); now left.
Qed.

(** X10. [_attempt_purchase] reports success exactly when its own probe of
    the page finds a button and the purchase flow of that button's kind
    returns [True]: the direct flow for a direct button, the buying-options
    flow for a buying-options button. When its probe finds no button, no
    purchase is attempted, whatever the earlier probe of the same iteration
    had found. *)
Theorem attempt_purchase_succeeds_iff_flow_does :
  forall (arrival : result Page) (flows : Checkout.Flows),
    (fst (_attempt_purchase arrival flows) = true <->
     exists e,
       (Product.check_availability arrival = (true, Some e, Some "direct") /\
        Checkout._handle_direct_purchase_flow flows = Ok true) \/
       (Product.check_availability arrival = (true, Some e, Some "buying_options") /\
        Checkout._handle_buying_options_flow flows = Ok true)) /\
    (Product.check_availability arrival = Product.not_available ->
     _attempt_purchase arrival flows = (false, [AvailabilityProbe false])).
Proof.
  intros arrival flows. unfold _attempt_purchase. split.
  - destruct (verdict_shape arrival) as [-> | (e & [-> | ->])];
      cbn [Product.not_available fst Checkout.attempt_purchase String.eqb
           Ascii.eqb Bool.eqb try_except]; cbn.
    + split; [discriminate |].
      intros (e & [(H & _) | (H & _)]); discriminate H.
    + split.
      * intros H. exists e. left. split; [reflexivity |].
        destruct (Checkout._handle_direct_purchase_flow flows) as [[] |];
          cbn in H; congruence.
      * intros (e' & [(_ & ->) | (H & _)]); [reflexivity | discriminate H].
    + split.
      * intros H. exists e. right. split; [reflexivity |].
        destruct (Checkout._handle_buying_options_flow flows) as [[] |];
          cbn in H; congruence.
      * intros (e' & [(H & _) | (_ & ->)]); [discriminate H | reflexivity].
  - intros ->. reflexivity.
Qed.

(** ** The search term *)

Import ProductSearch.

Lemma contains_single (c : ascii) (s : string) :
  contains (String c EmptyString) s = true <-> In c (String.list_ascii_of_string s).
Proof.
  induction s as [|a s IH]; cbn.
  - split; [discriminate | tauto].
  - destruct (ascii_dec c a) as [-> | Hne].
    + replace (String.prefix "" s) with true by (now destruct s). split; auto.
    + rewrite IH. split; [auto | intros [H | H]; [congruence | exact H]].
Qed.

Lemma split_parts_lack_separator (sep : ascii) (s : string) :
  Forall (fun part => ~ In sep (String.list_ascii_of_string part)) (split sep s).
Proof.
  induction s as [|c s IH]; cbn.
  - repeat constructor. tauto.
  - destruct (Ascii.eqb_spec c sep) as [-> | Hne].
    + constructor; [cbn; tauto | exact IH].
    + destruct (split sep s) as [|part parts].
      * repeat constructor. cbn. intros [H | []]. congruence.
      * inversion IH as [|? ? Hpart Hparts]; subst.
        constructor; [| exact Hparts].
        cbn. intros [H | H]; [congruence | auto].
Qed.

Lemma replace_chars (old new x : ascii) (s : string) :
  In x (String.list_ascii_of_string (replace old new s)) ->
  x <> old \/ x = new.
Proof.
  induction s as [|c s IH]; cbn; [tauto |].
  intros [H | H]; [| auto].
  destruct (Ascii.eqb_spec c old); subst; auto.
Qed.

Lemma replace_keeps_others (old new x : ascii) (s : string) :
  x <> new -> In x (String.list_ascii_of_string (replace old new s)) ->
  In x (String.list_ascii_of_string s).
Proof.
  intros Hx. induction s as [|c s IH]; cbn; [tauto |].
  intros [H | H]; [| auto].
  destruct (Ascii.eqb_spec c old); subst; [congruence | auto].
Qed.

Lemma length_replace (old new : ascii) (s : string) :
  String.length (replace old new s) = String.length s.
Proof. induction s as [|c s IH]; cbn; [reflexivity | now rewrite IH]. Qed.

(** What the loop of [_extract_product_name_from_url] finds: the first
    part that is longer than five characters and has a hyphen, every part
    before it being too short or without a hyphen; or no such part. *)
Lemma first_searchable_spec (parts : list string) :
  match first_searchable parts with
  | Some name =>
      exists before part after,
        parts = (before ++ part :: after)%list /\
        Forall (fun q => (String.length q <= 5)%nat \/ contains "-" q = false)
               before /\
        (5 < String.length part)%nat /\ contains "-" part = true /\
        name = replace "-" " " part
  | None =>
      Forall (fun q => (String.length q <= 5)%nat \/ contains "-" q = false) parts
  end.
Proof.
  induction parts as [|part parts IH]; cbn [first_searchable]; [constructor |].
  destruct (Nat.ltb_spec 5 (String.length part)) as [Hlong | Hshort]; cbn [andb].
  - destruct (contains "-" part) eqn:Hhyphen.
    + exists [], part, parts. repeat split; auto.
    + destruct (first_searchable parts) as [name |].
      * destruct IH as (before & q & after & -> & Hbefore & Hq).
        exists (part :: before), q, after. split; [reflexivity |].
        split; [constructor; auto | exact Hq].
      * constructor; auto.
  - destruct (first_searchable parts) as [name |].
    + destruct IH as (before & q & after & -> & Hbefore & Hq).
      exists (part :: before), q, after. split; [reflexivity |].
      split; [constructor; auto | exact Hq].
    + constructor; auto.
Qed.

(** X11. For every URL, the search term made by
    [_extract_product_name_from_url] is the first of the parts between the
    slashes of the URL that is longer than five characters and has a
    hyphen, with its hyphens turned into spaces, and it is "new products"
    when the URL has no such part. In both cases the term has more than
    five characters and contains neither a slash nor a hyphen. *)
Theorem search_term_is_clean :
  forall (product_url : string),
    let name := _extract_product_name_from_url product_url in
    (5 < String.length name)%nat /\
    contains "/" name = false /\
    contains "-" name = false /\
    ((exists before part after,
        split "/" product_url = (before ++ part :: after)%list /\
        Forall (fun q => (String.length q <= 5)%nat \/ contains "-" q = false)
               before /\
        (5 < String.length part)%nat /\ contains "-" part = true /\
        name = replace "-" " " part) \/
     (Forall (fun q => (String.length q <= 5)%nat \/ contains "-" q = false)
             (split "/" product_url) /\
      name = "new products")).
Proof.
  intros product_url name. subst name. unfold _extract_product_name_from_url.
  pose proof (split_parts_lack_separator "/" product_url) as Hparts.
  pose proof (first_searchable_spec (split "/" product_url)) as Hspec.
  destruct (first_searchable (split "/" product_url)) as [name |].
  - destruct Hspec as (before & part & after & Hsplit & Hbefore & Hlen & Hhyphen & ->).
    assert (Hpart : ~ In "/"%char (String.list_ascii_of_string part)).
    { rewrite Hsplit in Hparts. apply Forall_app in Hparts as [_ Hparts].
      now inversion Hparts. }
    assert (Hclean : contains "-" (replace "-" " " part) = false).
    { apply not_true_is_false. rewrite contains_single. intros Hin.
      destruct (replace_chars "-" " " "-" part Hin); congruence. }
    split; [now rewrite length_replace |].
    split.
    { apply not_true_is_false. rewrite contains_single. intros Hin.
      apply Hpart. apply (replace_keeps_others "-" " "); [discriminate | exact Hin]. }
    split; [exact Hclean |].
    left. exists before, part, after. auto.
  - repeat split; try reflexivity; auto. cbn. lia.
Qed.

Example search_term_of_a_product_url :
  _extract_product_name_from_url
    "https://www.amazon.com/Magic-Gathering-Booster-Box/dp/B0C8ZQ7KQ2"
  = "Magic Gathering Booster Box" /\
  _extract_product_name_from_url "https://www.amazon.com/dp/B123456789"
  = "new products".
Proof. split; reflexivity. Qed.

(** ** The full session check, continued *)

Lemma eval_all_ok {A B} (f : A -> result B) (xs : list A) (ys : list B) :
  eval_all (map f xs) = Ok ys <-> Forall2 (fun x y => f x = Ok y) xs ys.
Proof.
  revert ys. induction xs as [|x xs IH]; intros ys; cbn.
  - split.
    + intros H. injection H as <-. constructor.
    + intros H. inversion H. reflexivity.
  - destruct (f x) as [y |] eqn:Ex; cbn.
    + destruct (eval_all (map f xs)) as [rest |] eqn:Er; cbn.
      * split.
        -- intros H. injection H as <-. constructor; [exact Ex |].
           now apply IH.
        -- intros H. inversion H as [|? y' ? ys' Hy Hrest]; subst.
           apply IH in Hrest. congruence.
      * split; [discriminate |].
        intros H. inversion H as [|? y' ? ys' Hy Hrest]; subst.
        apply IH in Hrest. discriminate Hrest.
    + split; [discriminate |].
      intros H. inversion H as [|? y' ? ys' Hy Hrest]; subst. congruence.
Qed.

Lemma shows_logged_in_true (e : WebElement) :
  Auth.shows_logged_in e = Ok true <->
  exists t, text e = Ok t /\ strip t <> "" /\ lower (strip t) <> "hello, sign in".
Proof.
  unfold Auth.shows_logged_in.
  destruct (text e) as [t | err]; cbn [bind].
  - destruct (String.eqb_spec (strip t) ""),
             (String.eqb_spec (lower (strip t)) "hello, sign in"); cbn;
      (split; [intros H; try discriminate H; now exists t
              | intros (t' & [= <-] & H1 & H2); congruence]).
  - split; [discriminate | intros (t' & H & _); discriminate H].
Qed.

Lemma shows_logged_in_false (e : WebElement) :
  Auth.shows_logged_in e = Ok false <->
  exists t, text e = Ok t /\ (strip t = "" \/ lower (strip t) = "hello, sign in").
Proof.
  unfold Auth.shows_logged_in.
  destruct (text e) as [t | err]; cbn [bind].
  - destruct (String.eqb_spec (strip t) ""),
             (String.eqb_spec (lower (strip t)) "hello, sign in"); cbn;
      (split; [intros H; try discriminate H; exists t; auto
              | intros (t' & [= <-] & [H | H]); congruence]).
  - split; [discriminate | intros (t' & H & _); discriminate H].
Qed.

(** The search through one group stops at the first element that passes
    the test, every element before it having been read and refused. *)
Lemma first_logged_in_true (elements : list WebElement) :
  Auth.first_logged_in elements = Ok true <->
  exists before e after,
    elements = (before ++ e :: after)%list /\
    Forall (fun e' => Auth.shows_logged_in e' = Ok false) before /\
    Auth.shows_logged_in e = Ok true.
Proof.
  induction elements as [|x xs IH]; cbn [Auth.first_logged_in].
  - split; [discriminate |].
    intros (before & e & after & H & _). now destruct before.
  - destruct (Auth.shows_logged_in x) as [[] | err] eqn:Hx; cbn [bind].
    + split; [intros _ | reflexivity]. exists [], x, xs. auto.
    + rewrite IH. split.
      * intros (before & e & after & -> & Hb & He).
        exists (x :: before), e, after. repeat split; auto.
      * intros (before & e & after & Heq & Hb & He).
        destruct before as [|b before]; cbn in Heq; injection Heq as -> ->.
        -- congruence.
        -- inversion Hb; subst. exists before, e, after. auto.
    + split; [discriminate |].
      intros (before & e & after & Heq & Hb & He).
      destruct before as [|b before]; cbn in Heq; injection Heq as -> ->.
      * congruence.
      * inversion Hb; subst. congruence.
Qed.

Lemma first_logged_in_app (l1 l2 : list WebElement) :
  Auth.first_logged_in (l1 ++ l2)%list
  = (let* found := Auth.first_logged_in l1 in
     if found then Ok true else Auth.first_logged_in l2).
Proof.
  induction l1 as [|x xs IH]; cbn [app Auth.first_logged_in bind]; [reflexivity |].
  destruct (Auth.shows_logged_in x) as [[] | err]; cbn [bind]; auto.
Qed.

(** The two loops read the elements in the order of the lookups. *)
Lemma any_logged_in_concat (groups : list (list WebElement)) :
  Auth.any_logged_in groups = Auth.first_logged_in (concat groups).
Proof.
  induction groups as [|g gs IH]; cbn [Auth.any_logged_in concat]; [reflexivity |].
  rewrite first_logged_in_app, IH. reflexivity.
Qed.

(** X12. [is_session_valid] answers [True] exactly when the home page
    loads, its lower-cased source contains neither "captcha" nor "unusual
    traffic", every one of the six positive lookups returns without
    raising, and, among the elements they found, read in the order of the
    lookups, there is one whose text can be read and is, once stripped,
    non-empty and other than "hello, sign in" in any letter case, the text
    of every element before it having been read and refused. In every
    other situation, a lookup or a text that raises included, the answer
    is [False]. *)
Theorem full_check_valid_iff :
  forall (load : result Page),
    Auth.is_session_valid load = true <->
    exists p groups before e after t,
      load = Ok p /\
      contains "captcha" (lower (page_source p)) = false /\
      contains "unusual traffic" (lower (page_source p)) = false /\
      Forall2 (fun loc elements => find_elements p loc = Ok elements)
              Auth.positive_indicators groups /\
      concat groups = (before ++ e :: after)%list /\
      Forall (fun e' => exists t',
                text e' = Ok t' /\
                (strip t' = "" \/ lower (strip t') = "hello, sign in"))
             before /\
      text e = Ok t /\
      strip t <> "" /\
      lower (strip t) <> "hello, sign in".
Proof.
  intros load. unfold Auth.is_session_valid. split.
  - destruct load as [p | err]; cbn [bind try_except]; [| discriminate].
    destruct (contains "captcha" (lower (page_source p))) eqn:Hc; [discriminate |].
    destruct (contains "unusual traffic" (lower (page_source p))) eqn:Hu;
      [discriminate |].
    destruct (eval_all (map (find_elements p) Auth.positive_indicators))
      as [groups | err] eqn:Hg; cbn [bind]; [| discriminate].
    destruct (Auth.any_logged_in groups) as [[] | err] eqn:Hany; cbn [bind].
    + intros _. rewrite any_logged_in_concat in Hany.
      apply first_logged_in_true in Hany as (before & e & after & Hcat & Hb & He).
      apply shows_logged_in_true in He as (t & Ht & H1 & H2).
      exists p, groups, before, e, after, t.
      repeat split; auto.
      * now apply eval_all_ok.
      * eapply Forall_impl; [exact Hb |]. cbn. intros e'.
        apply shows_logged_in_false.
    + destruct (existsb _ Auth.sign_in_indicators); discriminate.
    + discriminate.
  - intros (p & groups & before & e & after & t & -> & Hc & Hu & Hg & Hcat & Hb
            & Ht & H1 & H2).
    cbn [bind try_except]. rewrite Hc, Hu.
    apply eval_all_ok in Hg. rewrite Hg. cbn [bind].
    replace (Auth.any_logged_in groups) with (Ok true (A := bool)); [reflexivity |].
    symmetry. rewrite any_logged_in_concat. apply first_logged_in_true.
    exists before, e, after. split; [exact Hcat |]. split.
    + eapply Forall_impl; [exact Hb |]. cbn. intros e'.
      apply shows_logged_in_false.
    + apply shows_logged_in_true. exists t. auto.
Qed.

(** A text made of a no-break space is white space for [str.strip], and a
    text that cannot be read ends the check: neither makes a session
    valid. *)
Example full_check_refuses_blank_and_unreadable_texts :
  Auth.is_session_valid
    (Ok (Examples.page_with "https://www.amazon.com/" "<html></html>"
           XPATH "//span[contains(text(), 'Hello,')]"
           [mkElement 1 (Ok (String (ascii_of_nat 160) EmptyString))]))
  = false /\
  Auth.is_session_valid
    (Ok (Examples.page_with "https://www.amazon.com/" "<html></html>"
           XPATH "//span[contains(text(), 'Hello,')]"
           [mkElement 1 (Raise WebDriverException);
            mkElement 2 (Ok "Hello, John")]))
  = false.
Proof. split; vm_compute; reflexivity. Qed.

(** ** The secure string, continued *)

(** Facts on a quotient and a remainder by a constant, with both then
    treated as unknowns. *)
Ltac abstract_div a b :=
  let q := fresh "q" in
  let r := fresh "r" in
  pose proof (N.Div0.div_mod a b);
  pose proof (N.mod_lt a b ltac:(discriminate));
  set (q := (a / b)%N) in *; set (r := (a mod b)%N) in *;
  clearbody q r.

(** The shape of the encoding of one code point: one to four bytes, the
    first of which is below 128 exactly for an ASCII code point. *)
Lemma encode_char_shape (c : N) (head : list byte) :
  encode_char c = Ok head ->
  (1 <= length head)%nat /\
  ((c < 128)%N -> head = [byte_of c]) /\
  ((128 <= c)%N ->
   exists b rest, head = b :: rest /\ rest <> [] /\ (128 <= Byte.to_N b)%N).
Proof.
  unfold encode_char.
  destruct (N.ltb_spec c 0x80).
  { intros [= <-]. repeat split; [cbn; lia | lia]. }
  destruct (N.ltb_spec c 0x800).
  { intros [= <-]. repeat split; [cbn; lia | lia |].
    intros _. eexists _, _. repeat split; [discriminate |].
    abstract_div c 64%N. rewrite byte_of_to_N; lia. }
  destruct ((0xD800 <=? c)%N && (c <=? 0xDFFF)%N); [discriminate |].
  destruct (N.ltb_spec c 0x10000).
  { intros [= <-]. repeat split; [cbn; lia | lia |].
    intros _. eexists _, _. repeat split; [discriminate |].
    abstract_div c 4096%N. rewrite byte_of_to_N; lia. }
  destruct (N.ltb_spec c 0x110000); [| discriminate].
  intros [= <-]. repeat split; [cbn; lia | lia |].
  intros _. eexists _, _. repeat split; [discriminate |].
  abstract_div c 262144%N. rewrite byte_of_to_N; lia.
Qed.

Lemma encode_cons (c : N) (rest : pystr) (data : list byte) :
  encode (c :: rest) = Ok data ->
  exists head tail,
    encode_char c = Ok head /\ encode rest = Ok tail /\ data = (head ++ tail)%list.
Proof.
  cbn [encode]. destruct (encode_char c) as [head |]; cbn [bind]; [| discriminate].
  destruct (encode rest) as [tail |]; cbn [bind]; [| discriminate].
  intros [= <-]. eauto.
Qed.

Lemma encode_length (s : pystr) (data : list byte) :
  encode s = Ok data -> (length s <= length data)%nat.
Proof.
  revert data. induction s as [|c rest IH]; intros data H.
  - cbn. lia.
  - apply encode_cons in H as (head & tail & Hc & Hr & ->).
    apply encode_char_shape in Hc as [Hlen _]. specialize (IH tail Hr).
    rewrite length_app. cbn [length]. lia.
Qed.

(** When the first [len s] bytes of the encoding are all below 128, the
    string is ASCII. *)
Lemma ascii_slice_means_ascii (s : pystr) (data : list byte) :
  encode s = Ok data ->
  Forall (fun b => (Byte.to_N b < 128)%N) (firstn (length s) data) ->
  Forall (fun c => (c < 128)%N) s.
Proof.
  revert data. induction s as [|c rest IH]; intros data H Hslice; [constructor |].
  apply encode_cons in H as (head & tail & Hc & Hr & ->).
  apply encode_char_shape in Hc as (_ & Hascii & Hother).
  destruct (N.lt_ge_cases c 128) as [Hlt | Hge].
  - rewrite (Hascii Hlt) in Hslice. cbn in Hslice.
    inversion Hslice; subst. constructor; [exact Hlt | eauto].
  - destruct (Hother Hge) as (b & more & -> & _ & Hb).
    cbn in Hslice. inversion Hslice; subst. lia.
Qed.

(** Decoding never yields more code points than bytes, and yields as many
    only when every byte is below 128. *)
Lemma decode_length_aux (n : nat) :
  forall (data : list byte) (t : pystr),
    (length data <= n)%nat -> decode data = Ok t ->
    (length t <= length data)%nat /\
    (length t = length data -> Forall (fun b => (Byte.to_N b < 128)%N) data).
Proof.
  induction n as [|n IH]; intros data t Hn H.
  - destruct data; cbn in Hn; [| lia]. cbn in H. injection H as <-.
    split; [cbn; lia | constructor].
  - destruct data as [|b0 r0].
    { cbn in H. injection H as <-. split; [cbn; lia | constructor]. }
    cbn [length] in Hn. cbn [decode] in H.
    destruct (N.ltb_spec (Byte.to_N b0) 0x80) as [Hlow | Hhigh].
    { destruct (decode r0) as [s |] eqn:E; cbn [bind] in H; [| discriminate].
      injection H as <-. destruct (IH r0 s ltac:(lia) E) as [Hle Hall].
      cbn [length]. split; [lia |]. intros Heq. constructor; [exact Hlow |].
      apply Hall. lia. }
    destruct (between 0xC2 (Byte.to_N b0) 0xDF).
    { destruct r0 as [|b1 r1]; [discriminate |].
      destruct (between 0x80 (Byte.to_N b1) 0xBF); [| discriminate].
      destruct (decode r1) as [s |] eqn:E; cbn [bind] in H; [| discriminate].
      injection H as <-. cbn [length] in *.
      destruct (IH r1 s ltac:(lia) E) as [Hle _]. split; lia. }
    destruct (between 0xE0 (Byte.to_N b0) 0xEF).
    { destruct r0 as [|b1 [|b2 r2]]; try discriminate.
      destruct (_ && _); [| discriminate].
      destruct (decode r2) as [s |] eqn:E; cbn [bind] in H; [| discriminate].
      injection H as <-. cbn [length] in *.
      destruct (IH r2 s ltac:(lia) E) as [Hle _]. split; lia. }
    destruct (between 0xF0 (Byte.to_N b0) 0xF4); [| discriminate].
    destruct r0 as [|b1 [|b2 [|b3 r3]]]; try discriminate.
    destruct (_ && _); [| discriminate].
    destruct (decode r3) as [s |] eqn:E; cbn [bind] in H; [| discriminate].
    injection H as <-. cbn [length] in *.
    destruct (IH r3 s ltac:(lia) E) as [Hle _]. split; lia.
Qed.

(** X13. [_length] counts code points and the buffer holds UTF-8 bytes, so
    for every secret with a code point outside ASCII the slice that
    [use_secret] decodes is too short: either it does not decode, the
    callback is not called and [UnboundLocalError] is raised, or the
    callback is called once with fewer characters than the secret has. It
    never receives the secret. *)
Theorem use_secret_truncates_non_ascii :
  forall (secret : pystr) (s : SecureString) (A : Type)
         (func : pystr -> result A),
    __init__ secret = Ok s ->
    Exists (fun c => (128 <= c)%N) secret ->
    (calls (use_secret func s) = [] /\
     outcome (use_secret func s) = Raise (UnboundLocalError "temp")) \/
    (exists t, calls (use_secret func s) = [t] /\
               outcome (use_secret func s) = func t /\
               (length t < length secret)%nat).
Proof.
  intros secret s A func Hinit Hnon.
  unfold __init__ in Hinit.
  destruct (encode secret) as [data |] eqn:Henc; cbn [bind] in Hinit;
    [| discriminate].
  injection Hinit as <-. unfold use_secret. cbn [_length _buffer].
  pose proof (encode_length secret data Henc) as Hlen.
  assert (Hslice : firstn (length secret) (data ++ [Byte.x00])
                   = firstn (length secret) data).
  { rewrite firstn_app.
    replace (length secret - length data)%nat with 0%nat by lia.
    cbn. apply app_nil_r. }
  rewrite Hslice.
  destruct (decode (firstn (length secret) data)) as [t | err] eqn:Hdec.
  - right. exists t. repeat split.
    destruct (decode_length_aux _ _ t (Nat.le_refl _) Hdec) as [Hle Hall].
    rewrite length_firstn in Hle, Hall.
    destruct (Nat.eq_dec (length t) (length secret)) as [Heq | Hne]; [| lia].
    exfalso.
    assert (Hascii : Forall (fun c => (c < 128)%N) secret).
    { apply (ascii_slice_means_ascii secret data Henc). apply Hall. lia. }
    apply Exists_exists in Hnon as (c & Hin & Hc).
    rewrite Forall_forall in Hascii. specialize (Hascii c Hin). lia.
  - left. split; reflexivity.
Qed.

Lemma use_secret_truncates_non_ascii_witness :
  exists t,
    calls (use_secret (fun temp => Ok (length temp))
             (mkSecureString 3 [Byte.xc3; Byte.xa9; Byte.x61; Byte.x62; Byte.x00]))
    = [t] /\ (length t < 3)%nat.
Proof.
  destruct (use_secret_truncates_non_ascii [0xE9; 0x61; 0x62]%N
              (mkSecureString 3 [Byte.xc3; Byte.xa9; Byte.x61; Byte.x62; Byte.x00])
              nat (fun temp => Ok (length temp)) eq_refl)
    as [(Hnone & _) | (t & Hcalls & _ & Hshort)].
  - left. vm_compute. discriminate.
  - vm_compute in Hnone. discriminate Hnone.
  - exists t. split; assumption.
Defined.

(** X14. [_secure_wipe] clears as many bytes as the secret has code points,
    not as many as its encoding has bytes: after [__del__] the buffer keeps
    its length, starts with [len(secret)] zero bytes whatever random bytes
    were drawn, and still ends with the last
    [len(encoding) - len(secret)] bytes of the encoded secret, followed by
    the final NUL. *)
Theorem wipe_clears_one_byte_per_code_point :
  forall (secret : pystr) (s : SecureString) (entropy : nat -> byte),
    __init__ secret = Ok s ->
    exists data,
      encode secret = Ok data /\
      _buffer s = (data ++ [Byte.x00])%list /\
      _buffer (__del__ entropy s)
        = (repeat Byte.x00 (length secret)
           ++ skipn (length secret) data ++ [Byte.x00])%list /\
      length (_buffer (__del__ entropy s)) = length (_buffer s) /\
      length (skipn (length secret) data) = (length data - length secret)%nat.
Proof.
  intros secret s entropy Hinit. unfold __init__ in Hinit.
  destruct (encode secret) as [data |] eqn:Henc; cbn [bind] in Hinit;
    [| discriminate].
  injection Hinit as <-. exists data.
  pose proof (encode_length secret data Henc) as Hlen.
  assert (Hwipe : _buffer (__del__ entropy
                    (mkSecureString (length secret) (data ++ [Byte.x00])))
                  = (repeat Byte.x00 (length secret)
                     ++ skipn (length secret) data ++ [Byte.x00])%list).
  { unfold __del__, _secure_wipe, scramble, memset, memmove.
    cbn [_length _buffer]. f_equal.
    rewrite skipn_app, length_firstn, length_token_bytes.
    replace (Nat.min (length secret) (length secret)) with (length secret) by lia.
    rewrite Nat.sub_diag. cbn [skipn].
    rewrite (skipn_all2 (firstn _ _))
      by (rewrite length_firstn, length_token_bytes; lia).
    cbn [app]. rewrite skipn_app.
    replace (length secret - length data)%nat with 0%nat by lia.
    reflexivity. }
  repeat split; try assumption.
  - rewrite Hwipe. cbn [_buffer].
    rewrite !length_app, repeat_length, length_skipn. cbn [length]. lia.
  - apply length_skipn.
Qed.

Lemma wipe_clears_one_byte_per_code_point_witness :
  _buffer (__del__ (fun _ => Byte.x5a)
             (mkSecureString 3 [Byte.xc3; Byte.xa9; Byte.x61; Byte.x62; Byte.x00]))
  = [Byte.x00; Byte.x00; Byte.x00; Byte.x62; Byte.x00].
Proof.
  destruct (wipe_clears_one_byte_per_code_point [0xE9; 0x61; 0x62]%N
              (mkSecureString 3 [Byte.xc3; Byte.xa9; Byte.x61; Byte.x62; Byte.x00])
              (fun _ => Byte.x5a) eq_refl)
    as (data & Henc & _ & Hwipe & _).
  vm_compute in Henc. injection Henc as <-. exact Hwipe.
Defined.

Lemma between_true (lo n hi : N) :
  (lo <= n)%N -> (n <= hi)%N -> between lo n hi = true.
Proof.
  intros H1 H2. unfold between.
  apply andb_true_iff. split; apply N.leb_le; assumption.
Qed.

Lemma between_false (lo n hi : N) :
  (n < lo)%N \/ (hi < n)%N -> between lo n hi = false.
Proof.
  intros H. unfold between. apply andb_false_iff.
  destruct H; [left | right]; apply N.leb_gt; assumption.
Qed.

(** Decoding the encoding of a code point gives the code point back and
    goes on with the bytes that follow. *)
Lemma decode_encode_char (c : N) (head tail : list byte) :
  encode_char c = Ok head ->
  decode (head ++ tail) = (let* s := decode tail in Ok (c :: s)).
Proof.
  unfold encode_char.
  destruct (N.ltb_spec c 0x80) as [H1 | H1].
  { intros [= <-]. cbn [app decode]. rewrite byte_of_to_N by lia.
    destruct (N.ltb_spec c 0x80); [reflexivity | lia]. }
  destruct (N.ltb_spec c 0x800) as [H2 | H2].
  { intros [= <-]. cbn [app decode].
    abstract_div c 64%N.
    rewrite !byte_of_to_N by lia.
    destruct (N.ltb_spec (0xC0 + q) 0x80); [lia |].
    rewrite (between_true 0xC2) by lia.
    rewrite (between_true 0x80) by lia.
    replace ((0xC0 + q - 0xC0) * 64 + (0x80 + r - 0x80))%N with c by lia.
    reflexivity. }
  destruct ((0xD800 <=? c)%N && (c <=? 0xDFFF)%N) eqn:Hsur; [discriminate |].
  assert (Hns : (c < 0xD800)%N \/ (0xDFFF < c)%N).
  { apply andb_false_iff in Hsur as [H | H]; apply N.leb_gt in H; auto. }
  destruct (N.ltb_spec c 0x10000) as [H3 | H3].
  { intros [= <-]. cbn [app decode].
    abstract_div c 64%N. abstract_div q 64%N. abstract_div c 4096%N.
    rewrite !byte_of_to_N by lia.
    destruct (N.ltb_spec (0xE0 + q1) 0x80); [lia |].
    rewrite (between_false 0xC2) by lia.
    rewrite (between_true 0xE0 (0xE0 + q1)) by lia.
    assert (Hmid : between (if (0xE0 + q1 =? 0xE0)%N then 0xA0 else 0x80)%N
                           (0x80 + r0)
                           (if (0xE0 + q1 =? 0xED)%N then 0x9F else 0xBF)%N = true).
    { apply between_true.
      - destruct (N.eqb_spec (0xE0 + q1) 0xE0); lia.
      - destruct (N.eqb_spec (0xE0 + q1) 0xED); lia. }
    rewrite Hmid. rewrite (between_true 0x80 (0x80 + r)) by lia. cbn [andb].
    replace ((0xE0 + q1 - 0xE0) * 4096 + (0x80 + r0 - 0x80) * 64
             + (0x80 + r - 0x80))%N with c by lia.
    reflexivity. }
  destruct (N.ltb_spec c 0x110000) as [H4 | H4]; [| discriminate].
  intros [= <-]. cbn [app decode].
  abstract_div c 64%N. abstract_div q 64%N. abstract_div c 4096%N.
  abstract_div q1 64%N. abstract_div c 262144%N.
  rewrite !byte_of_to_N by lia.
  destruct (N.ltb_spec (0xF0 + q3) 0x80); [lia |].
  rewrite (between_false 0xC2) by lia.
  rewrite (between_false 0xE0) by lia.
  rewrite (between_true 0xF0 (0xF0 + q3)) by lia.
  assert (Hmid : between (if (0xF0 + q3 =? 0xF0)%N then 0x90 else 0x80)%N
                         (0x80 + r2)
                         (if (0xF0 + q3 =? 0xF4)%N then 0x8F else 0xBF)%N = true).
  { apply between_true.
    - destruct (N.eqb_spec (0xF0 + q3) 0xF0); lia.
    - destruct (N.eqb_spec (0xF0 + q3) 0xF4); lia. }
  rewrite Hmid. rewrite (between_true 0x80 (0x80 + r0)) by lia.
  rewrite (between_true 0x80 (0x80 + r)) by lia. cbn [andb].
  replace ((0xF0 + q3 - 0xF0) * 262144 + (0x80 + r2 - 0x80) * 4096
           + (0x80 + r0 - 0x80) * 64 + (0x80 + r - 0x80))%N with c by lia.
  reflexivity.
Qed.

Lemma decode_encode (s : pystr) (data : list byte) :
  encode s = Ok data -> decode data = Ok s.
Proof.
  revert data. induction s as [|c rest IH]; intros data H.
  - cbn in H. injection H as <-. reflexivity.
  - apply encode_cons in H as (head & tail & Hc & Hr & ->).
    rewrite (decode_encode_char c head tail Hc), (IH tail Hr). reflexivity.
Qed.

(** X15. The buffer of a [SecureString] holds the secret faithfully: when
    [__init__] succeeds, [_length] is the number of code points, the buffer
    is the UTF-8 encoding followed by one NUL, and decoding the bytes
    before that NUL gives the secret back. *)
Theorem buffer_decodes_to_the_secret :
  forall (secret : pystr) (s : SecureString),
    __init__ secret = Ok s ->
    _length s = length secret /\
    exists data,
      _buffer s = (data ++ [Byte.x00])%list /\
      encode secret = Ok data /\
      decode data = Ok secret /\
      (length secret <= length data)%nat.
Proof.
  intros secret s Hinit. unfold __init__ in Hinit.
  destruct (encode secret) as [data |] eqn:Henc; cbn [bind] in Hinit;
    [| discriminate].
  injection Hinit as <-. split; [reflexivity |].
  exists data. repeat split.
  - now apply decode_encode.
  - now apply encode_length.
Qed.

Lemma buffer_decodes_to_the_secret_witness :
  exists data,
    encode [0x70; 0xE9; 0x20AC; 0x1F600]%N = Ok data /\
    decode data = Ok [0x70; 0xE9; 0x20AC; 0x1F600]%N.
Proof.
  destruct (buffer_decodes_to_the_secret [0x70; 0xE9; 0x20AC; 0x1F600]%N
              (mkSecureString 4
                 [Byte.x70; Byte.xc3; Byte.xa9; Byte.xe2; Byte.x82; Byte.xac;
                  Byte.xf0; Byte.x9f; Byte.x98; Byte.x80; Byte.x00])
              eq_refl)
    as (_ & data & _ & Henc & Hdec & _).
  exists data. split; assumption.
Defined.

(** ** Passwords and keys *)

Import Vault.

Lemma span_token_spec (s : string) :
  (String.length (fst (span_token s)) <= String.length s)%nat /\
  (forall c, In c (String.list_ascii_of_string s) ->
             is_token_char c = false ->
             In c (String.list_ascii_of_string (snd (span_token s)))) /\
  ((forall c, In c (String.list_ascii_of_string s) -> is_token_char c = true) ->
   span_token s = (s, EmptyString)).
Proof.
  induction s as [|a s (IH1 & IH2 & IH3)]; cbn [span_token].
  - repeat split; auto.
  - destruct (is_token_char a) eqn:Ha.
    + destruct (span_token s) as [run after]. cbn [fst snd] in *.
      repeat split.
      * cbn. lia.
      * intros c [<- | Hin] Hc; [congruence | auto].
      * intros Hall.
        assert (Hs : (run, after) = (s, EmptyString))
          by (apply IH3; intros c Hin; apply Hall; now right).
        injection Hs as -> ->. reflexivity.
    + cbn [fst snd]. repeat split.
      * cbn. lia.
      * auto.
      * intros Hall. specialize (Hall a (or_introl eq_refl)). congruence.
Qed.

(** X16. [get_password] returns its input unchanged, without decrypting,
    when the input has fewer than 20 characters, and when it contains a
    character other than a letter, a digit, [_], [-], [=] and the line
    feed; an input of 20 or more letters, digits, [_] and [-] is always
    handed to [decrypt], plain-text password or not. *)
Theorem short_or_punctuated_passwords_pass_through :
  forall (decrypt : string -> result string) (password_input : string),
    ((String.length password_input < 20)%nat ->
     get_password decrypt password_input = Ok password_input) /\
    ((exists c, In c (String.list_ascii_of_string password_input) /\
                is_token_char c = false /\
                c <> "="%char /\ c <> "010"%char) ->
     get_password decrypt password_input = Ok password_input) /\
    ((20 <= String.length password_input)%nat ->
     (forall c, In c (String.list_ascii_of_string password_input) ->
                is_token_char c = true) ->
     get_password decrypt password_input = decrypt password_input).
Proof.
  intros decrypt p. unfold get_password, is_encrypted.
  pose proof (span_token_spec p) as (Hlen & Hrest & Hall).
  destruct (span_token p) as [run after]. cbn [fst snd] in *.
  split; [| split].
  - intros Hshort.
    destruct (Nat.leb_spec 20 (String.length run)); [lia | reflexivity].
  - intros (c & Hin & Htok & Heq & Hnl).
    specialize (Hrest c Hin Htok).
    replace (existsb (String.eqb after) _) with false;
      [now rewrite andb_false_r |].
    symmetry. apply not_true_is_false. intros Hex.
    apply existsb_exists in Hex as (x & Hx & Hax).
    apply String.eqb_eq in Hax. subst after.
    unfold newline in Hx. cbn in Hx.
    repeat (destruct Hx as [<- | Hx];
            [vm_compute in Hrest; intuition congruence |]).
    exact Hx.
  - intros Hlong Htok. specialize (Hall Htok). injection Hall as -> ->.
    destruct (Nat.leb_spec 20 (String.length p)); [reflexivity | lia].
Qed.

Example plain_passwords_and_is_encrypted :
  is_encrypted "hunter2!" = false /\
  is_encrypted "correct horse battery staple" = false /\
  is_encrypted "correcthorsebatterystaple" = true /\
  is_encrypted "Z0FBQUFBQm5fdGVzdF9wYXNzd29yZA==" = true /\
  is_encrypted "Z0FBQUFBQm5fdGVzdF9wYXNzd29yZA===" = false.
Proof. repeat split. Qed.

(** What a successful [_load_key] leaves in the keyring: the key it
    returned, readable without raising. *)
Lemma load_key_leaves_its_key (fernet_accepts : string -> bool)
    (generated k : string) (kr : Keyring) :
  key (_load_key fernet_accepts generated kr) = Ok k ->
  get_raises (Encryption.keyring (_load_key fernet_accepts generated kr)) = false /\
  entries (Encryption.keyring (_load_key fernet_accepts generated kr))
    !! (SERVICE_ID, KEY_USERNAME) = Some k.
Proof.
  unfold _load_key, Encryption.get_password, generate_and_store, set_password.
  destruct (get_raises kr) eqn:Hget; [discriminate |].
  destruct (entries kr !! (SERVICE_ID, KEY_USERNAME)) as [stored |] eqn:Hstored.
  - destruct (fernet_accepts stored).
    + cbn. intros [= <-]. auto.
    + destruct (set_raises kr); cbn; [discriminate |].
      intros [= <-]. split; [reflexivity | apply lookup_insert_eq].
  - destruct (set_raises kr); cbn; [discriminate |].
    intros [= <-]. split; [reflexivity | apply lookup_insert_eq].
Qed.

(** X17. Once an [Encryption] object has obtained a key that [Fernet]
    accepts, the key is settled: the object answers later accesses from its
    cache without reading the keyring, whatever the keyring then holds, and
    any other load from the keyring it left returns the same key, writes
    nothing and logs nothing. *)
Theorem loaded_key_is_settled :
  forall (fernet_accepts : string -> bool) (generated generated' k : string)
         (kr kr' : Keyring),
    answer (fernet fernet_accepts generated (mkEncryption None) kr) = Ok k ->
    let first := fernet fernet_accepts generated (mkEncryption None) kr in
    fernet_accepts k = true /\
    fernet fernet_accepts generated' (self first) kr'
      = mkStep (Ok k) (self first) kr' /\
    _load_key fernet_accepts generated' (keyring first)
      = mkLoaded (Ok k) (keyring first) [] /\
    fernet fernet_accepts generated' (mkEncryption None) (keyring first)
      = mkStep (Ok k) (mkEncryption (Some k)) (keyring first).
Proof.
  intros fernet_accepts generated generated' k kr kr' Hfirst first.
  assert (Hshape : exists kr1,
             first = mkStep (Ok k) (mkEncryption (Some k)) kr1 /\
             fernet_accepts k = true /\
             get_raises kr1 = false /\
             entries kr1 !! (SERVICE_ID, KEY_USERNAME) = Some k).
  { subst first. revert Hfirst. unfold fernet. cbn [_fernet].
    destruct (key (_load_key fernet_accepts generated kr)) as [k0 | err] eqn:Hkey;
      cbn [answer]; [| discriminate].
    destruct (fernet_accepts k0) eqn:Hacc; cbn [answer]; [| discriminate].
    intros [= ->].
    destruct (load_key_leaves_its_key _ _ _ _ Hkey) as [Hget Hentry].
    eexists. repeat split; eassumption. }
  destruct Hshape as (kr1 & -> & Hacc & Hget & Hentry). cbn [self keyring].
  assert (Hagain : _load_key fernet_accepts generated' kr1 = mkLoaded (Ok k) kr1 []).
  { unfold _load_key, Encryption.get_password. rewrite Hget, Hentry, Hacc.
    reflexivity. }
  split; [exact Hacc | split; [reflexivity | split; [exact Hagain |]]].
  unfold fernet. cbn [_fernet]. rewrite Hagain. cbn. now rewrite Hacc.
Qed.

Lemma loaded_key_is_settled_witness :
  _load_key has_key_length "unused"
    (keyring (fernet has_key_length fresh_key (mkEncryption None) damaged_keyring))
  = mkLoaded (Ok fresh_key)
      (keyring (fernet has_key_length fresh_key (mkEncryption None) damaged_keyring))
      [].
Proof.
  exact (proj1 (proj2 (proj2 (loaded_key_is_settled has_key_length fresh_key
           "unused" fresh_key damaged_keyring damaged_keyring eq_refl)))).
Defined.

(** X18. [_store_key], and so [rotate_key], is all or nothing: when it
    returns, [Fernet] accepts the key, the keyring holds it, the object
    caches it, and a later load from that keyring returns it; when it
    raises, because [Fernet] rejects the key or the keyring cannot be
    written, the keyring and the cached key are left as they were. *)
Theorem store_key_is_all_or_nothing :
  forall (fernet_accepts : string -> bool) (generated generated' : string)
         (e : Encryption) (kr : Keyring),
    let stored := rotate_key fernet_accepts generated e kr in
    (answer stored = Ok tt ->
     fernet_accepts generated = true /\
     entries (keyring stored) !! (SERVICE_ID, KEY_USERNAME) = Some generated /\
     _fernet (self stored) = Some generated /\
     (get_raises kr = false ->
      key (_load_key fernet_accepts generated' (keyring stored)) = Ok generated)) /\
    (answer stored <> Ok tt -> self stored = e /\ keyring stored = kr).
Proof.
  intros fernet_accepts generated generated' e kr stored. subst stored.
  unfold rotate_key, _store_key, set_password.
  destruct (fernet_accepts generated) eqn:Hacc.
  - destruct (set_raises kr) eqn:Hset; cbn [answer self keyring].
    + split; [discriminate | auto].
    + split; [| congruence]. intros _. repeat split.
      * apply lookup_insert_eq.
      * intros Hget. unfold _load_key, Encryption.get_password. cbn [get_raises entries].
        rewrite Hget, lookup_insert_eq, Hacc. reflexivity.
  - cbn [answer self keyring]. split; [discriminate | auto].
Qed.

(** ** The filler trigger *)

(** X19. [_should_do_random_browsing] fires only when the incremented
    [check_count] is a multiple of its draw, a number of [8..12]: with a
    count that started at 0 it never fires during the first seven calls,
    whatever the draws, and whenever it fires the count it leaves is at
    least 8. *)
Theorem random_browsing_waits_eight_calls :
  forall (raw : N) (m : Monitor),
    0 <= check_count m ->
    (fst (_should_do_random_browsing raw m) = true ->
     8 <= check_count (snd (_should_do_random_browsing raw m)) /\
     exists d, 8 <= d <= 12 /\
               check_count (snd (_should_do_random_browsing raw m)) mod d = 0) /\
    (check_count m < 7 -> fst (_should_do_random_browsing raw m) = false).
Proof.
  intros raw m Hpos. unfold _should_do_random_browsing.
  cbn [fst snd check_count set_check_count].
  pose proof (randint_range 8 12 raw ltac:(lia)) as Hd.
  assert (Hfire : (check_count m + 1) mod randint 8 12 raw = 0 ->
                  8 <= check_count m + 1).
  { intros Hmod.
    destruct (Z.lt_ge_cases (check_count m + 1) (randint 8 12 raw)) as [Hlt | Hge];
      [| lia].
    rewrite Z.mod_small in Hmod by lia. lia. }
  split.
  - intros Hfired. apply Z.eqb_eq in Hfired. split; [auto |].
    exists (randint 8 12 raw). split; [exact Hd | exact Hfired].
  - intros Hearly. apply Z.eqb_neq. intros Hmod. specialize (Hfire Hmod). lia.
Qed.

Lemma random_browsing_waits_eight_calls_witness :
  fst (_should_do_random_browsing 4%N init_monitor) = false.
Proof.
  exact (proj2 (random_browsing_waits_eight_calls 4%N init_monitor
                  ltac:(cbn; lia)) ltac:(cbn; lia)).
Defined.

(** ** The purchase flows *)

Import Purchase.

(** Case analysis of a purchase attempt: every answer of the browser. *)
Ltac break_purchase :=
  unfold Purchase.attempt_purchase, Purchase._handle_buying_options_flow,
         Purchase._handle_direct_purchase_flow, _complete_checkout_process,
         _attempt_direct_checkout, _handle_cart_checkout_flow;
  repeat first
    [ progress cbv beta iota zeta
    | match goal with
      | |- context [match ?x with _ => _ end] =>
          match type of x with
          | result _ => destruct x eqn:?
          | option _ => destruct x eqn:?
          | list _ => destruct x eqn:?
          | bool => destruct x eqn:?
          end
      end ];
  cbn [fst snd app negb orders_placed In].

(** X20. A purchase attempt reports success only if the button of the
    product page was clicked, the place-order button was clicked, and the
    page shown after the last place-order click passed
    [_verify_order_success]: the page after the direct checkout, with one
    order placed, or the page after the checkout through the cart, reached
    from a page that [_is_in_cart_flow] recognised. The answer is the one
    [CheckoutHandler.attempt_purchase] gives for the outcomes of these
    flows. *)
Theorem success_requires_a_confirmed_order :
  forall (button : WebElement) (button_type : option string) (w : World),
    fst (Purchase.attempt_purchase (Some button) button_type w)
      = Checkout.attempt_purchase (Some button) button_type (flows_of button w) /\
    (fst (Purchase.attempt_purchase (Some button) button_type w) = true ->
     In (ClickButton (handle button))
        (snd (Purchase.attempt_purchase (Some button) button_type w)) /\
     In ClickPlaceOrder
        (snd (Purchase.attempt_purchase (Some button) button_type w)) /\
     ((_verify_order_success (after_direct w) = true /\
       orders_placed (snd (Purchase.attempt_purchase (Some button) button_type w))
         = 1%nat) \/
      (_verify_order_success (after_cart w) = true /\
       _is_in_cart_flow (cart w) = true))).
Proof.
  intros button button_type w. split.
  - unfold Purchase.attempt_purchase, Checkout.attempt_purchase, flows_of.
    destruct button_type as [ty |]; [| reflexivity].
    destruct (String.eqb ty ""); [reflexivity |].
    destruct (String.eqb ty "buying_options"); reflexivity.
  - break_purchase; intros H; try discriminate H;
      repeat match goal with
        | Hn : negb _ = false |- _ => apply negb_false_iff in Hn
        end;
      intuition (auto; congruence).
Qed.

(** X21. A purchase attempt clicks the place-order button at most twice,
    and twice only when the page shown after the first click did not pass
    [_verify_order_success]: the checkout through the cart then places the
    order again, and the answer of the attempt is the verification of the
    page shown after the second click. An attempt that places no order
    reports failure. *)
Theorem order_placed_twice_only_when_unconfirmed :
  forall (button : option WebElement) (button_type : option string) (w : World),
    let attempt := Purchase.attempt_purchase button button_type w in
    (orders_placed (snd attempt) <= 2)%nat /\
    (orders_placed (snd attempt) = 2%nat ->
     _verify_order_success (after_direct w) = false /\
     fst attempt = _verify_order_success (after_cart w)) /\
    (orders_placed (snd attempt) = 0%nat -> fst attempt = false).
Proof.
  intros button button_type w attempt. subst attempt.
  break_purchase; repeat split; intros; try lia; try discriminate;
    try reflexivity; try congruence.
Qed.

Lemma order_placed_twice_only_when_unconfirmed_witness :
  orders_placed
    (snd (Purchase.attempt_purchase (Some (mkElement 7 (Ok "Buy Now"))) (Some "direct")
            Inputs.unrecognised_confirmation)) = 2%nat /\
  _verify_order_success (after_direct Inputs.unrecognised_confirmation) = false.
Proof.
  split; [reflexivity |].
  exact (proj1 (proj1 (proj2 (order_placed_twice_only_when_unconfirmed
           (Some (mkElement 7 (Ok "Buy Now"))) (Some "direct")
           Inputs.unrecognised_confirmation)) eq_refl)).
Defined.

(** ** Logging in *)

Import Login.

(** What [use_secret] decodes from the buffer of a secret: the secret
    itself when it is ASCII, and fewer characters than the secret has when
    it is not. *)
Lemma decoded_slice (secret temp : pystr) (s : SecureString) :
  __init__ secret = Ok s ->
  decode (firstn (_length s) (_buffer s)) = Ok temp ->
  (Forall (fun c => (c < 128)%N) secret -> temp = secret) /\
  (Exists (fun c => (128 <= c)%N) secret -> (length temp < length secret)%nat).
Proof.
  intros Hinit Hdec. unfold __init__ in Hinit.
  destruct (encode secret) as [data |] eqn:Henc; cbn [bind] in Hinit;
    [| discriminate].
  injection Hinit as <-. cbn [_length _buffer] in Hdec.
  pose proof (encode_length secret data Henc) as Hlen.
  assert (Hslice : firstn (length secret) (data ++ [Byte.x00])
                   = firstn (length secret) data).
  { rewrite firstn_app.
    replace (length secret - length data)%nat with 0%nat by lia.
    cbn. apply app_nil_r. }
  rewrite Hslice in Hdec. split.
  - intros Hascii. rewrite (encode_ascii secret Hascii) in Henc.
    injection Henc as <-.
    rewrite <- (length_map byte_of secret), firstn_all in Hdec.
    rewrite (decode_ascii secret Hascii) in Hdec. congruence.
  - intros Hnon.
    destruct (decode_length_aux _ _ temp (Nat.le_refl _) Hdec) as [Hle Hall].
    rewrite length_firstn in Hle, Hall.
    destruct (Nat.eq_dec (length temp) (length secret)) as [Heq | Hne]; [| lia].
    exfalso.
    assert (Hascii : Forall (fun c => (c < 128)%N) secret).
    { apply (ascii_slice_means_ascii secret data Henc). apply Hall. lia. }
    apply Exists_exists in Hnon as (c & Hin & Hc).
    rewrite Forall_forall in Hascii. specialize (Hascii c Hin). lia.
Qed.

(** Case analysis of a login: every answer of the browser, innermost
    first. *)
Ltac break_login :=
  unfold login, _navigate_to_login, _enter_credentials, _handle_security_checks,
         _verify_login, fill_password, decrypt_password, _click_signin_button,
         use_secret, and_then, doing, quietly, bind;
  repeat first
    [ progress cbv beta iota zeta
    | progress cbn [outcome fst snd]
    | match goal with
      | |- context [match ?x with _ => _ end] =>
          lazymatch x with
          | context [match _ with _ => _ end] => fail
          | _ =>
              match type of x with
              | result _ => destruct x eqn:?
              | option _ => destruct x eqn:?
              | bool => destruct x eqn:?
              | exn => destruct x eqn:?
              end
          end
      end ];
  cbn [fst snd app typed_passwords sign_in_clicks In length].

(** X22. Whatever the browser answers, a login sends at most one text to
    the password field, and only after the keyring gave the decrypted
    password: for an ASCII password the text is the decrypted password
    itself; for a password with a character outside ASCII it is a text with
    fewer characters than the password. *)
Theorem only_the_decrypted_password_is_typed :
  forall (w : Login.World) (email : string),
    (length (typed_passwords (snd (login w email))) <= 1)%nat /\
    forall t,
      In t (typed_passwords (snd (login w email))) ->
      exists plain,
        decrypted w = Ok plain /\
        (Forall (fun c => (c < 128)%N) plain -> t = plain) /\
        (Exists (fun c => (128 <= c)%N) plain ->
         (length t < length plain)%nat).
Proof.
  intros w email.
  break_login; (split; [lia |]); intros t Hin; try contradiction;
    destruct Hin as [<- | []];
    match goal with
    | Hinit : __init__ ?plain = Ok ?s,
      Hdec : decode (firstn (_length ?s) (_buffer ?s)) = Ok ?temp |- _ =>
        exists plain; split; [reflexivity | exact (decoded_slice _ _ _ Hinit Hdec)]
    end.
Qed.

(** X23. [login] returns [True] only if the sign-in link or page was
    reached, the e-mail address was typed, one text was typed into the
    password field, the sign-in button was found and clicked twice (once by
    the callback, once by the last step of [_enter_credentials]) and the
    account link appeared within the wait. *)
Theorem login_succeeds_only_after_two_sign_in_clicks :
  forall (w : Login.World) (email : string),
    fst (login w email) = true ->
    In (TypeEmail email) (snd (login w email)) /\
    length (typed_passwords (snd (login w email))) = 1%nat /\
    sign_in_clicks (snd (login w email)) = 2%nat /\
    account_link w = Ok tt /\
    open_account_page w = Ok tt /\
    (exists field, _find_email_field w = Ok field).
Proof.
  intros w email.
  break_login; intros H; try discriminate H;
    repeat match goal with u : unit |- _ => destruct u end;
    repeat split; eauto; cbn; tauto.
Qed.

Lemma login_succeeds_only_after_two_sign_in_clicks_witness :
  login Inputs.smooth_login "test@example.com"
  = (true,
     [ ClickLink 2; TypeEmail "test@example.com"; ClickContinue;
       TypePassword [112%N; 119%N]; ClickSignIn; ClickSignIn;
       Open "https://www.amazon.com/gp/css/homepage.html" ]) /\
  sign_in_clicks (snd (login Inputs.smooth_login "test@example.com")) = 2%nat.
Proof.
  split; [reflexivity |].
  exact (proj1 (proj2 (proj2 (login_succeeds_only_after_two_sign_in_clicks
           Inputs.smooth_login "test@example.com" eq_refl)))).
Defined.

(** ** Saved cookies *)

Lemma add_all_cookies (accepts : Cookies.Item -> bool) (cookies : list string) :
  forall (n : nat) (jar : list Cookies.Item),
    Cookies.add_all accepts (map Cookies.cookie cookies) n jar
    = (Ok (n + length (List.filter accepts (map Cookies.cookie cookies)))%nat,
       (jar ++ List.filter accepts (map Cookies.cookie cookies))%list).
Proof.
  induction cookies as [|c rest IH]; intros n jar; cbn [map Cookies.add_all List.filter].
  - cbn. now rewrite Nat.add_0_r, app_nil_r.
  - destruct (accepts (Cookies.cookie c)); cbn [Cookies.is_dict Cookies.cookie].
    + rewrite IH. cbn [length]. rewrite <- app_assoc. cbn [app].
      f_equal. f_equal. lia.
    + apply IH.
Qed.

(** X24. After [save_cookies] returns [True], the file holds the cookies
    of the browser: [get_cookie_count] is their number, [has_valid_cookies]
    tells whether there is any, and [load_cookies] adds to a browser
    exactly those of them that its [add_cookie] accepts, in their order,
    returning [True] exactly when it accepted at least one. *)
Theorem saved_cookies_load_back :
  forall (cookies : list string) (fs : Cookies.Files)
         (accepts : Cookies.Item -> bool) (jar : list Cookies.Item),
    Cookies.write_raises fs = false ->
    Cookies.read_raises fs = false ->
    let saved := Cookies.save_cookies (Ok cookies) fs in
    fst saved = true /\
    Cookies.get_cookie_count (snd saved) = length cookies /\
    Cookies.has_valid_cookies (snd saved) = negb (Nat.eqb (length cookies) 0) /\
    Cookies.load_cookies accepts (snd saved) jar
    = (existsb accepts (map Cookies.cookie cookies),
       (jar ++ List.filter accepts (map Cookies.cookie cookies))%list).
Proof.
  intros cookies fs accepts jar Hw Hr saved. subst saved.
  unfold Cookies.save_cookies. rewrite Hw. cbn [fst snd].
  unfold Cookies.has_valid_cookies, Cookies.get_cookie_count, Cookies.load_cookies.
  cbn [Cookies.file Cookies.with_file Cookies.read_raises]. rewrite Hr.
  rewrite length_map, add_all_cookies. repeat split.
  - destruct cookies; reflexivity.
  - f_equal. cbn [Nat.add].
    induction (map Cookies.cookie cookies) as [|c rest IH]; [reflexivity |].
    cbn [List.filter existsb]. destruct (accepts c); [reflexivity | exact IH].
Qed.

Lemma saved_cookies_load_back_witness :
  Cookies.load_cookies (fun item => String.eqb (Cookies.name item) "session-id")
    (snd (Cookies.save_cookies (Ok ["ubid-main"; "session-id"]) Inputs.no_cookie_file))
    []
  = (true, [Cookies.cookie "session-id"]).
Proof.
  exact (proj2 (proj2 (proj2 (saved_cookies_load_back ["ubid-main"; "session-id"]
           Inputs.no_cookie_file
           (fun item => String.eqb (Cookies.name item) "session-id") []
           eq_refl eq_refl)))).
Defined.

Lemma add_all_grows (accepts : Cookies.Item -> bool) (cookies : list Cookies.Item) :
  forall (n : nat) (jar : list Cookies.Item),
    exists added,
      snd (Cookies.add_all accepts cookies n jar) = (jar ++ added)%list /\
      Forall (fun item => accepts item = true /\ In item cookies) added /\
      (forall k, fst (Cookies.add_all accepts cookies n jar) = Ok k ->
                 k = (n + length added)%nat).
Proof.
  induction cookies as [|c rest IH]; intros n jar; cbn [Cookies.add_all].
  - exists []. cbn. rewrite app_nil_r. repeat split; [constructor |].
    intros k [= <-]. lia.
  - destruct (accepts c) eqn:Hc.
    + destruct (IH (S n) (jar ++ [c])%list) as (added & Hjar & Hall & Hcount).
      exists (c :: added). rewrite Hjar, <- app_assoc. repeat split.
      * constructor; [split; [exact Hc | now left] |].
        eapply Forall_impl; [exact Hall |]. cbn. intros a [H1 H2]. auto.
      * intros k Hk. rewrite (Hcount k Hk). cbn [length]. lia.
    + destruct (Cookies.is_dict c).
      * destruct (IH n jar) as (added & Hjar & Hall & Hcount).
        exists added. repeat split; auto.
        eapply Forall_impl; [exact Hall |]. cbn. intros a [H1 H2]. auto.
      * exists []. cbn. rewrite app_nil_r. repeat split; [constructor |].
        intros k H. discriminate H.
Qed.

(** X25. Whatever the cookie file holds, [load_cookies] only adds to the
    browser items of the file that [add_cookie] accepted, after the
    cookies the browser had, and returns [True] only if it added at least
    one; when the file is absent, unreadable, not JSON or not iterable it
    returns [False] and adds nothing. After [clear_cookies] returns [True]
    no cookie is counted and nothing loads, and clearing again still
    returns [True]. *)
Theorem cookie_file_edge_cases :
  forall (fs : Cookies.Files) (accepts : Cookies.Item -> bool)
         (jar : list Cookies.Item),
    (exists added,
        snd (Cookies.load_cookies accepts fs jar) = (jar ++ added)%list /\
        Forall (fun item => accepts item = true) added /\
        (fst (Cookies.load_cookies accepts fs jar) = true -> added <> [])) /\
    (Cookies.file fs = None \/ Cookies.read_raises fs = true \/
     Cookies.file fs = Some Cookies.Unparsable \/
     Cookies.file fs = Some (Cookies.Parsed None) ->
     Cookies.load_cookies accepts fs jar = (false, jar) /\
     Cookies.get_cookie_count fs = 0%nat) /\
    (fst (Cookies.clear_cookies fs) = true ->
     Cookies.get_cookie_count (snd (Cookies.clear_cookies fs)) = 0%nat /\
     Cookies.load_cookies accepts (snd (Cookies.clear_cookies fs)) jar = (false, jar) /\
     fst (Cookies.clear_cookies (snd (Cookies.clear_cookies fs))) = true).
Proof.
  intros fs accepts jar. split; [| split].
  - assert (Hnothing : exists added : list Cookies.Item,
               jar = (jar ++ added)%list /\
               Forall (fun item => accepts item = true) added /\
               (false = true -> added <> [])).
    { exists []. rewrite app_nil_r. repeat split; [constructor | discriminate]. }
    unfold Cookies.load_cookies.
    destruct (Cookies.file fs) as [content |]; [| exact Hnothing].
    destruct (Cookies.read_raises fs); [exact Hnothing |].
    destruct content as [| [cookies |]]; [exact Hnothing | | exact Hnothing].
    destruct (add_all_grows accepts cookies 0 jar) as (added & Hjar & Hall & Hcount).
    destruct (Cookies.add_all accepts cookies 0 jar) as [[k | err] jar'];
      cbn [fst snd] in *; subst jar'; exists added; repeat split.
    + eapply Forall_impl; [exact Hall |]. cbn. tauto.
    + intros Hpos. apply Nat.ltb_lt in Hpos.
      rewrite (Hcount k eq_refl) in Hpos. intros ->. cbn in Hpos. lia.
    + eapply Forall_impl; [exact Hall |]. cbn. tauto.
    + discriminate.
  - unfold Cookies.load_cookies, Cookies.get_cookie_count.
    intros [-> | [Hr | [-> | ->]]]; try (destruct (Cookies.read_raises fs); split; reflexivity).
    rewrite Hr. destruct (Cookies.file fs); split; reflexivity.
  - unfold Cookies.clear_cookies, Cookies.get_cookie_count, Cookies.load_cookies.
    destruct (Cookies.file fs) as [content |] eqn:Hfile.
    + destruct (Cookies.unlink_raises fs); cbn; [discriminate |].
      intros _. repeat split.
    + cbn. rewrite Hfile. intros _. repeat split.
Qed.

(** ** Building the configuration *)

Lemma post_init_accepts (c : Settings.Config) :
  Settings.__post_init__ c = None <->
  Settings.email c <> "" /\ Settings.password_encrypted c <> "" /\
  Settings.product_url c <> "" /\
  String.prefix "https://www.amazon.com" (Settings.product_url c) = true /\
  10 <= Settings.refresh_interval c.
Proof.
  unfold Settings.__post_init__.
  destruct (String.eqb_spec (Settings.email c) "").
  { split; [discriminate | tauto]. }
  destruct (String.eqb_spec (Settings.password_encrypted c) "").
  { split; [discriminate | tauto]. }
  destruct (String.eqb_spec (Settings.product_url c) "").
  { split; [discriminate | tauto]. }
  destruct (String.prefix "https://www.amazon.com" (Settings.product_url c)); cbn [negb].
  - destruct (Z.ltb_spec (Settings.refresh_interval c) 10).
    + split; [discriminate | lia].
    + split; auto.
  - split; [discriminate |]. intros (_ & _ & _ & H & _). discriminate H.
Qed.

(** X26. The command-line overrides are applied after the configuration
    was validated and are not validated themselves. Whenever the
    environment gives a configuration, [create_config_from_args] returns
    it with the overrides applied, whatever they are: with an [--interval]
    below 10 other than 0, or with a [--url] that does not start with
    "https://www.amazon.com", it returns a configuration that
    [__post_init__] rejects. In general a configuration that it returns
    has a non-empty e-mail address, encrypted password and product URL, and
    its [refresh_interval] is the [--interval] argument (60 by default)
    whenever that is not 0, whatever [REFRESH_INTERVAL] says in the
    environment; it satisfies the checks of [__post_init__] exactly when
    its URL starts with "https://www.amazon.com" and its interval is at
    least 10. *)
Theorem overrides_are_not_validated :
  forall (parse_int : string -> option Z) (args : Main.Args)
         (env : gmap string string),
    (forall c0,
       Main.create_config_from_env parse_int env = Main.Built c0 ->
       Main.create_config_from_args parse_int args env
       = Main.Built (Main.override args c0) /\
       (Main.arg_interval args <> 0 -> Main.arg_interval args < 10 ->
        Settings.__post_init__ (Main.override args c0) <> None) /\
       (forall url,
          Main.arg_url args = Some url -> url <> "" ->
          String.prefix "https://www.amazon.com" url = false ->
          Settings.__post_init__ (Main.override args c0) <> None)) /\
    (forall c,
       Main.create_config_from_args parse_int args env = Main.Built c ->
       Settings.email c <> "" /\
       Settings.password_encrypted c <> "" /\
       Settings.product_url c <> "" /\
       (Main.arg_interval args <> 0 ->
        Settings.refresh_interval c = Main.arg_interval args) /\
       (Settings.__post_init__ c = None <->
        String.prefix "https://www.amazon.com" (Settings.product_url c) = true /\
        10 <= Settings.refresh_interval c)).
Proof.
  intros parse_int args env. split.
  - intros c0 Henv. split; [| split].
    + unfold Main.create_config_from_args. rewrite Henv. reflexivity.
    + intros Hset Hshort Hok. apply post_init_accepts in Hok as (_ & _ & _ & _ & Hi).
      cbn in Hi. destruct (Z.eqb_spec (Main.arg_interval args) 0); lia.
    + intros url Hurl Hne Hprefix Hok.
      apply post_init_accepts in Hok as (_ & _ & _ & Hp & _).
      cbn in Hp. rewrite Hurl in Hp. cbn in Hp.
      destruct (String.eqb_spec url ""); [contradiction |].
      cbn in Hp. congruence.
  - intros c Hbuilt.
    assert (Hbase : exists c0, Settings.__post_init__ c0 = None /\
                               c = Main.override args c0).
    { revert Hbuilt. unfold Main.create_config_from_args, Main.construct.
      destruct (Main.create_config_from_env parse_int env) as [c0 | msg |] eqn:Henv.
      - intros [= <-]. exists c0. split; [| reflexivity].
        revert Henv. unfold Main.create_config_from_env, Main.construct.
        destruct (_ || _); [discriminate |].
        destruct (parse_int _); [| discriminate].
        destruct (Settings.__post_init__ _) eqn:Hok; [discriminate |].
        intros [= <-]. exact Hok.
      - destruct (Settings.__post_init__ _) eqn:Hok; [discriminate |].
        intros [= <-]. eexists. split; [exact Hok | reflexivity].
      - destruct (Settings.__post_init__ _) eqn:Hok; [discriminate |].
        intros [= <-]. eexists. split; [exact Hok | reflexivity]. }
    destruct Hbase as (c0 & Hok & ->).
    apply post_init_accepts in Hok as (He & Hp & Hu & _ & _).
    assert (Hnonempty : forall (a : option string) (s : string),
               s <> "" ->
               (if Main.truthy a then Main.or_empty a else s) <> "").
    { intros [a |] s Hs; cbn; [| exact Hs].
      destruct (String.eqb_spec a ""); cbn; auto. }
    assert (H1 : Settings.email (Main.override args c0) <> "")
      by (apply Hnonempty, He).
    assert (H2 : Settings.password_encrypted (Main.override args c0) <> "")
      by (apply Hnonempty, Hp).
    assert (H3 : Settings.product_url (Main.override args c0) <> "")
      by (apply Hnonempty, Hu).
    split; [exact H1 |]. split; [exact H2 |]. split; [exact H3 |].
    split; [| split].
    + intros Hi. cbn. destruct (Z.eqb_spec (Main.arg_interval args) 0); congruence.
    + intros H. apply post_init_accepts in H. tauto.
    + intros [Hpre Hint]. apply post_init_accepts. auto.
Qed.

Lemma overrides_are_not_validated_witness :
  exists c,
    Main.create_config_from_args Main.parse_sample Main.negative_interval
      Main.sample_env = Main.Built c /\
    Settings.refresh_interval c = -5 /\
    Settings.__post_init__ c <> None.
Proof.
  destruct (proj1 (overrides_are_not_validated Main.parse_sample
                     Main.negative_interval Main.sample_env)
              {| Settings.email := "test@example.com";
                    Settings.password_encrypted := "Z0FBQUFBQm5fdGVzdF9wYXNzd29yZA==";
                    Settings.product_url := "https://www.amazon.com/dp/B123456789";
                    Settings.refresh_interval := 300;
                    Settings.headless := false;
                    Settings.cookie_file := "amazon_cookies.json";
                    Settings.enable_anti_detection := false;
                    Settings.randomize_user_agent := false;
                    Settings.randomize_window_size := false;
                    Settings.random_delays := false;
                    Settings.stealth_mode := false |})
    as (Hbuilt & Hinterval & _).
  - vm_compute. reflexivity.
  - eexists. split; [exact Hbuilt |]. split; [reflexivity |].
    apply Hinterval; cbn; lia.
Defined.

(** ** Exceptions that leave the loop *)





